(** * promoMaker: the flyer pipeline, embedded and verified

    A shallow embedding of the TypeScript sources of promoMaker:

    - [ImageGenerator]  (colour derivation, word wrap, SVG layout),
    - [TextGenerator]   (acquisition of text variations, fallback bank),
    - [FlyerGenerator]  (accent colour, batch orchestration).

    JavaScript strings are sequences of UTF-16 code units, JavaScript
    numbers are IEEE-754 binary64 values ([PrimFloat.float]); numbers that
    the program only ever uses as integers (parsed colour channels, loop
    counters, string lengths) are kept in [Z] or [nat].  Exceptions are
    explicit: a function that can throw returns a [result]. *)

From Stdlib Require Import Ascii String DecimalString.
From Stdlib Require Import List ZArith NArith Lia Bool.
From Stdlib Require Import Floats Uint63.
From Stdlib Require DecimalNat DecimalN QArith.
Import ListNotations.

Set Warnings "-inexact-float,-register-all".

(* ================================================================== *)
(** ** JavaScript values *)
(* ================================================================== *)

Module JS.

(** *** Strings: lists of UTF-16 code units *)

Definition code_unit := N.
Definition jsstring := list code_unit.

(** Source literals are written as Rocq strings (UTF-8 bytes) and decoded
    to code units, so that ['¡'] counts for one unit as it does in
    JavaScript. *)
Fixpoint utf16 (bs : list N) : jsstring :=
  match bs with
  | [] => []
  | b0 :: r0 =>
    if (b0 <? 128)%N then b0 :: utf16 r0
    else match r0 with
    | [] => []
    | b1 :: r1 =>
      if (b0 <? 224)%N then ((b0 - 192) * 64 + (b1 - 128))%N :: utf16 r1
      else match r1 with
      | [] => []
      | b2 :: r2 =>
        if (b0 <? 240)%N
        then ((b0 - 224) * 4096 + (b1 - 128) * 64 + (b2 - 128))%N :: utf16 r2
        else match r2 with
        | [] => []
        | b3 :: r3 =>
          let cp := ((b0 - 240) * 262144 + (b1 - 128) * 4096
                     + (b2 - 128) * 64 + (b3 - 128) - 65536)%N in
          (55296 + cp / 1024)%N :: (56320 + cp mod 1024)%N :: utf16 r3
        end
      end
    end
  end.

Definition js (s : string) : jsstring :=
  utf16 (map N_of_ascii (list_ascii_of_string s)).

Fixpoint jseqb (a b : jsstring) : bool :=
  match a, b with
  | [], [] => true
  | x :: a', y :: b' => (x =? y)%N && jseqb a' b'
  | _, _ => false
  end.

(** Truthiness of a string: only the empty string is falsy. *)
Definition truthy (s : jsstring) : bool :=
  match s with [] => false | _ :: _ => true end.

(** [a || d] on strings. *)
Definition or_else (a d : jsstring) : jsstring := if truthy a then a else d.

(** [s.substring(a, b)] for [a <= b], the only way the program calls it. *)
Definition substring (a b : nat) (s : jsstring) : jsstring :=
  firstn (b - a) (skipn a s).

(** [s.startsWith(c)] for a one-unit [c]. *)
Definition startsWith (c : code_unit) (s : jsstring) : bool :=
  match s with x :: _ => (x =? c)%N | [] => false end.

(** [s.replace(c, rep)] for a one-unit string pattern [c]: the first
    occurrence only. *)
Fixpoint replace_first (c : code_unit) (rep s : jsstring) : jsstring :=
  match s with
  | [] => []
  | x :: r => if (x =? c)%N then rep ++ r else x :: replace_first c rep r
  end.

(** [s.replace(/c/g, rep)]: every occurrence. *)
Fixpoint replace_all (c : code_unit) (rep s : jsstring) : jsstring :=
  match s with
  | [] => []
  | x :: r => if (x =? c)%N then rep ++ replace_all c rep r
              else x :: replace_all c rep r
  end.

Fixpoint is_prefix (p s : jsstring) : bool :=
  match p, s with
  | [], _ => true
  | x :: p', y :: s' => (x =? y)%N && is_prefix p' s'
  | _ :: _, [] => false
  end.

(** [s.replace(pat, rep)] for a string pattern: the first occurrence only.
    The replacement is inserted literally (the [$]-patterns of
    [String.prototype.replace] are not interpreted). *)
Fixpoint replace_first_str (pat rep s : jsstring) : jsstring :=
  if is_prefix pat s then rep ++ skipn (length pat) s
  else match s with
       | [] => []
       | x :: r => x :: replace_first_str pat rep r
       end.

(** [s.split(c)] for a one-unit separator. *)
Fixpoint split_aux (c : code_unit) (cur : jsstring) (s : jsstring)
  : list jsstring :=
  match s with
  | [] => [rev cur]
  | x :: r => if (x =? c)%N then rev cur :: split_aux c [] r
              else split_aux c (x :: cur) r
  end.

Definition split (c : code_unit) (s : jsstring) : list jsstring :=
  split_aux c [] s.

(** [s.padStart(n, '0')]. *)
Definition padStart0 (n : nat) (s : jsstring) : jsstring :=
  repeat 48%N (n - length s) ++ s.

Arguments substring (a b)%_nat s.
Arguments startsWith c%_N s.
Arguments replace_first c%_N rep s.
Arguments replace_all c%_N rep s.
Arguments split c%_N s.
Arguments padStart0 n%_nat s.

(** *** Integral numbers

    A JavaScript number that is NaN or an integer: what [parseInt]
    returns on the short strings the program gives it, and what integer
    arithmetic on such values yields.  [-0] and [0] are identified: no
    operation the program applies to them tells them apart. *)
Inductive intnum :=
| INaN
| IInf (negative : bool)
| IInt (z : Z).

Definition hex_val (c : code_unit) : option Z :=
  if ((48 <=? c) && (c <=? 57))%N then Some (Z.of_N c - 48)%Z
  else if ((97 <=? c) && (c <=? 102))%N then Some (Z.of_N c - 87)%Z
  else if ((65 <=? c) && (c <=? 70))%N then Some (Z.of_N c - 55)%Z
  else None.

(** WhiteSpace and LineTerminator code units, skipped by [parseInt]. *)
Definition is_space (c : code_unit) : bool :=
  existsb (N.eqb c)
    [9; 10; 11; 12; 13; 32; 160; 5760; 8192; 8193; 8194; 8195; 8196; 8197;
     8198; 8199; 8200; 8201; 8202; 8232; 8233; 8239; 8287; 12288; 65279]%N.

Fixpoint skip_space (s : jsstring) : jsstring :=
  match s with
  | c :: r => if is_space c then skip_space r else s
  | [] => []
  end.

(** The longest prefix of hexadecimal digits, as a number. *)
Fixpoint hex_prefix (acc : option Z) (s : jsstring) : option Z :=
  match s with
  | [] => acc
  | c :: r =>
    match hex_val c with
    | Some d =>
      hex_prefix (Some (match acc with Some a => 16 * a + d | None => d end)%Z) r
    | None => acc
    end
  end.

(** An optional sign in front. *)
Definition strip_sign (s : jsstring) : bool * jsstring :=
  match s with
  | c :: r =>
    if (c =? 45)%N then (true, r)
    else if (c =? 43)%N then (false, r)
    else (false, s)
  | [] => (false, [])
  end.

(** An optional [0x] or [0X] in front. *)
Definition strip_0x (s : jsstring) : jsstring :=
  match s with
  | a :: b :: r =>
    if ((a =? 48) && ((b =? 120) || (b =? 88)))%N then r else s
  | _ => s
  end.

(** [parseInt(s, 16)]: leading white space, an optional sign, an optional
    [0x]/[0X], then the longest run of hexadecimal digits; NaN when that
    run is empty.  Exact below 2^53, which covers the two-unit arguments
    of the program. *)
Definition parseInt16 (s : jsstring) : intnum :=
  let '(neg, s2) := strip_sign (skip_space s) in
  match hex_prefix None (strip_0x s2) with
  | None => INaN
  | Some v => IInt (if neg then - v else v)
  end.

Definition hex_digit (d : Z) : code_unit :=
  if (d <? 10)%Z then Z.to_N (d + 48) else Z.to_N (d + 87).

Fixpoint hex_digits (fuel : nat) (n : Z) (acc : jsstring) : jsstring :=
  match fuel with
  | O => acc
  | S f =>
    let acc' := hex_digit (n mod 16) :: acc in
    if (n / 16 =? 0)%Z then acc' else hex_digits f (n / 16) acc'
  end.

(** [n.toString(16)] on an integral number. *)
Definition toString16 (n : intnum) : jsstring :=
  match n with
  | INaN => js "NaN"
  | IInf false => js "Infinity"
  | IInf true => js "-Infinity"
  | IInt z =>
    if (z <? 0)%Z
    then 45%N :: hex_digits (S (Z.to_nat (Z.log2 (- z)))) (- z) []
    else hex_digits (S (Z.to_nat (Z.log2 z))) z []
  end.

(** [String(n)] for a loop counter. *)
Definition decimal (n : nat) : jsstring :=
  js (NilZero.string_of_uint (Nat.to_uint n)).

(** [String(n)] for a timestamp. *)
Definition decimal_N (n : N) : jsstring :=
  js (NilZero.string_of_uint (N.to_uint n)).

(** *** Doubles *)

(** An integer as a double (exact below 2^53). *)
Definition float_of_Z (z : Z) : float :=
  if (z <? 0)%Z then PrimFloat.opp (PrimFloat.of_uint63 (Uint63.of_Z (- z)))
  else PrimFloat.of_uint63 (Uint63.of_Z z).

Definition float_of_nat (n : nat) : float := float_of_Z (Z.of_nat n).

Definition float_of_intnum (n : intnum) : float :=
  match n with
  | INaN => PrimFloat.nan
  | IInf false => PrimFloat.infinity
  | IInf true => PrimFloat.neg_infinity
  | IInt z => float_of_Z z
  end.

(** [Math.floor]: the result is integral or not finite. *)
Definition Math_floor (x : float) : intnum :=
  match Prim2SF x with
  | S754_nan => INaN
  | S754_infinity s => IInf s
  | S754_zero _ => IInt 0
  | S754_finite s m e =>
    IInt (Z.shiftl (if s then Z.neg m else Z.pos m) e)
  end.

(** [Math.max(a, b)]: NaN when an argument is, and [+0] above [-0]. *)
Definition Math_max (a b : float) : float :=
  if PrimFloat.is_nan a || PrimFloat.is_nan b then PrimFloat.nan
  else if PrimFloat.ltb a b then b
  else if PrimFloat.ltb b a then a
  else match PrimFloat.classify a with NZero => b | _ => a end.

(** [n <= x] for a string length [n] and an integral number [x]. *)
Definition len_le (n : nat) (x : intnum) : bool :=
  match x with
  | INaN => false
  | IInf negative => negb negative
  | IInt z => (Z.of_nat n <=? z)%Z
  end.

(** *** Exceptions *)

Inductive exn :=
| TypeError                 (* a property read or call on a wrong value *)
| SyntaxError               (* JSON.parse on text that is not JSON *)
| ApiRejected               (* the completion request rejects *)
| NoContent                 (* 'AI did not return content in the response.' *)
| InvalidJson               (* 'Invalid JSON response format received from AI.' *)
| NoTextVariations          (* 'Could not generate text variations. ...' *)
| MkdirFailed (code : option jsstring)
| RasterFailed              (* the SVG-to-PNG conversion rejects *)
| Unmodelled.               (* a property of a built-in the model does not follow *)

Inductive result (A : Type) :=
| Ok (a : A)
| Throw (e : exn).

Arguments Ok {A} a.
Arguments Throw {A} e.

Definition bind {A B} (r : result A) (k : A -> result B) : result B :=
  match r with Ok a => k a | Throw e => Throw e end.

(** [try { r } catch { h }]. *)
Definition try_catch {A} (r : result A) (h : exn -> result A) : result A :=
  match r with Ok a => Ok a | Throw e => h e end.

Fixpoint mapM {A B} (f : A -> result B) (l : list A) : result (list B) :=
  match l with
  | [] => Ok []
  | a :: r =>
    bind (f a) (fun b => bind (mapM f r) (fun bs => Ok (b :: bs)))
  end.

(** *** Parsed JSON *)

Inductive value :=
| VNull
| VBool (b : bool)
| VNum (x : float)
| VStr (s : jsstring)
| VArr (items : list value)
| VObj (fields : list (jsstring * value)).

(** [v[k]] on the own properties of a parsed object. *)
Fixpoint get_field (k : jsstring) (fields : list (jsstring * value))
  : option value :=
  match fields with
  | [] => None
  | (k', v) :: r => if jseqb k k' then Some v else get_field k r
  end.

(** [k in v]. *)
Definition has_key (k : jsstring) (v : value) : bool :=
  match v with
  | VObj fields => match get_field k fields with Some _ => true | None => false end
  | _ => false
  end.

(** [v.k] where a string is required: a method call on anything else
    throws. *)
Definition string_prop (k : jsstring) (v : value) : result jsstring :=
  match v with
  | VObj fields =>
    match get_field k fields with
    | Some (VStr s) => Ok s
    | _ => Throw TypeError
    end
  | _ => Throw TypeError
  end.

(** *** Object literals used as lookup tables

    [table[key]] finds the own properties of the literal and, failing
    that, the members every object inherits from [Object.prototype]. *)
Definition object_prototype_keys : list jsstring :=
  map js ["constructor"; "toString"; "toLocaleString"; "valueOf";
          "hasOwnProperty"; "isPrototypeOf"; "propertyIsEnumerable";
          "__proto__"; "__defineGetter__"; "__defineSetter__";
          "__lookupGetter__"; "__lookupSetter__"]%string.

Inductive lookup (A : Type) :=
| Own (a : A)
| Inherited
| Undefined.

Arguments Own {A} a.
Arguments Inherited {A}.
Arguments Undefined {A}.

Fixpoint own_get {A} (table : list (jsstring * A)) (k : jsstring) : option A :=
  match table with
  | [] => None
  | (k', a) :: r => if jseqb k k' then Some a else own_get r k
  end.

Definition index {A} (table : list (jsstring * A)) (k : jsstring) : lookup A :=
  match own_get table k with
  | Some a => Own a
  | None => if existsb (jseqb k) object_prototype_keys then Inherited
            else Undefined
  end.

End JS.

Import JS.

Notation "x <- r ;; k" := (bind r (fun x => k))
  (at level 61, r at next level, right associativity).

(* ================================================================== *)
(** ** types.ts *)
(* ================================================================== *)

Module Size.

Record t := mk { width : float; height : float }.

End Size.

Record Sizes := {
  facebook : Size.t;
  instagram : Size.t;
  story : Size.t
}.

Record PromoConfig := {
  product : jsstring;
  businessType : jsstring;
  offer : jsstring;
  validity : jsstring;
  location : jsstring;
  phone : jsstring;
  schedule : jsstring;
  colors : list jsstring;
  sizes : Sizes
}.

Record TextVariation := {
  title : jsstring;
  subtitle : jsstring;
  callToAction : jsstring;
  description : jsstring;
  tone : jsstring
}.

Inductive Format := Facebook | Instagram | Story.

(** At run time a text variation is an object: the literal the fallback
    bank builds, or whatever object the parsed reply holds. *)
Record GeneratedFlyer := {
  filename : jsstring;
  textVariation : value;
  color : jsstring;
  format : Format
}.

Record CanvasConfig := {
  width : float;
  height : float;
  backgroundColor : jsstring;
  textColor : jsstring;
  accentColor : jsstring
}.

Definition format_name (f : Format) : jsstring :=
  match f with
  | Facebook => js "facebook"
  | Instagram => js "instagram"
  | Story => js "story"
  end.

(** [config.sizes[format]]. *)
Definition size_of (s : Sizes) (f : Format) : Size.t :=
  match f with
  | Facebook => facebook s
  | Instagram => instagram s
  | Story => story s
  end.

(** The object literal [{ title, subtitle, callToAction, description, tone }]. *)
Definition object_of (t : TextVariation) : value :=
  VObj [(js "title", VStr (title t));
        (js "subtitle", VStr (subtitle t));
        (js "callToAction", VStr (callToAction t));
        (js "description", VStr (description t));
        (js "tone", VStr (tone t))].

(* ================================================================== *)
(** ** ImageGenerator *)
(* ================================================================== *)

Module ImageGenerator.

Local Open Scope float_scope.

Record TextRun := {
  run_x : float;
  run_y : float;
  run_size : float;
  run_fill : jsstring;
  run_text : jsstring
}.

Record Rect := {
  rect_x : float;
  rect_y : float;
  rect_width : float;
  rect_height : float
}.

(** The vector description [createSVG] writes out, element by element. *)
Record Svg := {
  svg_width : float;
  svg_height : float;
  stop_0 : jsstring;
  stop_100 : jsstring;
  circle : float * float * float;
  ornament : Rect;
  ornament_fill : jsstring;
  title_run : TextRun;
  subtitle_run : TextRun;
  description_runs : list TextRun;
  cta_rect : Rect;
  cta_run : TextRun;
  line : (float * float) * (float * float)
}.

Definition escapeXML (text : jsstring) : jsstring :=
  replace_all 39%N (js "&#39;")
    (replace_all 34%N (js "&quot;")
      (replace_all 62%N (js "&gt;")
        (replace_all 60%N (js "&lt;")
          (replace_all 38%N (js "&amp;") text)))).

Definition darkenColor (color : jsstring) (factor : float) : jsstring :=
  let hex := replace_first 35%N [] color in
  let r := parseInt16 (substring 0%nat 2%nat hex) in
  let g := parseInt16 (substring 2%nat 4%nat hex) in
  let b := parseInt16 (substring 4%nat 6%nat hex) in
  let newR := Math_floor (float_of_intnum r * (1 - factor)) in
  let newG := Math_floor (float_of_intnum g * (1 - factor)) in
  let newB := Math_floor (float_of_intnum b * (1 - factor)) in
  35%N :: padStart0 2%nat (toString16 newR)
       ++ padStart0 2%nat (toString16 newG)
       ++ padStart0 2%nat (toString16 newB).

Definition luminance (r g b : intnum) : float :=
  (0.299 * float_of_intnum r + 0.587 * float_of_intnum g
   + 0.114 * float_of_intnum b) / 255.

Definition getContrastColor (backgroundColor : jsstring) : jsstring :=
  let hex := replace_first 35%N [] backgroundColor in
  let r := parseInt16 (substring 0%nat 2%nat hex) in
  let g := parseInt16 (substring 2%nat 4%nat hex) in
  let b := parseInt16 (substring 4%nat 6%nat hex) in
  if 0.5 <? luminance r g b then js "#000000" else js "#FFFFFF".

(** One turn of the loop over the words: the state is the array [lines]
    and the string [currentLine]. *)
Definition wrap_step (charsPerLine : intnum)
  (st : list jsstring * jsstring) (word : jsstring)
  : list jsstring * jsstring :=
  let '(lines, currentLine) := st in
  if len_le (length (currentLine ++ word)) charsPerLine
  then (lines,
        currentLine ++ (if truthy currentLine then js " " else []) ++ word)
  else ((if truthy currentLine then lines ++ [currentLine] else lines),
        word).

Definition wrap_lines (charsPerLine : intnum) (words : list jsstring)
  : list jsstring :=
  let '(lines, currentLine) := fold_left (wrap_step charsPerLine) words ([], []) in
  if truthy currentLine then lines ++ [currentLine] else lines.

Definition charsPerLine (fontSize maxWidth : float) : intnum :=
  Math_floor (maxWidth / (fontSize * 0.6)).

Fixpoint mapi_from {A B} (k : nat) (f : A -> nat -> B) (l : list A) : list B :=
  match l with
  | [] => []
  | a :: r => f a k :: mapi_from (S k) f r
  end.

Definition createMultilineText (text : jsstring) (x y fontSize : float)
  (color : jsstring) (maxWidth : float) : list TextRun :=
  let words := split 32%N text in
  let lines := wrap_lines (charsPerLine fontSize maxWidth) words in
  mapi_from 0%nat
    (fun line index =>
       let lineY := y + float_of_nat index * fontSize * 1.2 in
       {| run_x := x; run_y := lineY; run_size := fontSize;
          run_fill := color; run_text := escapeXML line |})
    lines.

(** The constants [createSVG] computes before it writes anything. *)
Record Layout := {
  titleSize : float;
  subtitleSize : float;
  descriptionSize : float;
  ctaSize : float;
  centerX : float;
  titleY : float;
  subtitleY : float;
  descriptionY : float;
  ctaY : float
}.

Definition layout (config : CanvasConfig) : Layout :=
  let titleSize := Math_max 24 (width config * 0.05) in
  let subtitleSize := Math_max 18 (width config * 0.035) in
  let descriptionSize := Math_max 14 (width config * 0.025) in
  let ctaSize := Math_max 16 (width config * 0.03) in
  let centerX := width config / 2 in
  let titleY := height config * 0.25 in
  let subtitleY := titleY + titleSize + 20 in
  let descriptionY := height config * 0.55 in
  let ctaY := height config * 0.8 in
  {| titleSize := titleSize; subtitleSize := subtitleSize;
     descriptionSize := descriptionSize; ctaSize := ctaSize;
     centerX := centerX; titleY := titleY; subtitleY := subtitleY;
     descriptionY := descriptionY; ctaY := ctaY |}.

(** [createSVG].  The text fields are read off the variation object; a
    field that is not a string makes [escapeXML] (or [split]) throw. *)
Definition createSVG (text : value) (config : CanvasConfig) : result Svg :=
  let L := layout config in
  t <- string_prop (js "title") text ;;
  s <- string_prop (js "subtitle") text ;;
  d <- string_prop (js "description") text ;;
  c <- string_prop (js "callToAction") text ;;
  Ok {| svg_width := width config;
        svg_height := height config;
        stop_0 := backgroundColor config;
        stop_100 := darkenColor (backgroundColor config) 0.2;
        circle := (width config * 0.85, height config * 0.15,
                   width config * 0.08);
        ornament := {| rect_x := width config * 0.05;
                       rect_y := height config * 0.85;
                       rect_width := width config * 0.15;
                       rect_height := height config * 0.1 |};
        ornament_fill := accentColor config;
        title_run := {| run_x := centerX L; run_y := titleY L;
                        run_size := titleSize L;
                        run_fill := textColor config;
                        run_text := escapeXML t |};
        subtitle_run := {| run_x := centerX L; run_y := subtitleY L;
                           run_size := subtitleSize L;
                           run_fill := textColor config;
                           run_text := escapeXML s |};
        description_runs :=
          createMultilineText d (centerX L) (descriptionY L)
            (descriptionSize L) (textColor config) (width config * 0.8);
        cta_rect := {| rect_x := centerX L
                                 - float_of_nat (length c) * ctaSize L * 0.3;
                       rect_y := ctaY L - ctaSize L;
                       rect_width := float_of_nat (length c) * ctaSize L * 0.6;
                       rect_height := ctaSize L * 1.8 |};
        cta_run := {| run_x := centerX L; run_y := ctaY L;
                      run_size := ctaSize L;
                      run_fill := js "white";
                      run_text := escapeXML c |};
        line := ((width config * 0.2, height config * 0.65),
                 (width config * 0.8, height config * 0.65)) |}.

(** [generateFlyer]: compose the SVG, then hand it to the rasteriser.
    [raster] tells whether that conversion resolves; whatever is thrown is
    logged and thrown again. *)
Definition generateFlyer (raster : bool) (textVariation : value)
  (canvasConfig : CanvasConfig) : result unit :=
  try_catch
    (svg <- createSVG textVariation canvasConfig ;;
     if raster then Ok tt else Throw RasterFailed)
    (fun error => Throw error).

End ImageGenerator.

(* ================================================================== *)
(** ** TextGenerator *)
(* ================================================================== *)

Module TextGenerator.

(** What the completion request comes back with.  The reply text only
    flows into a truthiness test and into [JSON.parse], so a reply is the
    text together with what [JSON.parse] makes of it ([None]: it throws). *)
Record Response := {
  raw : jsstring;
  parsed : option value
}.

Inductive Completion :=
| Rejected                              (* network, auth, quota, ... *)
| Resolved (content : option Response). (* choices[0]?.message?.content *)

(** [typeof v === 'object' && v !== null]. *)
Definition is_object (v : value) : bool :=
  match v with
  | VObj _ | VArr _ => true
  | _ => false
  end.

(** The predicate handed to [filter] in [parseResponse]. *)
Definition has_required_fields (v : value) : bool :=
  is_object v
  && has_key (js "title") v
  && has_key (js "subtitle") v
  && has_key (js "callToAction") v
  && has_key (js "description") v
  && has_key (js "tone") v.

(** [parseResponse]: anything thrown inside (by [JSON.parse], or by the
    call of [filter] on a value that is not an array) is replaced by the
    'Invalid JSON response format' error. *)
Definition parseResponse (response : Response) : result (list value) :=
  try_catch
    (variations <- match parsed response with
                   | Some v => Ok v
                   | None => Throw SyntaxError
                   end ;;
     match variations with
     | VArr items => Ok (filter has_required_fields items)
     | _ => Throw TypeError
     end)
    (fun _ => Throw InvalidJson).

Definition baseTones : list jsstring :=
  map js ["urgent"; "elegant"; "casual"; "fun"; "exclusive"; "friendly";
          "informative"; "inspiring"]%string.

(** *** The tone-indexed template tables *)

Definition table := list (jsstring * jsstring).

(** [tables[language]] followed by the default: either one of the template
    tables or, for a key every object inherits, a built-in member. *)
Inductive lang_table :=
| Table (t : table)
| Builtin.

Definition select_language (tables : list (jsstring * table))
  (english : table) (language : jsstring) : lang_table :=
  match index tables language with
  | Own t => Table t
  | Inherited => Builtin
  | Undefined => Table english
  end.

(** [langTable?.[tone]]: [Some] text, or [None] for [undefined].  On a
    template table an inherited key yields a function, on which the later
    [substring] call throws.  The built-in members have no property named
    after a tone of [baseTones] or after the empty string; other keys on
    them are not followed. *)
Definition tone_entry (T : lang_table) (tone : jsstring)
  : result (option jsstring) :=
  match T with
  | Table t =>
    match index t tone with
    | Own s => Ok (Some s)
    | Undefined => Ok None
    | Inherited => Throw TypeError
    end
  | Builtin =>
    if existsb (jseqb tone) ([] :: baseTones) then Ok None
    else Throw Unmodelled
  end.

(** [e ?? d] and [e || d] on such an entry. *)
Definition nullish (e : option jsstring) (d : jsstring) : jsstring :=
  match e with Some s => s | None => d end.

Definition falsy_or (e : option jsstring) (d : jsstring) : jsstring :=
  match e with Some s => or_else s d | None => d end.

Definition generateFallbackTitle (config : PromoConfig)
  (tone language : jsstring) : result jsstring :=
  let english : table :=
    [(js "urgent", js "Last Chance: " ++ offer config ++ js "!");
     (js "elegant", js "Exclusive " ++ product config ++ js " for you");
     (js "casual", js "Don't miss this " ++ product config ++ js " deal!");
     (js "fun", js "Party Time for " ++ product config ++ js "!");
     (js "exclusive", js "VIP Access to " ++ product config);
     (js "friendly", js "Enjoy with family: " ++ product config);
     (js "informative", js "Learn about " ++ product config ++ js ": The Guide");
     (js "inspiring", js "Transform your day with " ++ product config)] in
  let spanish : table :=
    [(js "urgent", js "¡Última Oportunidad: " ++ offer config ++ js "!");
     (js "elegant", product config ++ js " Exclusivo para ti");
     (js "casual", js "¡No te pierdas esta oferta de " ++ product config ++ js "!");
     (js "fun", js "¡Hora de " ++ product config ++ js "!");
     (js "exclusive", js "Acceso VIP a " ++ product config);
     (js "friendly", js "Disfruta en familia: " ++ product config);
     (js "informative", js "Conoce " ++ product config ++ js ": La Guía");
     (js "inspiring", js "Transforma tu día con " ++ product config)] in
  let titles := [(js "English", english); (js "Spanish", spanish)] in
  let langTitles := select_language titles english language in
  e <- tone_entry langTitles tone ;;
  Ok (substring 0 50
        (nullish e (js "Discover " ++ product config ++ js " Now!"))).

Definition generateFallbackSubtitle (config : PromoConfig)
  (tone language : jsstring) : result jsstring :=
  let english : table :=
    [(js "urgent", validity config ++ js ". Act fast!");
     (js "elegant", js "Superior quality and unmatched design await you.");
     (js "casual", js "Relax and enjoy " ++ product config ++ js ".");
     (js "fun", js "Fun is guaranteed with " ++ product config ++ js ".");
     (js "exclusive", js "Unique benefits designed for select customers.");
     (js "friendly", js "Create unforgettable memories with your loved ones.");
     (js "informative", js "Everything you need to know before your purchase.");
     (js "inspiring",
      js "Achieve your goals with the support of " ++ product config ++ js ".")] in
  let spanish : table :=
    [(js "urgent", validity config ++ js ". ¡Actúa rápido!");
     (js "elegant", js "Calidad superior y diseño inigualable te esperan.");
     (js "casual", js "Relájate y disfruta de " ++ product config ++ js ".");
     (js "fun",
      js "La diversión está garantizada con " ++ product config ++ js ".");
     (js "exclusive", js "Beneficios únicos diseñados para clientes selectos.");
     (js "friendly", js "Crea recuerdos inolvidables con los tuyos.");
     (js "informative", js "Todo lo que necesitas saber antes de tu compra.");
     (js "inspiring",
      js "Alcanza tus metas con el apoyo de " ++ product config ++ js ".")] in
  let subtitles := [(js "English", english); (js "Spanish", spanish)] in
  let langSubtitles := select_language subtitles english language in
  e <- tone_entry langSubtitles tone ;;
  Ok (substring 0 80
        (falsy_or e
           (js "Take advantage of our offer on " ++ product config ++ js "."))).

Definition generateFallbackCTA (tone language : jsstring) : result jsstring :=
  let english : table :=
    [(js "urgent", js "Book Now!");
     (js "elegant", js "Request Info");
     (js "casual", js "Try It Now!");
     (js "fun", js "Join the Party!");
     (js "exclusive", js "Access Here!");
     (js "friendly", js "Come With Us!");
     (js "informative", js "Read More");
     (js "inspiring", js "Start Today!")] in
  let spanish : table :=
    [(js "urgent", js "¡Reserva Ya!");
     (js "elegant", js "Solicita Info");
     (js "casual", js "¡Pruébalo!");
     (js "fun", js "¡Únete!");
     (js "exclusive", js "¡Accede Aquí!");
     (js "friendly", js "¡Ven con Nosotros!");
     (js "informative", js "Leer Más");
     (js "inspiring", js "¡Empieza Hoy!")] in
  let ctas := [(js "English", english); (js "Spanish", spanish)] in
  let langCtas := select_language ctas english language in
  e <- tone_entry langCtas tone ;;
  Ok (substring 0 30 (falsy_or e (js "More Info!"))).

Definition generateFallbackDescription (config : PromoConfig)
  (tone : jsstring) (index : nat) (language : jsstring) : result jsstring :=
  let english : table :=
    [(js "urgent",
      js "Don't miss this special offer on " ++ product config
      ++ js ". Valid only until " ++ validity config ++ js ". Visit us at "
      ++ or_else (location config) (js "our store") ++ js "!");
     (js "elegant",
      js "Immerse yourself in the premium experience of " ++ product config
      ++ js ". Design and functionality come together for you.");
     (js "casual",
      js "Looking for something different? Our " ++ product config
      ++ js " is perfect for your daily life.");
     (js "fun",
      js "Get ready for fun with " ++ product config
      ++ js ". Ideal for any occasion!");
     (js "exclusive",
      js "A unique opportunity to access the best of " ++ product config
      ++ js ". By invitation only!");
     (js "friendly",
      js "Unforgettable moments await you with " ++ product config
      ++ js ". Ideal for sharing with family.");
     (js "informative",
      js "Discover the key features and benefits of " ++ product config
      ++ js ".");
     (js "inspiring",
      js "Take the next step towards your dreams with " ++ product config
      ++ js ".")] in
  let spanish : table :=
    [(js "urgent",
      js "No dejes pasar esta oferta especial en " ++ product config
      ++ js ". Válida solo hasta " ++ validity config ++ js ". ¡Visítanos en "
      ++ or_else (location config) (js "nuestra tienda") ++ js "!");
     (js "elegant",
      js "Sumérgete en la experiencia premium de " ++ product config
      ++ js ". Diseño y funcionalidad se unen para ti.");
     (js "casual",
      js "¿Buscas algo diferente? Nuestro " ++ product config
      ++ js " es perfecto para tu día a día.");
     (js "fun",
      js "Prepárate para la diversión con " ++ product config
      ++ js ". ¡Ideal para cualquier ocasión!");
     (js "exclusive",
      js "Una oportunidad única para acceder a lo mejor de " ++ product config
      ++ js ". ¡Solo por invitación!");
     (js "friendly",
      js "Momentos inolvidables te esperan con " ++ product config
      ++ js ". Ideal para compartir en familia.");
     (js "informative",
      js "Descubre las características clave y beneficios de "
      ++ product config ++ js ".");
     (js "inspiring",
      js "Da el siguiente paso hacia tus sueños con " ++ product config
      ++ js ".")] in
  let descriptions := [(js "English", english); (js "Spanish", spanish)] in
  let langDescriptions := select_language descriptions english language in
  e <- tone_entry langDescriptions tone ;;
  let baseDescription :=
    falsy_or e
      (js "Take advantage of our incredible " ++ offer config ++ js " on "
       ++ product config ++ js ". " ++ validity config ++ js ". Visit us at "
       ++ location config ++ js ".") in
  Ok (substring 0 200 baseDescription).

Record FallbackTexts := {
  ft_title : jsstring;
  ft_subtitle : jsstring;
  ft_callToAction : jsstring;
  ft_description : jsstring
}.

(** [getFallbackTexts]: [None] stands for a built-in member, returned as it
    is because it is truthy. *)
Definition getFallbackTexts (language : jsstring) : option FallbackTexts :=
  let english :=
    {| ft_title := js "Special Offer for {product}!";
       ft_subtitle := js "Discover more about our {product} today.";
       ft_callToAction := js "Learn More!";
       ft_description :=
         js "Take advantage of the opportunity to discover {product} with our special offer." |} in
  let spanish :=
    {| ft_title := js "¡Oferta Especial de {product}!";
       ft_subtitle := js "Descubre más sobre nuestro {product} hoy.";
       ft_callToAction := js "¡Infórmate!";
       ft_description :=
         js "Aprovecha la oportunidad de conocer {product} con nuestra oferta especial." |} in
  match index [(js "English", english); (js "Spanish", spanish)] language with
  | Own t => Some t
  | Inherited => None
  | Undefined => Some english
  end.

(** One turn of the loop of [generateFallbackVariations]. *)
Definition fallback_slot (config : PromoConfig) (language : jsstring)
  (i : nat) : result TextVariation :=
  let tone := nth_error baseTones (i mod length baseTones) in
  let tone_or_empty := match tone with Some t => or_else t [] | None => [] end in
  t <- generateFallbackTitle config tone_or_empty language ;;
  s <- generateFallbackSubtitle config tone_or_empty language ;;
  c <- generateFallbackCTA tone_or_empty language ;;
  d <- generateFallbackDescription config tone_or_empty i language ;;
  Ok {| title := t; subtitle := s; callToAction := c; description := d;
        tone := tone_or_empty |}.

(** [generateFallbackVariations], for an integer [quantity]: the loop
    [for (let i = 0; i < quantity; i++)] makes [quantity] turns, none when
    [quantity <= 0]. *)
Definition generateFallbackVariations (config : PromoConfig) (quantity : Z)
  (language : jsstring) : result (list TextVariation) :=
  fallbackVariations <-
    mapM (fallback_slot config language) (seq 0 (Z.to_nat quantity)) ;;
  if (length fallbackVariations =? 0)%nat && (0 <? quantity)%Z
  then
    match getFallbackTexts language with
    | None => Throw TypeError
    | Some fallbackTexts =>
      Ok [ {| title := replace_first_str (js "{product}") (product config)
                         (ft_title fallbackTexts);
              subtitle := replace_first_str (js "{product}") (product config)
                            (ft_subtitle fallbackTexts);
              callToAction := ft_callToAction fallbackTexts;
              description := replace_first_str (js "{product}") (product config)
                               (ft_description fallbackTexts);
              tone := js "general" |} ]
    end
  else Ok fallbackVariations.

(** [generateVariations].  The prompt is plain string interpolation and
    cannot throw; the request and everything after it sit in the [try]. *)
Definition generateVariations (config : PromoConfig) (quantity : Z)
  (language : jsstring) (completion : Completion) : result (list value) :=
  try_catch
    (responseContent <- match completion with
                        | Rejected => Throw ApiRejected
                        | Resolved content => Ok content
                        end ;;
     match responseContent with
     | None => Throw NoContent
     | Some response =>
       if truthy (raw response) then parseResponse response
       else Throw NoContent
     end)
    (fun error =>
       fallback <- generateFallbackVariations config quantity language ;;
       Ok (map object_of fallback)).

End TextGenerator.

(* ================================================================== *)
(** ** FlyerGenerator *)
(* ================================================================== *)

Module FlyerGenerator.

(** [getAccentColor] works on integers throughout. *)
Definition strict_eq (a b : intnum) : bool :=
  match a, b with
  | IInt x, IInt y => (x =? y)%Z
  | IInf s, IInf s' => Bool.eqb s s'
  | _, _ => false
  end.

(** [Math.min(255, Math.max(0, (255 - c + 100) % 256))]; [%] is the
    remainder that takes the sign of the dividend. *)
Definition accent_channel (c : intnum) : intnum :=
  match c with
  | IInt v =>
    let new := Z.rem (255 - v + 100) 256 in
    IInt (Z.min 255 (Z.max 0 new))
  | _ => INaN
  end.

Definition getAccentColor (baseColor : jsstring) : jsstring :=
  if negb (truthy baseColor) || negb (startsWith 35 baseColor)
     || negb (length baseColor =? 7)%nat
  then js "#FFD700"
  else
    let hex := replace_first 35 [] baseColor in
    let r := parseInt16 (substring 0 2 hex) in
    let g := parseInt16 (substring 2 4 hex) in
    let b := parseInt16 (substring 4 6 hex) in
    if strict_eq r g && strict_eq g b then js "#00BFFF"
    else
      let accentR := accent_channel r in
      let accentG := accent_channel g in
      let accentB := accent_channel b in
      35%N :: padStart0 2 (toString16 accentR)
           ++ padStart0 2 (toString16 accentG)
           ++ padStart0 2 (toString16 accentB).

(** *** The world a batch runs in *)

Inductive MkdirOutcome :=
| MkdirOk
| MkdirError (code : option jsstring).

Record World := {
  mkdir : MkdirOutcome;
  completion : TextGenerator.Completion;
  (** whether the rasterisation issued for cell [i] in [format] resolves *)
  raster : nat -> Format -> bool
}.

Definition ensureOutputDirectory (W : World) : result unit :=
  match mkdir W with
  | MkdirOk => Ok tt
  | MkdirError code =>
    match code with
    | Some c => if jseqb c (js "EEXIST") then Ok tt
                else Throw (MkdirFailed code)
    | None => Throw (MkdirFailed code)
    end
  end.

Section Batch.

(** [Number.prototype.toString] on an arbitrary double, needed only where
    a reply has a number for its tone. *)
Variable number_to_string : float -> jsstring.

(** The string a template literal writes for [v].  An object is asked for
    its [toString]: a parsed object with an own key of that name has a
    value there that cannot be called, and no primitive comes out of
    [valueOf] either, so the conversion throws; without such a key the
    inherited method answers.  An array joins the strings of its elements
    with commas, [null] counting for the empty string. *)
Fixpoint to_string (v : value) : result jsstring :=
  match v with
  | VNull => Ok (js "null")
  | VBool true => Ok (js "true")
  | VBool false => Ok (js "false")
  | VNum x => Ok (number_to_string x)
  | VStr s => Ok s
  | VArr items =>
    (fix join (l : list value) : result jsstring :=
       match l with
       | [] => Ok []
       | x :: r =>
         head <- match x with VNull => Ok [] | _ => to_string x end ;;
         tail <- match r with
                 | [] => Ok []
                 | _ :: _ => rest <- join r ;; Ok (js "," ++ rest)
                 end ;;
         Ok (head ++ tail)
       end) items
  | VObj fields =>
    match get_field (js "toString") fields with
    | Some _ => Throw TypeError
    | None => Ok (js "[object Object]")
    end
  end.

Definition value_truthy (v : value) : bool :=
  match v with
  | VNull => false
  | VBool b => b
  | VNum x => negb (PrimFloat.is_nan x || PrimFloat.is_zero x)
  | VStr s => truthy s
  | VArr _ | VObj _ => true
  end.

(** [textVariation?.tone || 'generic'], inside a template literal. *)
Definition tone_label (textVariation : option value) : result jsstring :=
  let tone :=
    match textVariation with
    | Some (VObj fields) => get_field (js "tone") fields
    | _ => None
    end in
  match tone with
  | Some t => if value_truthy t then to_string t else Ok (js "generic")
  | None => Ok (js "generic")
  end.

(** [list[i % list.length]]: [undefined] on an empty list. *)
Definition cycle {A} (l : list A) (i : nat) : option A :=
  match length l with
  | O => None
  | S _ => nth_error l (i mod length l)
  end.

(** What one cell is made of: everything the loop body computes before it
    enters the [try].  The file name is written there, so a tone without
    a string form throws out of the loop. *)
Record Cell := {
  cell_variation : option value;
  cell_color : jsstring;
  cell_format : Format;
  cell_canvas : CanvasConfig;
  cell_filename : jsstring
}.

Definition plan (config : PromoConfig) (textVariations : list value)
  (i : nat) (format : Format) : result Cell :=
  let textVariation := cycle textVariations i in
  let color :=
    or_else (match cycle (colors config) i with Some c => c | None => [] end)
            (js "#3498DB") in
  let dimensions := size_of (sizes config) format in
  let canvasConfig :=
    {| width := Size.width dimensions;
       height := Size.height dimensions;
       backgroundColor := color;
       textColor := ImageGenerator.getContrastColor color;
       accentColor := getAccentColor color |} in
  tone <- tone_label textVariation ;;
  let filename :=
    js "flyer_" ++ decimal (i + 1) ++ js "_" ++ tone
    ++ js "_" ++ format_name format ++ js ".png" in
  Ok {| cell_variation := textVariation; cell_color := color;
        cell_format := format; cell_canvas := canvasConfig;
        cell_filename := filename |}.

(** The [try] of the loop body: [if (textVariation)], render, push the
    record; anything thrown is logged and the loop goes on. *)
Definition attempt (W : World) (i : nat) (c : Cell)
  (flyers : list GeneratedFlyer) : list GeneratedFlyer :=
  match cell_variation c with
  | Some textVariation =>
    if value_truthy textVariation then
      match
        ImageGenerator.generateFlyer (raster W i (cell_format c))
          textVariation (cell_canvas c)
      with
      | Ok _ =>
        flyers ++ [ {| filename := cell_filename c;
                       textVariation := textVariation;
                       color := cell_color c;
                       format := cell_format c |} ]
      | Throw _ => flyers
      end
    else flyers
  | None => flyers
  end.

Definition generateVariations (W : World) (config : PromoConfig)
  (quantity : Z) : result (list GeneratedFlyer) :=
  _ <- ensureOutputDirectory W ;;
  textVariations <-
    TextGenerator.generateVariations config quantity (js "English")
      (completion W) ;;
  if (length textVariations =? 0)%nat then Throw NoTextVariations
  else
    fold_left
      (fun (so_far : result (list GeneratedFlyer)) i =>
         flyers <- so_far ;;
         let format := Facebook in
         cell <- plan config textVariations i format ;;
         Ok (attempt W i cell flyers))
      (seq 0 (Z.to_nat quantity)) (Ok []).

Definition generateForAllFormats (W : World) (config : PromoConfig)
  (quantity : Z) : result (list GeneratedFlyer) :=
  _ <- ensureOutputDirectory W ;;
  textVariations <-
    TextGenerator.generateVariations config quantity (js "English")
      (completion W) ;;
  if (length textVariations =? 0)%nat then Throw NoTextVariations
  else
    let formats := [Facebook; Instagram; Story] in
    fold_left
      (fun (so_far : result (list GeneratedFlyer)) i =>
         fold_left
           (fun (so_far : result (list GeneratedFlyer)) format =>
              flyers <- so_far ;;
              cell <- plan config textVariations i format ;;
              Ok (attempt W i cell flyers))
           formats so_far)
      (seq 0 (Z.to_nat quantity)) (Ok []).

Definition quickConfig (product offer : jsstring) (colors : list jsstring)
  : PromoConfig :=
  {| product := product;
     businessType := js "local business";
     offer := offer;
     validity := js "Limited time offer";
     location := js "Visit our store!";
     phone := js "Call us at (555) 123-4567";
     schedule := js "Open Monday to Saturday";
     colors := colors;
     sizes := {| facebook := Size.mk 1200 630;
                 instagram := Size.mk 1080 1080;
                 story := Size.mk 1080 1920 |} |}.

Definition generateCustomVariations (W : World) (product offer : jsstring)
  (colors : list jsstring) (quantity : Z) : result (list GeneratedFlyer) :=
  generateVariations W (quickConfig product offer colors) quantity.

(** [textVariation.tone || 'custom'], inside a template literal: reading
    a property of [null] throws, any other value without the property
    gives ['custom']. *)
Definition custom_tone (textVariation : value) : result jsstring :=
  match textVariation with
  | VNull => Throw TypeError
  | VObj fields =>
    match get_field (js "tone") fields with
    | Some t => if value_truthy t then to_string t else Ok (js "custom")
    | None => Ok (js "custom")
    end
  | _ => Ok (js "custom")
  end.

(** [generateSingleFlyer], with [Date.now()] and the outcome of the one
    rasterisation given; here a failed render is thrown again.  The
    defaults of [color] and [format] are left to the caller. *)
Definition generateSingleFlyer (W : World) (timestamp : N) (rasterised : bool)
  (config : PromoConfig) (textVariation : value) (color : jsstring)
  (format : Format) : result GeneratedFlyer :=
  _ <- ensureOutputDirectory W ;;
  let dimensions := size_of (sizes config) format in
  let canvasConfig :=
    {| width := Size.width dimensions;
       height := Size.height dimensions;
       backgroundColor := color;
       textColor := ImageGenerator.getContrastColor color;
       accentColor := getAccentColor color |} in
  tone <- custom_tone textVariation ;;
  let filename :=
    js "flyer_custom_" ++ tone ++ js "_" ++ format_name format ++ js "_"
    ++ decimal_N timestamp ++ js ".png" in
  _ <- try_catch
         (ImageGenerator.generateFlyer rasterised textVariation canvasConfig)
         (fun error => Throw error) ;;
  Ok {| filename := filename;
        textVariation := textVariation;
        color := color;
        format := format |}.

End Batch.

End FlyerGenerator.

(* ================================================================== *)
(** ** Vocabulary of the specification *)
(* ================================================================== *)

Module Spec.

Definition is_hex_digit (c : code_unit) : bool :=
  match hex_val c with Some _ => true | None => false end.

(** A valid colour: [#] followed by six hexadecimal digits. *)
Definition valid_color (s : jsstring) : bool :=
  match s with
  | [h; a; b; c; d; e; f] =>
    (h =? 35)%N && forallb is_hex_digit [a; b; c; d; e; f]
  | _ => false
  end.

Definition digit_value (c : code_unit) : Z :=
  match hex_val c with Some d => d | None => 0 end.

(** The channels a valid colour denotes, read off its digits. *)
Definition rgb (s : jsstring) : Z * Z * Z :=
  match s with
  | [_; a; b; c; d; e; f] =>
    (16 * digit_value a + digit_value b,
     16 * digit_value c + digit_value d,
     16 * digit_value e + digit_value f)%Z
  | _ => (0, 0, 0)%Z
  end.

(** The channels as the program parses them, for any string. *)
Definition channels (s : jsstring) : intnum * intnum * intnum :=
  let hex := replace_first 35 [] s in
  (parseInt16 (substring 0 2 hex),
   parseInt16 (substring 2 4 hex),
   parseInt16 (substring 4 6 hex)).

(** Lower case of an ASCII letter. *)
Definition lower (c : code_unit) : code_unit :=
  if ((65 <=? c) && (c <=? 90))%N then (c + 32)%N else c.

Definition black : jsstring := js "#000000".
Definition white : jsstring := js "#FFFFFF".
Definition gold : jsstring := js "#FFD700".
Definition sky_blue : jsstring := js "#00BFFF".

(** Two lower-case hexadecimal digits of a channel. *)
Definition two_hex (n : intnum) : jsstring := padStart0 2 (toString16 n).

Definition encode (r g b : intnum) : jsstring :=
  35%N :: two_hex r ++ two_hex g ++ two_hex b.

(** Malformed for [Accent]: no leading [#], or a length other than 7. *)
Definition malformed (s : jsstring) : bool :=
  negb (startsWith 35 s) || negb (length s =? 7)%nat.

(** [R = G = B] as numbers: NaN equals nothing. *)
Definition achromatic (r g b : intnum) : bool :=
  match r, g, b with
  | IInt x, IInt y, IInt z => (x =? y)%Z && (y =? z)%Z
  | _, _, _ => false
  end.

(** [(255 - channel + 100) mod 256], clamped to [0, 255]. *)
Definition accent_value (v : Z) : Z :=
  Z.min 255 (Z.max 0 ((255 - v + 100) mod 256)).

Definition accent_of (c : intnum) : intnum :=
  match c with
  | IInt v => IInt (accent_value v)
  | _ => INaN
  end.

(** [Accent]: gold for a malformed string, and for a valid colour sky
    blue on the grey axis and the shifted channels off it.  For a [#]
    followed by six units that are not all hexadecimal digits the
    specification names no result. *)
Definition Accent_spec (s : jsstring) : option jsstring :=
  if malformed s then Some gold
  else if valid_color s then
    let '(r, g, b) := rgb s in
    if ((r =? g) && (g =? b))%Z then Some sky_blue
    else Some (encode (IInt (accent_value r)) (IInt (accent_value g))
                 (IInt (accent_value b)))
  else None.

Section Luminance.

Import QArith.
Local Open Scope Q_scope.

(** [L = (0.299 R + 0.587 G + 0.114 B) / 255], as the rational number the
    formula denotes. *)
Definition L (r g b : Z) : Q :=
  ((299 # 1000) * inject_Z r + (587 # 1000) * inject_Z g
   + (114 # 1000) * inject_Z b) / inject_Z 255.

(** [L > 0.5]. *)
Definition above_half (r g b : Z) : bool :=
  negb (Qle_bool (L r g b) (1 # 2)).

(** [Contrast]: black when [L > 0.5], white otherwise. *)
Definition Contrast_spec (s : jsstring) : jsstring :=
  let '(r, g, b) := rgb s in
  if above_half r g b then black else white.

End Luminance.

End Spec.

(* ================================================================== *)
(** ** Further vocabulary: checks, text variations, cells, samples *)
(* ================================================================== *)

Module Check.

(** The twenty-two hexadecimal digits. *)
Definition hex_units : list code_unit :=
  [48; 49; 50; 51; 52; 53; 54; 55; 56; 57;
   65; 66; 67; 68; 69; 70; 97; 98; 99; 100; 101; 102]%N.

(** Equality test on integral numbers, for exhaustive checks. *)
Definition intnum_eqb (a b : intnum) : bool :=
  match a, b with
  | INaN, INaN => true
  | IInf s, IInf s' => Bool.eqb s s'
  | IInt x, IInt y => (x =? y)%Z
  | _, _ => false
  end.

(** The 256 values of a channel, each with its weighted share of the
    luminance: exactly, in thousandths, and as the program computes it. *)
Definition shares (thousandths : Z) (weight : float) : list (int * float) :=
  map (fun v => (Uint63.of_Z (thousandths * v), (weight * float_of_Z v)%float))
      (map Z.of_nat (seq 0 256)).

Definition red_shares : list (int * float) :=
  Eval vm_compute in shares 299 0.299.

Definition green_shares : list (int * float) :=
  Eval vm_compute in shares 587 0.587.

Definition blue_shares : list (int * float) :=
  Eval vm_compute in shares 114 0.114.

(** The luminance of integer channels as the program computes it:
    binary64, left to right. *)
Definition luminance64 (r g b : Z) : float :=
  ((0.299 * float_of_Z r + 0.587 * float_of_Z g + 0.114 * float_of_Z b)
   / 255)%float.

(** The computed luminance is above 0.5 exactly when the exact one is, or
    the channels are (218, 58, 248). *)
Definition same_side (pr pg pb : int * float) : bool :=
  if Bool.eqb (0.5 <? (snd pr + snd pg + snd pb) / 255)%float
              (127500 <? fst pr + fst pg + fst pb)%uint63
  then true
  else ((fst pr =? 65182) && (fst pg =? 34046) && (fst pb =? 28272))%uint63.

End Check.

Import Check.

Module TextSpec.

(** All five fields of a text variation are populated. *)
Definition populated (t : TextVariation) : Prop :=
  title t <> [] /\ subtitle t <> [] /\ callToAction t <> []
  /\ description t <> [] /\ tone t <> [].

(** The caps of the fallback bank: 50, 80, 30 and 200 code units. *)
Definition within_caps (t : TextVariation) : Prop :=
  (length (title t) <= 50)%nat /\ (length (subtitle t) <= 80)%nat
  /\ (length (callToAction t) <= 30)%nat
  /\ (length (description t) <= 200)%nat.

(** The reply, when the request resolves with a non-empty text that parses
    to an array: the one case in which acquisition does not fall back. *)
Definition parsed_array (completion : TextGenerator.Completion)
  : option (list value) :=
  match completion with
  | TextGenerator.Resolved (Some response) =>
    if truthy (TextGenerator.raw response) then
      match TextGenerator.parsed response with
      | Some (VArr items) => Some items
      | _ => None
      end
    else None
  | _ => None
  end.

End TextSpec.

Module WrapSpec.

(** What the wrap loop guarantees of a line: it is one of the words, or it
    is at most one code unit over the threshold. *)
Definition line_ok (charsPerLine : intnum) (words : list jsstring)
  (l : jsstring) : Prop :=
  In l words \/ len_le (Nat.pred (length l)) charsPerLine = true.

(** A word over the threshold. *)
Definition overlong (charsPerLine : intnum) (w : jsstring) : Prop :=
  len_le (length w) charsPerLine = false /\ w <> [].

End WrapSpec.

Module BatchSpec.

Definition option_list {A} (o : option A) : list A :=
  match o with Some a => [a] | None => [] end.

(** What a cell contributes to the batch: its record when the render of
    that cell succeeds, nothing otherwise. *)
Definition outcome (W : FlyerGenerator.World) (i : nat)
  (c : FlyerGenerator.Cell) : option GeneratedFlyer :=
  match FlyerGenerator.cell_variation c with
  | Some tv =>
    if FlyerGenerator.value_truthy tv then
      match
        ImageGenerator.generateFlyer
          (FlyerGenerator.raster W i (FlyerGenerator.cell_format c)) tv
          (FlyerGenerator.cell_canvas c)
      with
      | Ok _ =>
        Some {| filename := FlyerGenerator.cell_filename c;
                textVariation := tv;
                color := FlyerGenerator.cell_color c;
                format := FlyerGenerator.cell_format c |}
      | Throw _ => None
      end
    else None
  | None => None
  end.

End BatchSpec.

(** *** Sample inputs *)

Module Sample.

Definition pizza : PromoConfig :=
  {| product := js "Pizza";
     businessType := js "restaurant";
     offer := js "50% off";
     validity := js "Sunday";
     location := js "Main St";
     phone := js "555-0100";
     schedule := js "9-5";
     colors := [js "#FF0000"; js "#00FF00"];
     sizes := {| facebook := Size.mk 1200 630;
                 instagram := Size.mk 1080 1080;
                 story := Size.mk 1080 1920 |} |}.

Definition coffee : PromoConfig :=
  {| product := js "Coffee";
     businessType := js "cafe";
     offer := js "2 for 1";
     validity := js "Friday";
     location := js "Main St";
     phone := js "555-0100";
     schedule := js "7-7";
     colors := [js "#FF0000"];
     sizes := {| facebook := Size.mk 1200 630;
                 instagram := Size.mk 1080 1080;
                 story := Size.mk 1080 1920 |} |}.

Definition facebook_canvas : CanvasConfig :=
  {| width := 1200; height := 630;
     backgroundColor := js "#FF0000";
     textColor := js "#FFFFFF";
     accentColor := js "#6464ff" |}.

Definition urgent_text : value :=
  object_of {| title := js "Last Chance: 50% off!";
               subtitle := js "Sunday. Act fast!";
               callToAction := js "Book Now!";
               description := js "Don't miss this special offer on Pizza.";
               tone := js "urgent" |}.

(** The reply [[]]: well-formed JSON, an array, and empty. *)
Definition empty_array_reply : TextGenerator.Completion :=
  TextGenerator.Resolved
    (Some {| TextGenerator.raw := js "[]";
             TextGenerator.parsed := Some (VArr []) |}).

(** A reply that is a JSON object, not an array. *)
Definition object_reply : TextGenerator.Completion :=
  TextGenerator.Resolved
    (Some {| TextGenerator.raw := js "{}";
             TextGenerator.parsed := Some (VObj []) |}).

(** The generative source is unreachable, the directory is there, and the
    rasteriser fails on the second cell only. *)
Definition offline : FlyerGenerator.World :=
  {| FlyerGenerator.mkdir := FlyerGenerator.MkdirOk;
     FlyerGenerator.completion := TextGenerator.Rejected;
     FlyerGenerator.raster := fun i _ => negb (i =? 1)%nat |}.

(** The generative source is unreachable, the directory is there and the
    rasteriser never fails. *)
Definition all_well : FlyerGenerator.World :=
  {| FlyerGenerator.mkdir := FlyerGenerator.MkdirOk;
     FlyerGenerator.completion := TextGenerator.Rejected;
     FlyerGenerator.raster := fun _ _ => true |}.

(** The output directory cannot be created. *)
Definition read_only_disk : FlyerGenerator.World :=
  {| FlyerGenerator.mkdir := FlyerGenerator.MkdirError (Some (js "EACCES"));
     FlyerGenerator.completion := TextGenerator.Rejected;
     FlyerGenerator.raster := fun _ _ => true |}.

(** The directory is there, the rasteriser works, and the reply is the
    empty array. *)
Definition empty_reply_world : FlyerGenerator.World :=
  {| FlyerGenerator.mkdir := FlyerGenerator.MkdirOk;
     FlyerGenerator.completion := empty_array_reply;
     FlyerGenerator.raster := fun _ _ => true |}.

(** A reply of one variation whose tone is an object with a key
    [toString]: it has the five keys, and no string form. *)
Definition stubborn_tone : value :=
  VObj [(js "title", VStr (js "Pizza"));
        (js "subtitle", VStr (js "Today"));
        (js "callToAction", VStr (js "Come"));
        (js "description", VStr (js "Fresh from the oven"));
        (js "tone", VObj [(js "toString", VNum 1)])].

Definition stubborn_world : FlyerGenerator.World :=
  {| FlyerGenerator.mkdir := FlyerGenerator.MkdirOk;
     FlyerGenerator.completion :=
       TextGenerator.Resolved
         (Some {| TextGenerator.raw := js "[...]";
                  TextGenerator.parsed := Some (VArr [stubborn_tone]) |});
     FlyerGenerator.raster := fun _ _ => true |}.

(** A stand-in for [Number.prototype.toString] in the samples, none of
    which has a number for a tone. *)
Definition no_numbers (x : float) : jsstring := js "0".

End Sample.

(* ================================================================== *)
(** ** The command-line callers *)
(* ================================================================== *)

Module Cli.

Fixpoint dec_prefix (acc : option Z) (s : jsstring) : option Z :=
  match s with
  | [] => acc
  | c :: r =>
    if ((48 <=? c) && (c <=? 57))%N then
      dec_prefix
        (Some (match acc with
               | Some a => 10 * a + (Z.of_N c - 48)
               | None => Z.of_N c - 48
               end)%Z) r
    else acc
  end.

Definition has_0x (s : jsstring) : bool :=
  match s with
  | a :: b :: _ => ((a =? 48) && ((b =? 120) || (b =? 88)))%N
  | _ => false
  end.

(** [parseInt(s)] with no radix: decimal, or hexadecimal after [0x]/[0X].
    The value is kept exact; the rounding to a double of a value of 2^53
    or more does not show after the clamp below. *)
Definition parseInt (s : jsstring) : intnum :=
  let '(neg, s2) := strip_sign (skip_space s) in
  let digits :=
    if has_0x s2 then hex_prefix None (strip_0x s2) else dec_prefix None s2 in
  match digits with
  | None => INaN
  | Some v => IInt (if neg then - v else v)
  end.

(** [n || 3]: NaN and 0 are falsy. *)
Definition or_3 (n : intnum) : intnum :=
  match n with
  | INaN => IInt 3
  | IInt z => if (z =? 0)%Z then IInt 3 else n
  | IInf _ => n
  end.

(** [Math.min(Math.max(n, 1), 10)]. *)
Definition clamp_1_10 (n : intnum) : intnum :=
  match n with
  | INaN => INaN
  | IInf negative => IInt (if negative then 1 else 10)
  | IInt z => IInt (Z.min (Z.max z 1) 10)
  end.

(** [Math.min(Math.max(parseInt(options.quantity) || 3, 1), 10)]. *)
Definition quantity_option (quantity : jsstring) : intnum :=
  clamp_1_10 (or_3 (parseInt quantity)).

Inductive Outcome :=
| Completed (flyers : list GeneratedFlyer)
| Exit (code : Z).

Section Run.

Variable number_to_string : float -> jsstring.

(** [generateFlyers] of the command line: the [switch] on the format
    choice, inside a [try] whose handler ends the process with status 1.
    The generator's methods take [(config, quantity)]: the third argument
    the caller passes is not read. *)
Definition generateFlyers (W : FlyerGenerator.World) (config : PromoConfig)
  (formatChoice : jsstring) (quantity : Z) (language : jsstring) : Outcome :=
  let flyers :=
    if jseqb formatChoice (js "All formats (Facebook, Instagram, Stories)")
    then FlyerGenerator.generateForAllFormats number_to_string W config quantity
    else if jseqb formatChoice (js "Instagram only (1080x1080)")
    then FlyerGenerator.generateVariations number_to_string W config quantity
    else if jseqb formatChoice (js "Stories only (1080x1920)")
    then FlyerGenerator.generateVariations number_to_string W config quantity
    else FlyerGenerator.generateVariations number_to_string W config quantity in
  match flyers with
  | Ok flyers => Completed flyers
  | Throw _ => Exit 1
  end.

End Run.

End Cli.

Module Interactive.

(** The quantity of [promptUser]: [parseInt(quantity) || 3], a warning
    'Quantity adjusted to 3' when that is outside 1..10, and the quantity
    returned, [Math.min(Math.max(quantityNum, 1), 10)]. *)
Definition quantityNum (quantity : jsstring) : intnum :=
  Cli.or_3 (Cli.parseInt quantity).

Definition warns (quantity : jsstring) : bool :=
  match quantityNum quantity with
  | INaN => false
  | IInf _ => true
  | IInt z => (z <? 1)%Z || (10 <? z)%Z
  end.

Definition quantity_answer (quantity : jsstring) : intnum :=
  Cli.clamp_1_10 (quantityNum quantity).

End Interactive.

(* ================================================================== *)
(** ** Vocabulary of the further properties *)
(* ================================================================== *)

Module XmlSpec.

(** The entity a single code unit is written as. *)
Definition escape_unit (c : code_unit) : jsstring :=
  if (c =? 38)%N then js "&amp;"
  else if (c =? 60)%N then js "&lt;"
  else if (c =? 62)%N then js "&gt;"
  else if (c =? 34)%N then js "&quot;"
  else if (c =? 39)%N then js "&#39;"
  else [c].

(** The five code units with a meaning in XML: ampersand, the angle
    brackets, and the double and single quote. *)
Definition special (c : code_unit) : bool :=
  existsb (N.eqb c) [38; 60; 62; 34; 39]%N.

End XmlSpec.

Module WrapText.

(** A string without its spaces. *)
Definition unspaced (s : jsstring) : jsstring :=
  filter (fun c => negb (c =? 32)%N) s.

End WrapText.

Module Render.

Definition is_string (v : option value) : bool :=
  match v with Some (VStr _) => true | _ => false end.

(** A variation [createSVG] can set: an object whose title, subtitle,
    description and call to action are strings. *)
Definition renderable (text : value) : bool :=
  match text with
  | VObj fields =>
    is_string (get_field (js "title") fields)
    && is_string (get_field (js "subtitle") fields)
    && is_string (get_field (js "description") fields)
    && is_string (get_field (js "callToAction") fields)
  | _ => false
  end.

End Render.

Module Offline.

(** The colour of cell [i]: the colours of the configuration in turn, and
    the default blue for a missing or empty entry. *)
Definition color_at (config : PromoConfig) (i : nat) : jsstring :=
  or_else
    (match FlyerGenerator.cycle (colors config) i with
     | Some c => c
     | None => []
     end)
    (js "#3498DB").

(** The record of cell [i] in [format] when its text is the variation [tv]
    of the fallback bank. *)
Definition flyer (config : PromoConfig) (i : nat) (tv : TextVariation)
  (format : Format) : GeneratedFlyer :=
  {| filename :=
       js "flyer_" ++ decimal (i + 1) ++ js "_" ++ tone tv ++ js "_"
       ++ format_name format ++ js ".png";
     textVariation := object_of tv;
     color := color_at config i;
     format := format |}.

End Offline.

(* ================================================================== *)
(** ** Strings and numbers: basic facts *)
(* ================================================================== *)

Import Spec.

Lemma jseqb_eq (a b : jsstring) : jseqb a b = true -> a = b.
Proof.
  revert b; induction a as [|x a IH]; intros [|y b]; simpl;
    try discriminate; auto.
  intros H. apply andb_prop in H as [Hx Hr].
  apply N.eqb_eq in Hx. f_equal; auto.
Qed.

Lemma jseqb_refl (a : jsstring) : jseqb a a = true.
Proof.
  induction a as [|x a IH]; simpl; auto.
  now rewrite N.eqb_refl.
Qed.

Lemma jseqb_neq (a b : jsstring) : jseqb a b = false -> a <> b.
Proof. intros H ->. rewrite jseqb_refl in H. discriminate. Qed.

Lemma substring_length (a b : nat) (s : jsstring) :
  (length (substring a b s) <= b - a)%nat.
Proof. unfold substring. apply firstn_le_length. Qed.

Lemma truthy_app_r (a b : jsstring) : truthy b = true -> truthy (a ++ b) = true.
Proof. destruct a, b; simpl; intros; congruence. Qed.

Lemma truthy_app_l (a b : jsstring) : truthy a = true -> truthy (a ++ b) = true.
Proof. destruct a; simpl; intros; congruence. Qed.

Lemma truthy_firstn (n : nat) (s : jsstring) :
  truthy s = true -> truthy (firstn (S n) s) = true.
Proof. destruct s; simpl; intros; congruence. Qed.

Lemma truthy_nonempty (s : jsstring) : truthy s = true <-> s <> [].
Proof. destruct s; simpl; split; congruence. Qed.

(** *** Hexadecimal digits *)

Lemma is_hex_digit_In (c : code_unit) :
  is_hex_digit c = true -> In c hex_units.
Proof.
  unfold is_hex_digit, hex_val.
  destruct ((48 <=? c) && (c <=? 57))%N eqn:E1.
  { intros _. apply andb_prop in E1 as [A B].
    apply N.leb_le in A, B. simpl. lia. }
  destruct ((97 <=? c) && (c <=? 102))%N eqn:E2.
  { intros _. apply andb_prop in E2 as [A B].
    apply N.leb_le in A, B. simpl. lia. }
  destruct ((65 <=? c) && (c <=? 70))%N eqn:E3; [|discriminate].
  intros _. apply andb_prop in E3 as [A B].
  apply N.leb_le in A, B. simpl. lia.
Qed.

(** A property checked on all pairs of digits holds of every pair. *)
Lemma hex_pairs (P : code_unit -> code_unit -> bool) :
  forallb (fun a => forallb (P a) hex_units) hex_units = true ->
  forall a b, is_hex_digit a = true -> is_hex_digit b = true -> P a b = true.
Proof.
  intros H a b Ha Hb.
  rewrite forallb_forall in H.
  specialize (H a (is_hex_digit_In a Ha)).
  rewrite forallb_forall in H.
  exact (H b (is_hex_digit_In b Hb)).
Qed.

Lemma intnum_eqb_eq (a b : intnum) : intnum_eqb a b = true -> a = b.
Proof.
  destruct a, b; simpl; try discriminate; auto.
  - intros H. apply Bool.eqb_prop in H. congruence.
  - intros H. apply Z.eqb_eq in H. congruence.
Qed.

Lemma parse_pair (a b : code_unit) :
  is_hex_digit a = true -> is_hex_digit b = true ->
  parseInt16 [a; b] = IInt (16 * digit_value a + digit_value b).
Proof.
  intros Ha Hb. apply intnum_eqb_eq.
  revert a b Ha Hb. apply hex_pairs. vm_compute. reflexivity.
Qed.

Lemma pair_range (a b : code_unit) :
  is_hex_digit a = true -> is_hex_digit b = true ->
  (0 <= 16 * digit_value a + digit_value b <= 255)%Z.
Proof.
  intros Ha Hb.
  assert (H : ((0 <=? 16 * digit_value a + digit_value b)
               && (16 * digit_value a + digit_value b <=? 255))%Z = true).
  { revert a b Ha Hb. apply hex_pairs. vm_compute. reflexivity. }
  apply andb_prop in H as [A B]. apply Z.leb_le in A, B. lia.
Qed.

Lemma valid_color_inv (s : jsstring) :
  valid_color s = true ->
  exists a b c d e f,
    s = [35%N; a; b; c; d; e; f]
    /\ is_hex_digit a = true /\ is_hex_digit b = true
    /\ is_hex_digit c = true /\ is_hex_digit d = true
    /\ is_hex_digit e = true /\ is_hex_digit f = true.
Proof.
  destruct s as [|h [|a [|b [|c [|d [|e [|f [|x r]]]]]]]]; simpl;
    try discriminate.
  intros H. apply andb_prop in H as [Hh H]. apply N.eqb_eq in Hh. subst h.
  repeat (apply andb_prop in H as [? H]).
  exists a, b, c, d, e, f. repeat split; assumption.
Qed.

Lemma channels_valid (a b c d e f : code_unit) :
  channels [35%N; a; b; c; d; e; f]
  = (parseInt16 [a; b], parseInt16 [c; d], parseInt16 [e; f]).
Proof. reflexivity. Qed.

Lemma bytes_checked (P : Z -> bool) :
  forallb P (map Z.of_nat (seq 0 256)) = true ->
  forall v, (0 <= v <= 255)%Z -> P v = true.
Proof.
  intros H v Hv. rewrite forallb_forall in H. apply H.
  replace v with (Z.of_nat (Z.to_nat v)) by lia.
  apply in_map. apply in_seq. lia.
Qed.

(** A channel value is written as two hexadecimal digits that read back
    as the same value. *)
Lemma two_hex_byte (v : Z) :
  (0 <= v <= 255)%Z ->
  exists a b,
    two_hex (IInt v) = [a; b]
    /\ is_hex_digit a = true /\ is_hex_digit b = true
    /\ (16 * digit_value a + digit_value b)%Z = v.
Proof.
  intros Hv.
  assert (H : match two_hex (IInt v) with
              | [a; b] => is_hex_digit a && is_hex_digit b
                          && (16 * digit_value a + digit_value b =? v)%Z
              | _ => false
              end = true).
  { revert v Hv. apply bytes_checked. vm_compute. reflexivity. }
  destruct (two_hex (IInt v)) as [|a [|b [|x r]]]; try discriminate.
  apply andb_prop in H as [H H3]. apply andb_prop in H as [H1 H2].
  apply Z.eqb_eq in H3. exists a, b. auto.
Qed.

Lemma encode_bytes (r g b : Z) :
  (0 <= r <= 255)%Z -> (0 <= g <= 255)%Z -> (0 <= b <= 255)%Z ->
  valid_color (encode (IInt r) (IInt g) (IInt b)) = true
  /\ rgb (encode (IInt r) (IInt g) (IInt b)) = (r, g, b)
  /\ channels (encode (IInt r) (IInt g) (IInt b)) = (IInt r, IInt g, IInt b).
Proof.
  intros Hr Hg Hb.
  destruct (two_hex_byte r Hr) as (r1 & r2 & Er & R1 & R2 & Vr).
  destruct (two_hex_byte g Hg) as (g1 & g2 & Eg & G1 & G2 & Vg).
  destruct (two_hex_byte b Hb) as (b1 & b2 & Eb & B1 & B2 & Vb).
  unfold encode. rewrite Er, Eg, Eb. cbn [app].
  split; [|split].
  - cbn [valid_color forallb]. rewrite R1, R2, G1, G2, B1, B2. reflexivity.
  - cbn [rgb]. rewrite Vr, Vg, Vb. reflexivity.
  - rewrite channels_valid, !parse_pair by assumption.
    rewrite Vr, Vg, Vb. reflexivity.
Qed.

Lemma rgb_valid (c : jsstring) :
  valid_color c = true ->
  exists r g b,
    rgb c = (r, g, b) /\ channels c = (IInt r, IInt g, IInt b)
    /\ (0 <= r <= 255)%Z /\ (0 <= g <= 255)%Z /\ (0 <= b <= 255)%Z.
Proof.
  intros H.
  destruct (valid_color_inv c H)
    as (a & b & x & d & e & f & -> & Ha & Hb & Hx & Hd & He & Hf).
  eexists _, _, _. split; [reflexivity|]. split.
  - rewrite channels_valid, !parse_pair by assumption. reflexivity.
  - auto using pair_range.
Qed.

(* ================================================================== *)
(** ** Colour derivation *)
(* ================================================================== *)

Lemma darkenColor_valid (a b c d e f : code_unit) (factor : float) :
  ImageGenerator.darkenColor [35%N; a; b; c; d; e; f] factor
  = 35%N ::
      two_hex (Math_floor (float_of_intnum (parseInt16 [a; b]) * (1 - factor)))
   ++ two_hex (Math_floor (float_of_intnum (parseInt16 [c; d]) * (1 - factor)))
   ++ two_hex (Math_floor (float_of_intnum (parseInt16 [e; f]) * (1 - factor))).
Proof. reflexivity. Qed.

(** Scaled by [1 - 0], a pair of digits is written back in lower case. *)
Lemma darken_pair_0 (a b : code_unit) :
  is_hex_digit a = true -> is_hex_digit b = true ->
  two_hex (Math_floor (float_of_intnum (parseInt16 [a; b]) * (1 - 0)))
  = [lower a; lower b].
Proof.
  intros Ha Hb. apply jseqb_eq.
  revert a b Ha Hb. apply hex_pairs. vm_compute. reflexivity.
Qed.

(** Scaled by [1 - 1], every channel is written as [00]. *)
Lemma darken_pair_1 (a b : code_unit) :
  is_hex_digit a = true -> is_hex_digit b = true ->
  two_hex (Math_floor (float_of_intnum (parseInt16 [a; b]) * (1 - 1)))
  = [48%N; 48%N].
Proof.
  intros Ha Hb. apply jseqb_eq.
  revert a b Ha Hb. apply hex_pairs. vm_compute. reflexivity.
Qed.

Lemma lower_pair_parse (a b : code_unit) :
  is_hex_digit a = true -> is_hex_digit b = true ->
  parseInt16 [lower a; lower b] = parseInt16 [a; b].
Proof.
  intros Ha Hb. apply intnum_eqb_eq.
  revert a b Ha Hb. apply hex_pairs. vm_compute. reflexivity.
Qed.

(** C6 (as amended): for every valid colour [c], darkening by 0 gives [c]
    back with its digits in lower case, which denotes the same channels,
    and darkening by 1 gives pure black. *)
Theorem darken_zero_and_one (c : jsstring) :
  valid_color c = true ->
  ImageGenerator.darkenColor c 0 = map lower c
  /\ channels (ImageGenerator.darkenColor c 0) = channels c
  /\ ImageGenerator.darkenColor c 1 = black.
Proof.
  intros H.
  destruct (valid_color_inv c H) as (a & b & x & d & e & f & -> & Ha & Hb & Hx & Hd & He & Hf).
  rewrite !darkenColor_valid.
  rewrite !darken_pair_0, !darken_pair_1 by assumption.
  repeat split.
  cbn [app]. rewrite !channels_valid.
  rewrite !lower_pair_parse by assumption. reflexivity.
Qed.

Lemma darken_zero_and_one_witness :
  ImageGenerator.darkenColor (js "#FF6B6B") 0 = js "#ff6b6b"
  /\ ImageGenerator.darkenColor (js "#FF6B6B") 1 = js "#000000".
Proof.
  destruct (darken_zero_and_one (js "#FF6B6B")) as (H0 & _ & H1).
  - vm_compute. reflexivity.
  - split; [exact H0 | exact H1].
Defined.

(** C6, as stated, fails on a colour written with upper-case digits: the
    string that comes back differs from the one that went in. *)
Lemma darken_zero_not_identity :
  valid_color (js "#FF0000") = true
  /\ ImageGenerator.darkenColor (js "#FF0000") 0 = js "#ff0000"
  /\ ImageGenerator.darkenColor (js "#FF0000") 0 <> js "#FF0000".
Proof.
  repeat split; try (vm_compute; reflexivity).
  apply jseqb_neq. vm_compute. reflexivity.
Qed.

Lemma getContrastColor_valid (a b c d e f : code_unit) :
  ImageGenerator.getContrastColor [35%N; a; b; c; d; e; f]
  = if (0.5 <? ImageGenerator.luminance (parseInt16 [a; b])
                 (parseInt16 [c; d]) (parseInt16 [e; f]))%float
    then black else white.
Proof. reflexivity. Qed.

(** On a valid colour the program compares the binary64 luminance of the
    channels with 0.5. *)
Lemma getContrastColor_computed (c : jsstring) (r g b : Z) :
  valid_color c = true -> rgb c = (r, g, b) ->
  ImageGenerator.getContrastColor c
  = if (0.5 <? luminance64 r g b)%float then black else white.
Proof.
  intros H E.
  destruct (valid_color_inv c H)
    as (a1 & a2 & x & d & e & f & -> & Ha & Hb & Hx & Hd & He & Hf).
  rewrite getContrastColor_valid.
  rewrite !parse_pair by assumption.
  cbn [rgb] in E. injection E as <- <- <-. reflexivity.
Qed.

(** Whatever the rounding, the answer is black or white. *)
Lemma contrast_black_or_white (c : jsstring) :
  valid_color c = true ->
  ImageGenerator.getContrastColor c = black
  \/ ImageGenerator.getContrastColor c = white.
Proof.
  intros H. destruct (rgb c) as [[r g] b] eqn:E.
  rewrite (getContrastColor_computed c r g b H E).
  destruct (0.5 <? luminance64 r g b)%float; [left | right]; reflexivity.
Qed.

(** The exact comparison, in thousandths. *)
Lemma above_half_exact (r g b : Z) :
  above_half r g b = (127500 <? 299 * r + 587 * g + 114 * b)%Z.
Proof.
  unfold above_half, L, QArith_base.Qle_bool, QArith_base.Qdiv,
    QArith_base.Qmult, QArith_base.Qplus, QArith_base.Qinv,
    QArith_base.inject_Z.
  cbn [QArith_base.Qnum QArith_base.Qden].
  rewrite ?Pos2Z.inj_mul.
  destruct (Z.ltb_spec 127500 (299 * r + 587 * g + 114 * b)).
  - apply negb_true_iff. apply Z.leb_gt. lia.
  - apply negb_false_iff. apply Z.leb_le. lia.
Qed.

Lemma In_shares (thousandths : Z) (weight : float) (v : Z) :
  (0 <= v <= 255)%Z ->
  In (Uint63.of_Z (thousandths * v), (weight * float_of_Z v)%float)
     (shares thousandths weight).
Proof.
  intros Hv. unfold shares.
  apply (in_map (fun v => (Uint63.of_Z (thousandths * v),
                           (weight * float_of_Z v)%float))).
  replace v with (Z.of_nat (Z.to_nat v)) by lia.
  apply in_map. apply in_seq. lia.
Qed.

(** All 256^3 colours, one by one. *)
Lemma luminance_checked :
  forallb
    (fun pr =>
       forallb (fun pg => forallb (same_side pr pg) blue_shares) green_shares)
    red_shares = true.
Proof. vm_compute. reflexivity. Qed.

Lemma to_Z_of_Z_small (z : Z) :
  (0 <= z < 1000000)%Z -> Uint63.to_Z (Uint63.of_Z z) = z.
Proof.
  intros H. rewrite Uint63.of_Z_spec. apply Z.mod_small.
  change wB with 9223372036854775808%Z. lia.
Qed.

Lemma exact_sum (r g b : Z) :
  (0 <= r <= 255)%Z -> (0 <= g <= 255)%Z -> (0 <= b <= 255)%Z ->
  Uint63.to_Z (Uint63.of_Z (299 * r) + Uint63.of_Z (587 * g)
               + Uint63.of_Z (114 * b))%uint63
  = (299 * r + 587 * g + 114 * b)%Z.
Proof.
  intros Hr Hg Hb.
  rewrite !Uint63.add_spec, !to_Z_of_Z_small by lia.
  rewrite (Z.mod_small (299 * r + 587 * g))
    by (change wB with 9223372036854775808%Z; lia).
  apply Z.mod_small. change wB with 9223372036854775808%Z. lia.
Qed.

(** Computed in binary64 or exactly, the luminance is on the same side of
    0.5 for every colour but one. *)
Lemma luminance_exact (r g b : Z) :
  (0 <= r <= 255)%Z -> (0 <= g <= 255)%Z -> (0 <= b <= 255)%Z ->
  (r, g, b) <> (218, 58, 248)%Z ->
  (0.5 <? luminance64 r g b)%float
  = (127500 <? 299 * r + 587 * g + 114 * b)%Z.
Proof.
  intros Hr Hg Hb Hne.
  pose proof luminance_checked as H.
  rewrite forallb_forall in H.
  specialize (H _ (In_shares 299 0.299 r Hr)).
  rewrite forallb_forall in H.
  specialize (H _ (In_shares 587 0.587 g Hg)).
  rewrite forallb_forall in H.
  specialize (H _ (In_shares 114 0.114 b Hb)).
  unfold same_side in H. cbn [fst snd] in H.
  assert (E : (127500 <? Uint63.of_Z (299 * r) + Uint63.of_Z (587 * g)
                         + Uint63.of_Z (114 * b))%uint63
              = (127500 <? 299 * r + 587 * g + 114 * b)%Z).
  { apply eq_true_iff_eq. rewrite Uint63.ltb_spec, exact_sum by assumption.
    change (Uint63.to_Z 127500) with 127500%Z. symmetry. apply Z.ltb_lt. }
  rewrite E in H.
  destruct (Bool.eqb _ _) eqn:Eq in H.
  - apply Bool.eqb_prop in Eq. exact Eq.
  - exfalso. apply Hne.
    apply andb_prop in H as [H H3]. apply andb_prop in H as [H1 H2].
    apply Uint63.eqb_spec in H1, H2, H3.
    apply (f_equal Uint63.to_Z) in H1, H2, H3.
    rewrite to_Z_of_Z_small in H1, H2, H3 by lia.
    change (Uint63.to_Z 65182) with 65182%Z in H1.
    change (Uint63.to_Z 34046) with 34046%Z in H2.
    change (Uint63.to_Z 28272) with 28272%Z in H3.
    f_equal; [f_equal|]; lia.
Qed.

(** Hence, but for that colour, the program answers as the formula does. *)
Lemma contrast_exact (c : jsstring) (r g b : Z) :
  valid_color c = true -> rgb c = (r, g, b) ->
  (r, g, b) <> (218, 58, 248)%Z ->
  ImageGenerator.getContrastColor c = Contrast_spec c.
Proof.
  intros Hv Hrgb Hne.
  rewrite (getContrastColor_computed c r g b Hv Hrgb).
  unfold Contrast_spec. rewrite Hrgb, above_half_exact.
  rewrite luminance_exact; auto.
  all: destruct (valid_color_inv c Hv)
    as (a & b' & x & d & e & f & -> & Ha & Hb & Hx & Hd & He & Hf);
    cbn [rgb] in Hrgb;
    pose proof (pair_range a b' Ha Hb);
    pose proof (pair_range x d Hx Hd);
    pose proof (pair_range e f He Hf);
    congruence.
Qed.

(** C7 (as amended): for every valid colour the program answers pure
    black or pure white and nothing else: black when the luminance
    (0.299 R + 0.587 G + 0.114 B) / 255, computed in binary64 in the order
    the program writes it, exceeds 0.5, and white otherwise.  That is the
    answer of the formula read exactly for every valid colour but one,
    [#da3af8], where the program answers black. *)
Theorem contrast_threshold (c : jsstring) (r g b : Z) :
  valid_color c = true -> rgb c = (r, g, b) ->
  (ImageGenerator.getContrastColor c = black
   \/ ImageGenerator.getContrastColor c = white)
  /\ ImageGenerator.getContrastColor c
     = (if (0.5 <? luminance64 r g b)%float then black else white)
  /\ ((r, g, b) <> (218, 58, 248)%Z ->
      ImageGenerator.getContrastColor c = Contrast_spec c)
  /\ ((r, g, b) = (218, 58, 248)%Z ->
      ImageGenerator.getContrastColor c = black).
Proof.
  intros Hv Hrgb.
  split; [exact (contrast_black_or_white c Hv)|].
  split; [exact (getContrastColor_computed c r g b Hv Hrgb)|].
  split.
  - exact (contrast_exact c r g b Hv Hrgb).
  - intros [= -> -> ->].
    rewrite (getContrastColor_computed c 218 58 248 Hv Hrgb).
    reflexivity.
Qed.

Lemma contrast_threshold_witness :
  ImageGenerator.getContrastColor (js "#3498DB") = Contrast_spec (js "#3498DB")
  /\ Contrast_spec (js "#3498DB") = black.
Proof.
  split; [|vm_compute; reflexivity].
  destruct (contrast_threshold (js "#3498DB") 52 152 219)
    as (_ & _ & H & _); [reflexivity | reflexivity |].
  apply H. discriminate.
Defined.

(** C7, as stated, fails at one valid colour.  On [#da3af8], channels
    (218, 58, 248), the formula gives [L = 0.5] exactly, which does not
    exceed 0.5, so the formula asks for white; the program computes the
    luminance in binary64, finds it just above 0.5 and answers black. *)
Lemma contrast_at_the_boundary :
  valid_color (js "#da3af8") = true
  /\ rgb (js "#da3af8") = (218, 58, 248)%Z
  /\ QArith_base.Qcompare (L 218 58 248) (QArith_base.Qmake 1 2) = Eq
  /\ above_half 218 58 248 = false
  /\ Contrast_spec (js "#da3af8") = white
  /\ (0.5 <? luminance64 218 58 248)%float = true
  /\ ImageGenerator.getContrastColor (js "#da3af8") = black
  /\ ImageGenerator.getContrastColor (js "#da3af8")
     <> Contrast_spec (js "#da3af8").
Proof. repeat split; try (vm_compute; reflexivity). discriminate. Qed.

(** *** Accent *)

Lemma hex_val_range (c : code_unit) (d : Z) :
  hex_val c = Some d -> (0 <= d <= 15)%Z.
Proof.
  unfold hex_val.
  destruct ((48 <=? c) && (c <=? 57))%N eqn:E1.
  { intros [= <-]. apply andb_prop in E1 as [A B].
    apply N.leb_le in A, B. lia. }
  destruct ((97 <=? c) && (c <=? 102))%N eqn:E2.
  { intros [= <-]. apply andb_prop in E2 as [A B].
    apply N.leb_le in A, B. lia. }
  destruct ((65 <=? c) && (c <=? 70))%N eqn:E3; [|discriminate].
  intros [= <-]. apply andb_prop in E3 as [A B].
  apply N.leb_le in A, B. lia.
Qed.

Lemma hex_prefix_short (s : jsstring) (v : Z) :
  (length s <= 2)%nat -> hex_prefix None s = Some v ->
  (0 <= v <= 255)%Z /\ ((length s <= 1)%nat -> (v <= 15)%Z).
Proof.
  destruct s as [|x [|y [|z r]]]; cbn [hex_prefix length]; intros Hlen.
  - discriminate.
  - destruct (hex_val x) as [dx|] eqn:Ex; [|discriminate].
    intros E. replace v with dx by congruence.
    apply hex_val_range in Ex. lia.
  - destruct (hex_val x) as [dx|] eqn:Ex; [|discriminate].
    apply hex_val_range in Ex.
    destruct (hex_val y) as [dy|] eqn:Ey.
    + apply hex_val_range in Ey. intros E.
      replace v with (16 * dx + dy)%Z by congruence. lia.
    + intros E. replace v with dx by congruence. lia.
  - lia.
Qed.

Lemma skip_space_length (s : jsstring) :
  (length (skip_space s) <= length s)%nat.
Proof.
  induction s as [|c r IH]; simpl; auto.
  destruct (is_space c); simpl; lia.
Qed.

Lemma strip_sign_length (s : jsstring) :
  (length (snd (strip_sign s)) <= length s)%nat
  /\ (fst (strip_sign s) = true -> (S (length (snd (strip_sign s))) <= length s)%nat).
Proof.
  destruct s as [|c r]; simpl.
  - split; [lia | discriminate].
  - destruct (c =? 45)%N; simpl; [split; intros; lia|].
    destruct (c =? 43)%N; simpl; split; intros; try lia; discriminate.
Qed.

Lemma strip_0x_length (s : jsstring) :
  (length (strip_0x s) <= length s)%nat.
Proof.
  destruct s as [|a [|b r]]; simpl; auto.
  destruct ((a =? 48) && ((b =? 120) || (b =? 88)))%N; simpl; lia.
Qed.

(** What [parseInt] can return on at most two code units. *)
Lemma parseInt16_short (s : jsstring) :
  (length s <= 2)%nat ->
  parseInt16 s = INaN
  \/ exists v, parseInt16 s = IInt v /\ (-15 <= v <= 255)%Z.
Proof.
  intros Hlen. unfold parseInt16.
  pose proof (skip_space_length s) as H1.
  pose proof (strip_sign_length (skip_space s)) as [H2 H3].
  destruct (strip_sign (skip_space s)) as [neg s2]; simpl in H2, H3.
  pose proof (strip_0x_length s2) as H4.
  destruct (hex_prefix None (strip_0x s2)) as [v|] eqn:E; [right | left; reflexivity].
  assert (Hl : (length (strip_0x s2) <= 2)%nat) by lia.
  destruct (hex_prefix_short _ v Hl E) as [B1 B2].
  destruct neg.
  - exists (- v)%Z. split; [reflexivity|].
    specialize (H3 eq_refl). specialize (B2 ltac:(lia)). lia.
  - exists v. split; [reflexivity | lia].
Qed.

Lemma channel_short (a b : nat) (s : jsstring) :
  (b - a <= 2)%nat ->
  parseInt16 (substring a b s) = INaN
  \/ exists v, parseInt16 (substring a b s) = IInt v /\ (-15 <= v <= 255)%Z.
Proof.
  intros H. apply parseInt16_short.
  pose proof (substring_length a b s). lia.
Qed.

Lemma accent_channel_spec (c : intnum) :
  (c = INaN \/ exists v, c = IInt v /\ (-15 <= v <= 255)%Z) ->
  FlyerGenerator.accent_channel c = accent_of c.
Proof.
  intros [-> | (v & -> & Hv)]; [reflexivity|].
  unfold FlyerGenerator.accent_channel, accent_of, accent_value.
  rewrite Z.rem_mod_nonneg by lia. reflexivity.
Qed.

Lemma strict_eq_achromatic (r g b : intnum) :
  (r = INaN \/ exists v, r = IInt v /\ (-15 <= v <= 255)%Z) ->
  (g = INaN \/ exists v, g = IInt v /\ (-15 <= v <= 255)%Z) ->
  (b = INaN \/ exists v, b = IInt v /\ (-15 <= v <= 255)%Z) ->
  FlyerGenerator.strict_eq r g && FlyerGenerator.strict_eq g b
  = achromatic r g b.
Proof.
  intros [-> | (x & -> & _)] [-> | (y & -> & _)] [-> | (z & -> & _)];
    simpl; try reflexivity.
  now rewrite andb_false_r.
Qed.

Lemma accent_value_range (v : Z) : (0 <= accent_value v <= 255)%Z.
Proof. unfold accent_value. lia. Qed.

(** The cases of the program, on the channels it parses. *)
Lemma getAccentColor_cases (s : jsstring) :
  FlyerGenerator.getAccentColor s
  = if malformed s then gold
    else
      let '(r, g, b) := channels s in
      if achromatic r g b then sky_blue
      else encode (accent_of r) (accent_of g) (accent_of b).
Proof.
  unfold FlyerGenerator.getAccentColor, malformed, channels.
  assert (E : negb (truthy s) || negb (startsWith 35 s)
              = negb (startsWith 35 s)).
  { destruct s; reflexivity. }
  rewrite E.
  destruct (negb (startsWith 35 s) || negb (length s =? 7)%nat); [reflexivity|].
  set (hex := replace_first 35 [] s).
  pose proof (channel_short 0 2 hex ltac:(lia)) as Hr.
  pose proof (channel_short 2 4 hex ltac:(lia)) as Hg.
  pose proof (channel_short 4 6 hex ltac:(lia)) as Hb.
  rewrite (strict_eq_achromatic _ _ _ Hr Hg Hb).
  rewrite !accent_channel_spec by assumption.
  reflexivity.
Qed.

(** Where the channels are numbers the program follows the three cases:
    gold for a malformed string, sky blue for equal channels, the shifted
    channels otherwise. *)
Lemma accent_cases (s : jsstring) :
  (malformed s = true -> FlyerGenerator.getAccentColor s = gold)
  /\ (forall r g b,
        malformed s = false -> channels s = (IInt r, IInt g, IInt b) ->
        (r = g /\ g = b -> FlyerGenerator.getAccentColor s = sky_blue)
        /\ (~ (r = g /\ g = b) ->
            FlyerGenerator.getAccentColor s
            = encode (IInt (accent_value r)) (IInt (accent_value g))
                (IInt (accent_value b))
            /\ accent_value r = ((255 - r + 100) mod 256)%Z
            /\ accent_value g = ((255 - g + 100) mod 256)%Z
            /\ accent_value b = ((255 - b + 100) mod 256)%Z
            /\ (0 <= accent_value r <= 255)%Z
            /\ (0 <= accent_value g <= 255)%Z
            /\ (0 <= accent_value b <= 255)%Z)).
Proof.
  rewrite getAccentColor_cases. split.
  - intros ->. reflexivity.
  - intros r g b -> ->. simpl achromatic. split.
    + intros [-> ->]. now rewrite Z.eqb_refl.
    + intros Hne.
      destruct ((r =? g)%Z && (g =? b)%Z) eqn:E.
      { apply andb_prop in E as [A B]. apply Z.eqb_eq in A, B. tauto. }
      split; [reflexivity|].
      unfold accent_value.
      pose proof (Z.mod_pos_bound (255 - r + 100) 256 ltac:(lia)).
      pose proof (Z.mod_pos_bound (255 - g + 100) 256 ltac:(lia)).
      pose proof (Z.mod_pos_bound (255 - b + 100) 256 ltac:(lia)).
      lia.
Qed.

(** Wherever the specification names a colour, the program returns it:
    on every malformed string and on every valid colour. *)
Lemma accent_on_spec (s c : jsstring) :
  Accent_spec s = Some c -> FlyerGenerator.getAccentColor s = c.
Proof.
  unfold Accent_spec. rewrite getAccentColor_cases.
  destruct (malformed s); [congruence|].
  destruct (valid_color s) eqn:V; [|discriminate].
  destruct (rgb_valid s V) as (r & g & b & -> & -> & _).
  cbn [achromatic accent_of].
  destruct ((r =? g)%Z && (g =? b)%Z); congruence.
Qed.

(** C8: on a string of seven units with a leading [#] whose digits are not
    hexadecimal the accent is none of the three results of the
    specification.  The string passes the test for a malformed input, no
    channel of it parses, and the program returns [#NaNNaNNaN]: neither
    gold nor sky blue, and no colour at all, although the program's own
    comment promises the predefined colour for an invalid base colour. *)
Example accent_not_a_colour :
  malformed (js "#GGGGGG") = false
  /\ valid_color (js "#GGGGGG") = false
  /\ channels (js "#GGGGGG") = (INaN, INaN, INaN)
  /\ Accent_spec (js "#GGGGGG") = None
  /\ FlyerGenerator.getAccentColor (js "#GGGGGG") = js "#NaNNaNNaN"
  /\ js "#NaNNaNNaN" <> gold
  /\ js "#NaNNaNNaN" <> sky_blue
  /\ valid_color (js "#NaNNaNNaN") = false.
Proof.
  repeat split; try (vm_compute; reflexivity); discriminate.
Qed.

(* ================================================================== *)
(** ** The compositor: layout *)
(* ================================================================== *)










(* ================================================================== *)
(** ** The fallback bank *)
(* ================================================================== *)

Import TextSpec.

Lemma truthy_or_else (s d : jsstring) :
  truthy d = true -> truthy (or_else s d) = true.
Proof. unfold or_else. destruct (truthy s) eqn:E; auto. Qed.

Lemma truthy_substring (n : nat) (s : jsstring) :
  truthy s = true -> truthy (substring 0 (S n) s) = true.
Proof. unfold substring. simpl. apply truthy_firstn. Qed.

(** Strings built around a literal are not empty. *)
Ltac truthy_tac :=
  first
    [ reflexivity
    | apply truthy_substring; truthy_tac
    | apply truthy_or_else; truthy_tac
    | apply truthy_app_r; truthy_tac ].

Lemma select_language_cases (e s eng : TextGenerator.table) (language : jsstring) :
  let r := TextGenerator.select_language
             [(js "English", e); (js "Spanish", s)] eng language in
  r = TextGenerator.Table e \/ r = TextGenerator.Table s
  \/ r = TextGenerator.Table eng \/ r = TextGenerator.Builtin.
Proof.
  unfold TextGenerator.select_language, index. cbn [own_get].
  destruct (jseqb language (js "English")); [auto|].
  destruct (jseqb language (js "Spanish")); [auto|].
  destruct (existsb _ _); auto.
Qed.

Lemma baseTones_cases (t : jsstring) :
  In t TextGenerator.baseTones ->
  t = js "urgent" \/ t = js "elegant" \/ t = js "casual" \/ t = js "fun"
  \/ t = js "exclusive" \/ t = js "friendly" \/ t = js "informative"
  \/ t = js "inspiring".
Proof.
  intros H. cbn [TextGenerator.baseTones map In] in H.
  intuition auto.
Qed.

Lemma baseTones_truthy (t : jsstring) :
  In t TextGenerator.baseTones -> truthy t = true.
Proof.
  intros H. apply baseTones_cases in H.
  repeat (destruct H as [-> | H]; [reflexivity|]). subst. reflexivity.
Qed.

(** The four generators, on a tone of [baseTones]: each returns, and what
    it returns is not empty and within its cap. *)
Ltac generator_cases H :=
  apply baseTones_cases in H;
  cbv zeta;
  match goal with
  | |- context [TextGenerator.select_language [(_, ?e); (_, ?s)] ?eng ?l] =>
    destruct (select_language_cases e s eng l) as [E | [E | [E | E]]];
    rewrite E; clear E
  end;
  repeat (destruct H as [-> | H]);
  try subst;
  (eexists; split; [reflexivity|]).

Lemma generateFallbackTitle_ok (config : PromoConfig) (tone language : jsstring) :
  In tone TextGenerator.baseTones ->
  exists s, TextGenerator.generateFallbackTitle config tone language = Ok s
            /\ truthy s = true /\ (length s <= 50)%nat.
Proof.
  intros H. unfold TextGenerator.generateFallbackTitle.
  generator_cases H.
  all: split; [|apply substring_length].
  all: cbn [bind TextGenerator.nullish]; truthy_tac.
Qed.

Lemma generateFallbackSubtitle_ok (config : PromoConfig) (tone language : jsstring) :
  In tone TextGenerator.baseTones ->
  exists s, TextGenerator.generateFallbackSubtitle config tone language = Ok s
            /\ truthy s = true /\ (length s <= 80)%nat.
Proof.
  intros H. unfold TextGenerator.generateFallbackSubtitle.
  generator_cases H.
  all: split; [|apply substring_length].
  all: cbn [bind TextGenerator.falsy_or]; truthy_tac.
Qed.

Lemma generateFallbackCTA_ok (tone language : jsstring) :
  In tone TextGenerator.baseTones ->
  exists s, TextGenerator.generateFallbackCTA tone language = Ok s
            /\ truthy s = true /\ (length s <= 30)%nat.
Proof.
  intros H. unfold TextGenerator.generateFallbackCTA.
  generator_cases H.
  all: split; [|apply substring_length].
  all: cbn [bind TextGenerator.falsy_or]; truthy_tac.
Qed.

Lemma generateFallbackDescription_ok (config : PromoConfig)
  (tone : jsstring) (i : nat) (language : jsstring) :
  In tone TextGenerator.baseTones ->
  exists s, TextGenerator.generateFallbackDescription config tone i language = Ok s
            /\ truthy s = true /\ (length s <= 200)%nat.
Proof.
  intros H. unfold TextGenerator.generateFallbackDescription.
  generator_cases H.
  all: split; [|apply substring_length].
  all: cbn [bind TextGenerator.falsy_or]; truthy_tac.
Qed.

Lemma baseTones_length : length TextGenerator.baseTones = 8%nat.
Proof. reflexivity. Qed.

(** One slot of the bank: it is produced, its tone is the one of the
    fixed list at [i mod 8], its fields are populated and capped. *)
Lemma fallback_slot_ok (config : PromoConfig) (language : jsstring) (i : nat) :
  exists tv,
    TextGenerator.fallback_slot config language i = Ok tv
    /\ nth_error TextGenerator.baseTones (i mod 8) = Some (tone tv)
    /\ populated tv /\ within_caps tv.
Proof.
  unfold TextGenerator.fallback_slot. rewrite baseTones_length.
  destruct (nth_error TextGenerator.baseTones (i mod 8)) as [t|] eqn:Et.
  2:{ apply nth_error_None in Et. rewrite baseTones_length in Et.
      pose proof (Nat.mod_upper_bound i 8). lia. }
  pose proof (nth_error_In _ _ Et) as Hin.
  pose proof (baseTones_truthy t Hin) as Ht.
  unfold or_else at 1 2 3 4 5. rewrite Ht.
  destruct (generateFallbackTitle_ok config t language Hin) as (a & -> & Ta & La).
  destruct (generateFallbackSubtitle_ok config t language Hin) as (b & -> & Tb & Lb).
  destruct (generateFallbackCTA_ok t language Hin) as (c & -> & Tc & Lc).
  destruct (generateFallbackDescription_ok config t i language Hin) as (d & -> & Td & Ld).
  cbn [bind]. eexists. split; [reflexivity|].
  cbn [tone title subtitle callToAction description].
  split; [reflexivity|]. unfold populated, within_caps.
  cbn [tone title subtitle callToAction description].
  rewrite <- !truthy_nonempty. auto 10.
Qed.

Lemma mapM_ok {A B} (f : A -> result B) (P : A -> B -> Prop) (l : list A) :
  (forall a, In a l -> exists b, f a = Ok b /\ P a b) ->
  exists bs, mapM f l = Ok bs
             /\ length bs = length l
             /\ forall n a b, nth_error l n = Some a ->
                              nth_error bs n = Some b -> P a b.
Proof.
  induction l as [|a l IH]; intros H.
  - exists []. repeat split; auto. intros [|n] ? ?; discriminate.
  - destruct (H a (or_introl eq_refl)) as (b & Hb & Pb).
    destruct IH as (bs & Hbs & Hlen & Hnth).
    { intros x Hx. apply H. now right. }
    exists (b :: bs). cbn [mapM bind]. rewrite Hb, Hbs. cbn [bind].
    repeat split; [simpl; lia|].
    intros [|n] x y; simpl.
    + intros [= <-] [= <-]. exact Pb.
    + apply Hnth.
Qed.

(** The loop of the bank, for any integer quantity: one slot per turn. *)
Lemma fallback_loop_ok (config : PromoConfig) (language : jsstring) (n : nat) :
  exists l,
    mapM (TextGenerator.fallback_slot config language) (seq 0 n) = Ok l
    /\ length l = n
    /\ forall i tv, nth_error l i = Some tv ->
          nth_error TextGenerator.baseTones (i mod 8) = Some (tone tv)
          /\ populated tv /\ within_caps tv.
Proof.
  destruct (mapM_ok (TextGenerator.fallback_slot config language)
              (fun i tv =>
                 nth_error TextGenerator.baseTones (i mod 8) = Some (tone tv)
                 /\ populated tv /\ within_caps tv)
              (seq 0 n)) as (l & Hl & Hlen & Hnth).
  { intros i _. destruct (fallback_slot_ok config language i) as (tv & ? & ?).
    exists tv. auto. }
  exists l. rewrite length_seq in Hlen.
  split; [exact Hl|]. split; [exact Hlen|].
  intros i tv Hi.
  assert (Hlt : (i < n)%nat)
    by (rewrite <- Hlen; apply nth_error_Some; congruence).
  assert (Hs : nth_error (seq 0 n) i = Some i)
    by (rewrite nth_error_seq;
        destruct (Nat.ltb_spec i n); [reflexivity | lia]).
  apply (Hnth i i tv Hs Hi).
Qed.

(** The bank never throws, whatever the quantity. *)
Lemma generateFallbackVariations_total (config : PromoConfig) (quantity : Z)
  (language : jsstring) :
  exists l,
    TextGenerator.generateFallbackVariations config quantity language = Ok l
    /\ length l = Z.to_nat quantity
    /\ forall i tv, nth_error l i = Some tv ->
          nth_error TextGenerator.baseTones (i mod 8) = Some (tone tv)
          /\ populated tv /\ within_caps tv.
Proof.
  unfold TextGenerator.generateFallbackVariations.
  destruct (fallback_loop_ok config language (Z.to_nat quantity))
    as (l & -> & Hlen & Hnth).
  cbn [bind]. exists l.
  assert (E : ((length l =? 0)%nat && (0 <? quantity)%Z) = false).
  { rewrite Hlen. destruct (Z.ltb_spec 0 quantity).
    - replace (Z.to_nat quantity =? 0)%nat with false; [reflexivity|].
      symmetry. apply Nat.eqb_neq. lia.
    - apply andb_false_r. }
  rewrite E. split; [reflexivity|]. split; [exact Hlen | exact Hnth].
Qed.

(** C4: for every quantity of at least 1 (so for 3), the fallback bank
    returns exactly that many text variations; slot [i] carries the tone
    of the fixed list at index [i mod 8], has all five fields populated,
    and keeps its title within 50, its subtitle within 80, its call to
    action within 30 and its description within 200 code units. *)
Theorem fallback_bank (config : PromoConfig) (quantity : Z)
  (language : jsstring) :
  (1 <= quantity)%Z ->
  exists l,
    TextGenerator.generateFallbackVariations config quantity language = Ok l
    /\ Z.of_nat (length l) = quantity
    /\ forall i tv, nth_error l i = Some tv ->
          nth_error TextGenerator.baseTones (i mod 8) = Some (tone tv)
          /\ populated tv /\ within_caps tv.
Proof.
  intros Hq.
  destruct (generateFallbackVariations_total config quantity language)
    as (l & Hl & Hlen & Hnth).
  exists l. split; [exact Hl|]. split; [rewrite Hlen; lia | exact Hnth].
Qed.

Lemma fallback_bank_witness :
  exists l,
    TextGenerator.generateFallbackVariations Sample.pizza 3 (js "English") = Ok l
    /\ length l = 3%nat.
Proof.
  destruct (fallback_bank Sample.pizza 3 (js "English")) as (l & H & Hlen & _).
  - lia.
  - exists l. split; [exact H | lia].
Defined.

(* ================================================================== *)
(** ** Acquisition of text variations *)
(* ================================================================== *)

(** The two ways out of [generateVariations]: the filtered array when the
    reply parses to an array, the fallback bank in every other case. *)
Lemma generateVariations_paths (config : PromoConfig) (quantity : Z)
  (language : jsstring) (completion : TextGenerator.Completion) :
  TextGenerator.generateVariations config quantity language completion
  = match parsed_array completion with
    | Some items => Ok (filter TextGenerator.has_required_fields items)
    | None =>
      fallback <-
        TextGenerator.generateFallbackVariations config quantity language ;;
      Ok (map object_of fallback)
    end.
Proof.
  unfold TextGenerator.generateVariations, parsed_array,
    TextGenerator.parseResponse.
  destruct completion as [|[response|]]; cbn [bind try_catch]; try reflexivity.
  destruct (truthy (TextGenerator.raw response)); cbn [bind try_catch];
    try reflexivity.
  destruct (TextGenerator.parsed response) as [[]|]; reflexivity.
Qed.

(** Acquisition returns, for every quantity. *)
Lemma generateVariations_total (config : PromoConfig) (quantity : Z)
  (language : jsstring) (completion : TextGenerator.Completion) :
  exists l,
    TextGenerator.generateVariations config quantity language completion = Ok l.
Proof.
  rewrite generateVariations_paths.
  destruct (parsed_array completion); [eauto|].
  destruct (generateFallbackVariations_total config quantity language)
    as (l & -> & _).
  cbn [bind]. eauto.
Qed.

(** What does hold of acquisition: for every brief, every quantity of at
    least 1, every language and every outcome of the generative call, it
    returns a list and throws nothing.  When the call fails, returns no content or
    content that does not parse to an array, the list is the fallback bank,
    of length [quantity], hence not empty.  When the content parses to an
    array, the list is that array filtered on the five fields, as it is. *)
Theorem acquisition_never_throws (config : PromoConfig) (quantity : Z)
  (language : jsstring) (completion : TextGenerator.Completion) :
  (1 <= quantity)%Z ->
  (exists l,
     TextGenerator.generateVariations config quantity language completion
     = Ok l)
  /\ (forall items,
        parsed_array completion = Some items ->
        TextGenerator.generateVariations config quantity language completion
        = Ok (filter TextGenerator.has_required_fields items))
  /\ (parsed_array completion = None ->
      exists bank,
        TextGenerator.generateFallbackVariations config quantity language
        = Ok bank
        /\ TextGenerator.generateVariations config quantity language completion
           = Ok (map object_of bank)
        /\ Z.of_nat (length (map object_of bank)) = quantity
        /\ map object_of bank <> []).
Proof.
  intros Hq. split; [apply generateVariations_total|].
  rewrite generateVariations_paths. split.
  - intros items ->. reflexivity.
  - intros ->.
    destruct (generateFallbackVariations_total config quantity language)
      as (bank & -> & Hlen & _).
    exists bank. cbn [bind]. rewrite length_map.
    repeat split; auto; [lia|].
    destruct bank; [simpl in Hlen; lia | discriminate].
Qed.

Lemma acquisition_never_throws_witness :
  exists l,
    TextGenerator.generateVariations Sample.pizza 3 (js "English")
      Sample.object_reply = Ok l
    /\ length l = 3%nat.
Proof.
  destruct (acquisition_never_throws Sample.pizza 3 (js "English")
              Sample.object_reply) as (_ & _ & H).
  - lia.
  - destruct H as (bank & _ & H & Hlen & _); [reflexivity|].
    exists (map object_of bank). split; [exact H | lia].
Defined.

(** C1: acquisition returns an empty list when the reply parses to an
    array without a usable element, the empty array for one.  The array
    is returned as it is, filtered, and the fallback bank is not
    consulted: the caller gets an empty list for a quantity of 3, and the
    batch built on it throws, although the bank has three variations to
    offer. *)
Example acquisition_may_be_empty :
  (1 <= 3)%Z
  /\ parsed_array Sample.empty_array_reply = Some []
  /\ TextGenerator.generateVariations Sample.pizza 3 (js "English")
       Sample.empty_array_reply = Ok []
  /\ (exists bank,
        TextGenerator.generateFallbackVariations Sample.pizza 3 (js "English")
        = Ok bank
        /\ length bank = 3%nat)
  /\ FlyerGenerator.generateVariations Sample.no_numbers
       Sample.empty_reply_world Sample.pizza 3
     = Throw NoTextVariations.
Proof.
  split; [lia|]. split; [reflexivity|]. split; [reflexivity|]. split.
  - eexists. split; [vm_compute; reflexivity | reflexivity].
  - vm_compute. reflexivity.
Qed.
(* ================================================================== *)
(** ** The batch *)
(* ================================================================== *)

Import BatchSpec.

Lemma mapM_length {A B} (f : A -> result B) (l : list A) (bs : list B) :
  mapM f l = Ok bs -> length bs = length l.
Proof.
  revert bs. induction l as [|a l IH]; intros bs; cbn [mapM].
  - intros [= <-]. reflexivity.
  - destruct (f a) as [b|]; [|discriminate]. cbn [bind].
    destruct (mapM f l) as [bs'|]; [|discriminate]. cbn [bind].
    intros [= <-]. simpl. f_equal. apply IH. reflexivity.
Qed.

Lemma mapM_combine {A B} (f : A -> result B) (l : list A) (bs : list B)
  (a : A) (b : B) :
  mapM f l = Ok bs -> In (a, b) (combine l bs) -> f a = Ok b.
Proof.
  revert bs. induction l as [|x l IH]; intros bs; cbn [mapM].
  - intros _ [].
  - destruct (f x) as [y|] eqn:E; [|discriminate]. cbn [bind].
    destruct (mapM f l) as [bs'|]; [|discriminate]. cbn [bind].
    intros [= <-]. cbn [combine]. intros [[= <- <-] | H]; [exact E|].
    exact (IH bs' eq_refl H).
Qed.

Lemma mapM_nth {A B} (f : A -> result B) (l : list A) (bs : list B)
  (n : nat) (a : A) (b : B) :
  mapM f l = Ok bs -> nth_error l n = Some a -> nth_error bs n = Some b ->
  f a = Ok b.
Proof.
  revert bs n. induction l as [|x l IH]; intros bs n; cbn [mapM].
  - intros _ H. destruct n; discriminate.
  - destruct (f x) as [y|] eqn:E; [|discriminate]. cbn [bind].
    destruct (mapM f l) as [bs'|]; [|discriminate]. cbn [bind].
    intros [= <-]. destruct n as [|n]; simpl.
    + intros [= <-] [= <-]. exact E.
    + apply IH. reflexivity.
Qed.

Lemma mapM_throws {A B} (f : A -> result B) (l : list A) (e : exn) :
  mapM f l = Throw e -> exists a, In a l /\ f a = Throw e.
Proof.
  induction l as [|x l IH]; cbn [mapM]; [discriminate|].
  destruct (f x) as [y|e'] eqn:E; cbn [bind].
  - destruct (mapM f l) as [bs'|e'']; cbn [bind]; [discriminate|].
    intros [= <-]. destruct (IH eq_refl) as (a & Ha & Ea).
    exists a. split; [now right | exact Ea].
  - intros [= <-]. exists x. split; [now left | exact E].
Qed.

Lemma flat_map_combine_snd {A C B} (g : C -> list B) (l : list A)
  (cs : list C) :
  length cs = length l ->
  flat_map (fun ac => g (snd ac)) (combine l cs) = flat_map g cs.
Proof.
  revert cs. induction l as [|a l IH]; intros [|c cs] H; try discriminate;
    [reflexivity|].
  simpl. f_equal. apply IH. simpl in H. lia.
Qed.

(** A loop whose body takes up the list made so far, plans its turn, a
    step that may throw, and appends what the turn yields: the first
    throw ends it, and otherwise every turn has added its share. *)
Lemma loop_run {A C B} (P : A -> result C) (g : A -> C -> list B)
  (F : result (list B) -> A -> result (list B)) :
  (forall so_far a,
     F so_far a = (flyers <- so_far ;; c <- P a ;; Ok (flyers ++ g a c))) ->
  forall l so_far,
    fold_left F l so_far
    = (flyers <- so_far ;;
       cs <- mapM P l ;;
       Ok (flyers ++ flat_map (fun ac => g (fst ac) (snd ac)) (combine l cs))).
Proof.
  intros HF l. induction l as [|a l IH]; intros so_far; cbn [fold_left].
  - destruct so_far; cbn [bind mapM combine flat_map]; [|reflexivity].
    now rewrite app_nil_r.
  - rewrite IH, HF. cbn [mapM].
    destruct so_far as [flyers|]; cbn [bind]; [|reflexivity].
    destruct (P a) as [c|]; cbn [bind]; [|reflexivity].
    destruct (mapM P l) as [cs|]; cbn [bind]; [|reflexivity].
    cbn [combine flat_map fst snd]. now rewrite app_assoc.
Qed.

Section BatchFacts.

Variable number_to_string : float -> jsstring.

Local Abbreviation plan := (FlyerGenerator.plan number_to_string).

Lemma attempt_outcome (W : FlyerGenerator.World) (i : nat)
  (c : FlyerGenerator.Cell) (flyers : list GeneratedFlyer) :
  FlyerGenerator.attempt W i c flyers = flyers ++ option_list (outcome W i c).
Proof.
  unfold FlyerGenerator.attempt, outcome.
  destruct (FlyerGenerator.cell_variation c) as [tv|]; [|now rewrite app_nil_r].
  destruct (FlyerGenerator.value_truthy tv); [|now rewrite app_nil_r].
  destruct (ImageGenerator.generateFlyer _ _ _); [reflexivity|].
  now rewrite app_nil_r.
Qed.

(** What a planned cell holds. *)
Lemma plan_Ok_inv (config : PromoConfig) (vars : list value) (i : nat)
  (format : Format) (c : FlyerGenerator.Cell) :
  plan config vars i format = Ok c ->
  FlyerGenerator.cell_variation c = FlyerGenerator.cycle vars i
  /\ FlyerGenerator.cell_color c = Offline.color_at config i
  /\ FlyerGenerator.cell_format c = format
  /\ backgroundColor (FlyerGenerator.cell_canvas c) = Offline.color_at config i
  /\ width (FlyerGenerator.cell_canvas c)
     = Size.width (size_of (sizes config) format)
  /\ height (FlyerGenerator.cell_canvas c)
     = Size.height (size_of (sizes config) format)
  /\ exists tone,
       FlyerGenerator.tone_label number_to_string
         (FlyerGenerator.cycle vars i) = Ok tone
       /\ FlyerGenerator.cell_filename c
          = js "flyer_" ++ decimal (i + 1) ++ js "_" ++ tone ++ js "_"
            ++ format_name format ++ js ".png".
Proof.
  unfold FlyerGenerator.plan.
  destruct (FlyerGenerator.tone_label number_to_string
              (FlyerGenerator.cycle vars i)) as [tone|]; [|discriminate].
  cbn [bind]. intros [= <-].
  cbn [FlyerGenerator.cell_variation FlyerGenerator.cell_color
       FlyerGenerator.cell_format FlyerGenerator.cell_canvas
       FlyerGenerator.cell_filename backgroundColor width height].
  repeat split. exists tone. split; reflexivity.
Qed.

(** Planning a cell throws only on its file name. *)
Lemma plan_Throw_inv (config : PromoConfig) (vars : list value) (i : nat)
  (format : Format) (e : exn) :
  plan config vars i format = Throw e ->
  FlyerGenerator.tone_label number_to_string (FlyerGenerator.cycle vars i)
  = Throw e.
Proof.
  unfold FlyerGenerator.plan.
  destruct (FlyerGenerator.tone_label number_to_string
              (FlyerGenerator.cycle vars i)); cbn [bind];
    [discriminate | intros [= ->]; reflexivity].
Qed.

(** The loop over the cells of [generateVariations]. *)
Lemma loop_outcomes (W : FlyerGenerator.World) (config : PromoConfig)
  (vars : list value) (cells : list nat) :
  fold_left
    (fun (so_far : result (list GeneratedFlyer)) i =>
       flyers <- so_far ;;
       let format := Facebook in
       cell <- plan config vars i format ;;
       Ok (FlyerGenerator.attempt W i cell flyers))
    cells (Ok [])
  = (cs <- mapM (fun i => plan config vars i Facebook) cells ;;
     Ok (flat_map (fun ic => option_list (outcome W (fst ic) (snd ic)))
           (combine cells cs))).
Proof.
  rewrite (loop_run (fun i => plan config vars i Facebook)
             (fun i c => option_list (outcome W i c))).
  - reflexivity.
  - intros so_far i. destruct so_far; cbn [bind]; [|reflexivity].
    destruct (plan config vars i Facebook); cbn [bind]; [|reflexivity].
    now rewrite attempt_outcome.
Qed.

(** The loop over the formats of one cell of [generateForAllFormats]. *)
Lemma formats_outcomes (W : FlyerGenerator.World) (config : PromoConfig)
  (vars : list value) (i : nat) (formats : list Format)
  (so_far : result (list GeneratedFlyer)) :
  fold_left
    (fun (so_far : result (list GeneratedFlyer)) format =>
       flyers <- so_far ;;
       cell <- plan config vars i format ;;
       Ok (FlyerGenerator.attempt W i cell flyers))
    formats so_far
  = (flyers <- so_far ;;
     row <- mapM (plan config vars i) formats ;;
     Ok (flyers ++ flat_map (fun c => option_list (outcome W i c)) row)).
Proof.
  rewrite (loop_run (plan config vars i)
             (fun _ c => option_list (outcome W i c))).
  - destruct so_far; cbn [bind]; [|reflexivity].
    destruct (mapM (plan config vars i) formats) as [row|] eqn:E;
      cbn [bind]; [|reflexivity].
    cbn [fst snd].
    rewrite (flat_map_combine_snd (fun c => option_list (outcome W i c)));
      [reflexivity | exact (mapM_length _ _ _ E)].
  - intros acc format. destruct acc; cbn [bind]; [|reflexivity].
    destruct (plan config vars i format); cbn [bind]; [|reflexivity].
    now rewrite attempt_outcome.
Qed.

Lemma all_formats_outcomes (W : FlyerGenerator.World) (config : PromoConfig)
  (vars : list value) (cells : list nat) :
  fold_left
    (fun (so_far : result (list GeneratedFlyer)) i =>
       fold_left
         (fun (so_far : result (list GeneratedFlyer)) format =>
            flyers <- so_far ;;
            cell <- plan config vars i format ;;
            Ok (FlyerGenerator.attempt W i cell flyers))
         [Facebook; Instagram; Story] so_far)
    cells (Ok [])
  = (rows <- mapM (fun i => mapM (plan config vars i)
                              [Facebook; Instagram; Story]) cells ;;
     Ok (flat_map
           (fun ir =>
              flat_map (fun c => option_list (outcome W (fst ir) c)) (snd ir))
           (combine cells rows))).
Proof.
  rewrite (loop_run
             (fun i => mapM (plan config vars i) [Facebook; Instagram; Story])
             (fun i row => flat_map (fun c => option_list (outcome W i c)) row)).
  - reflexivity.
  - intros so_far i. apply formats_outcomes.
Qed.

Lemma ensureOutputDirectory_cases (W : FlyerGenerator.World) :
  FlyerGenerator.ensureOutputDirectory W = Ok tt
  \/ exists code,
       FlyerGenerator.mkdir W = FlyerGenerator.MkdirError code
       /\ code <> Some (js "EEXIST")
       /\ FlyerGenerator.ensureOutputDirectory W = Throw (MkdirFailed code).
Proof.
  unfold FlyerGenerator.ensureOutputDirectory.
  destruct (FlyerGenerator.mkdir W) as [|[c|]]; auto.
  - destruct (jseqb c (js "EEXIST")) eqn:E; auto.
    right. exists (Some c). repeat split; auto.
    intros [= ->]. apply jseqb_neq in E. auto.
  - right. exists None. repeat split; auto. discriminate.
Qed.

(** The shape of a whole run of [generateVariations]. *)
Lemma generateVariations_run (W : FlyerGenerator.World) (config : PromoConfig)
  (quantity : Z) :
  exists vars,
    TextGenerator.generateVariations config quantity (js "English")
      (FlyerGenerator.completion W) = Ok vars
    /\ FlyerGenerator.generateVariations number_to_string W config quantity
       = match FlyerGenerator.ensureOutputDirectory W with
         | Throw e => Throw e
         | Ok _ =>
           match vars with
           | [] => Throw NoTextVariations
           | _ :: _ =>
             cells <- mapM (fun i => plan config vars i Facebook)
                        (seq 0 (Z.to_nat quantity)) ;;
             Ok (flat_map
                   (fun ic => option_list (outcome W (fst ic) (snd ic)))
                   (combine (seq 0 (Z.to_nat quantity)) cells))
           end
         end.
Proof.
  destruct (generateVariations_total config quantity (js "English")
              (FlyerGenerator.completion W)) as (vars & Hv).
  exists vars. split; [exact Hv|].
  unfold FlyerGenerator.generateVariations.
  destruct (FlyerGenerator.ensureOutputDirectory W); cbn [bind]; [|reflexivity].
  rewrite Hv. cbn [bind].
  destruct vars as [|v vars]; [reflexivity|].
  cbn [length Nat.eqb]. apply loop_outcomes.
Qed.

Lemma generateForAllFormats_run (W : FlyerGenerator.World)
  (config : PromoConfig) (quantity : Z) :
  exists vars,
    TextGenerator.generateVariations config quantity (js "English")
      (FlyerGenerator.completion W) = Ok vars
    /\ FlyerGenerator.generateForAllFormats number_to_string W config quantity
       = match FlyerGenerator.ensureOutputDirectory W with
         | Throw e => Throw e
         | Ok _ =>
           match vars with
           | [] => Throw NoTextVariations
           | _ :: _ =>
             rows <- mapM (fun i => mapM (plan config vars i)
                                      [Facebook; Instagram; Story])
                       (seq 0 (Z.to_nat quantity)) ;;
             Ok (flat_map
                   (fun ir =>
                      flat_map (fun c => option_list (outcome W (fst ir) c))
                        (snd ir))
                   (combine (seq 0 (Z.to_nat quantity)) rows))
           end
         end.
Proof.
  destruct (generateVariations_total config quantity (js "English")
              (FlyerGenerator.completion W)) as (vars & Hv).
  exists vars. split; [exact Hv|].
  unfold FlyerGenerator.generateForAllFormats.
  destruct (FlyerGenerator.ensureOutputDirectory W); cbn [bind]; [|reflexivity].
  rewrite Hv. cbn [bind].
  destruct vars as [|v vars]; [reflexivity|].
  cbn [length Nat.eqb]. apply all_formats_outcomes.
Qed.

(** A cell whose rasterisation fails contributes nothing. *)
Lemma outcome_raster_fails (W : FlyerGenerator.World) (i : nat)
  (c : FlyerGenerator.Cell) :
  FlyerGenerator.raster W i (FlyerGenerator.cell_format c) = false ->
  outcome W i c = None.
Proof.
  intros H. unfold outcome, ImageGenerator.generateFlyer. rewrite H.
  destruct (FlyerGenerator.cell_variation c) as [tv|]; [|reflexivity].
  destruct (FlyerGenerator.value_truthy tv); [|reflexivity].
  destruct (ImageGenerator.createSVG _ _); reflexivity.
Qed.

(** A cell whose composition and rasterisation both succeed contributes
    its record. *)
Lemma outcome_renders (W : FlyerGenerator.World) (i : nat)
  (c : FlyerGenerator.Cell) (tv : value) (svg : ImageGenerator.Svg) :
  FlyerGenerator.cell_variation c = Some tv ->
  ImageGenerator.createSVG tv (FlyerGenerator.cell_canvas c) = Ok svg ->
  FlyerGenerator.raster W i (FlyerGenerator.cell_format c) = true ->
  outcome W i c
  = Some {| filename := FlyerGenerator.cell_filename c;
            textVariation := tv;
            color := FlyerGenerator.cell_color c;
            format := FlyerGenerator.cell_format c |}.
Proof.
  intros Hv Hs Hr. unfold outcome, ImageGenerator.generateFlyer.
  rewrite Hv, Hs, Hr.
  assert (Ht : FlyerGenerator.value_truthy tv = true).
  { unfold ImageGenerator.createSVG in Hs.
    destruct tv; try discriminate. reflexivity. }
  rewrite Ht. reflexivity.
Qed.

End BatchFacts.
Lemma cycle_nonempty {A} (l : list A) (i : nat) :
  l <> [] -> FlyerGenerator.cycle l i = nth_error l (i mod length l).
Proof. unfold FlyerGenerator.cycle. destruct l; [congruence | reflexivity]. Qed.

Lemma cycle_some {A} (l : list A) (i : nat) (a : A) :
  nth_error l (i mod length l) = Some a -> FlyerGenerator.cycle l i = Some a.
Proof.
  intros H. rewrite cycle_nonempty; [exact H|].
  intros ->. destruct (i mod _)%nat; discriminate.
Qed.

Lemma outcome_fields (W : FlyerGenerator.World) (i : nat)
  (c : FlyerGenerator.Cell) (f : GeneratedFlyer) :
  outcome W i c = Some f ->
  FlyerGenerator.cell_variation c = Some (textVariation f)
  /\ color f = FlyerGenerator.cell_color c
  /\ format f = FlyerGenerator.cell_format c
  /\ filename f = FlyerGenerator.cell_filename c.
Proof.
  unfold outcome.
  destruct (FlyerGenerator.cell_variation c) as [tv|]; [|discriminate].
  destruct (FlyerGenerator.value_truthy tv); [|discriminate].
  destruct (ImageGenerator.generateFlyer _ _ _); [|discriminate].
  intros [= <-]. auto.
Qed.

Lemma bind_throws {A B} (r : result A) (k : A -> result B) (e : exn) :
  bind r k = Throw e -> r = Throw e \/ exists a, r = Ok a /\ k a = Throw e.
Proof.
  destruct r as [a|e']; cbn [bind].
  - intros H. right. exists a. auto.
  - intros [= <-]. left. reflexivity.
Qed.

(** The only error of the conversion to a string is a TypeError. *)
Lemma to_string_throws (number_to_string : float -> jsstring) :
  forall (v : value) (e : exn),
    FlyerGenerator.to_string number_to_string v = Throw e -> e = TypeError.
Proof.
  fix IH 1. intros [|[]|x|s|items|fields] e; cbn [FlyerGenerator.to_string];
    try discriminate.
  - set (J := fix join (l : list value) : result jsstring :=
                match l with
                | [] => Ok []
                | x :: r =>
                  head <- match x with
                          | VNull => Ok []
                          | _ => FlyerGenerator.to_string number_to_string x
                          end ;;
                  tail <- match r with
                          | [] => Ok []
                          | _ :: _ => rest <- join r ;; Ok (js "," ++ rest)
                          end ;;
                  Ok (head ++ tail)
                end).
    revert e. revert items. fix IHr 1. intros [|x r] e; [discriminate|].
    change (J (x :: r))
      with (head <- match x with
                    | VNull => Ok []
                    | _ => FlyerGenerator.to_string number_to_string x
                    end ;;
            tail <- match r with
                    | [] => Ok []
                    | _ :: _ => rest <- J r ;; Ok (js "," ++ rest)
                    end ;;
            Ok (head ++ tail)).
    intros H. apply bind_throws in H. destruct H as [H | (h & _ & H)].
    + assert (Hx : FlyerGenerator.to_string number_to_string x = Throw e).
      { clear - H. destruct x; try discriminate H; exact H. }
      exact (IH x e Hx).
    + apply bind_throws in H. destruct H as [H | (t & _ & H)];
        [|discriminate H].
      assert (Hr : J r = Throw e).
      { clear - H. destruct r as [|y r']; [discriminate H|].
        apply bind_throws in H. destruct H as [H | (t & _ & H)];
          [exact H | discriminate H]. }
      exact (IHr r e Hr).
  - destruct (get_field (js "toString") fields); [|discriminate].
    intros [= <-]. reflexivity.
Qed.

Lemma tone_label_throws (number_to_string : float -> jsstring)
  (tv : option value) (e : exn) :
  FlyerGenerator.tone_label number_to_string tv = Throw e -> e = TypeError.
Proof.
  unfold FlyerGenerator.tone_label.
  destruct (match tv with
            | Some (VObj fields) => get_field (js "tone") fields
            | _ => None
            end) as [t|]; [|discriminate].
  destruct (FlyerGenerator.value_truthy t); [|discriminate].
  apply to_string_throws.
Qed.

(** A string for a tone is written as it is. *)
Lemma tone_label_string (number_to_string : float -> jsstring)
  (fields : list (jsstring * value)) (s : jsstring) :
  get_field (js "tone") fields = Some (VStr s) -> s <> [] ->
  FlyerGenerator.tone_label number_to_string (Some (VObj fields)) = Ok s.
Proof.
  intros H Hs. unfold FlyerGenerator.tone_label. rewrite H.
  cbn [FlyerGenerator.value_truthy FlyerGenerator.to_string].
  destruct s; [congruence | reflexivity].
Qed.

Lemma In_cells {C} (W : FlyerGenerator.World) (P : nat -> result C)
  (o : nat -> C -> option GeneratedFlyer) (n : nat) (cells : list C)
  (f : GeneratedFlyer) :
  mapM P (seq 0 n) = Ok cells ->
  In f (flat_map (fun ic => option_list (o (fst ic) (snd ic)))
          (combine (seq 0 n) cells)) ->
  exists i c, (i < n)%nat /\ P i = Ok c /\ o i c = Some f.
Proof.
  intros Hm H. apply in_flat_map in H as ([i c] & Hic & Hf).
  cbn [fst snd] in Hf.
  pose proof (mapM_combine _ _ _ _ _ Hm Hic) as Hp.
  apply in_combine_l in Hic. apply in_seq in Hic.
  exists i, c. split; [lia|]. split; [exact Hp|].
  destruct (o i c); simpl in Hf; [|contradiction].
  destruct Hf as [-> | []]. reflexivity.
Qed.

Lemma In_rows {C} (W : FlyerGenerator.World)
  (P : nat -> Format -> result C)
  (o : nat -> C -> option GeneratedFlyer) (formats : list Format) (n : nat)
  (rows : list (list C)) (f : GeneratedFlyer) :
  mapM (fun i => mapM (P i) formats) (seq 0 n) = Ok rows ->
  In f (flat_map
          (fun ir => flat_map (fun c => option_list (o (fst ir) c)) (snd ir))
          (combine (seq 0 n) rows)) ->
  exists i format c,
    (i < n)%nat /\ In format formats /\ P i format = Ok c /\ o i c = Some f.
Proof.
  intros Hm H. apply in_flat_map in H as ([i row] & Hir & Hf).
  cbn [fst snd] in Hf.
  pose proof (mapM_combine _ _ _ _ _ Hm Hir) as Hrow.
  apply in_combine_l in Hir. apply in_seq in Hir.
  apply in_flat_map in Hf as (c & Hc & Hf).
  apply In_nth_error in Hc. destruct Hc as [k Hk].
  assert (Hlen : length row = length formats)
    by exact (mapM_length _ _ _ Hrow).
  destruct (nth_error formats k) as [format|] eqn:Ek.
  2:{ apply nth_error_None in Ek.
      assert (k < length row)%nat by (apply nth_error_Some; congruence).
      lia. }
  exists i, format, c. split; [lia|]. split; [exact (nth_error_In _ _ Ek)|].
  split; [exact (mapM_nth _ _ _ _ _ _ Hrow Ek Hk)|].
  destruct (o i c); simpl in Hf; [|contradiction].
  destruct Hf as [-> | []]. reflexivity.
Qed.

Lemma generateVariations_Ok_inv (number_to_string : float -> jsstring)
  (W : FlyerGenerator.World) (config : PromoConfig) (quantity : Z)
  (flyers : list GeneratedFlyer) :
  FlyerGenerator.generateVariations number_to_string W config quantity
  = Ok flyers ->
  exists vars cells,
    TextGenerator.generateVariations config quantity (js "English")
      (FlyerGenerator.completion W) = Ok vars
    /\ vars <> []
    /\ mapM (fun i => FlyerGenerator.plan number_to_string config vars i
                        Facebook)
         (seq 0 (Z.to_nat quantity)) = Ok cells
    /\ flyers
       = flat_map (fun ic => option_list (outcome W (fst ic) (snd ic)))
           (combine (seq 0 (Z.to_nat quantity)) cells).
Proof.
  destruct (generateVariations_run number_to_string W config quantity)
    as (vars & Hv & ->).
  destruct (FlyerGenerator.ensureOutputDirectory W); [|discriminate].
  destruct vars; [discriminate|].
  destruct (mapM _ (seq 0 (Z.to_nat quantity))) as [cells|] eqn:Em;
    cbn [bind]; [|discriminate].
  intros [= <-]. exists (v :: vars), cells.
  split; [exact Hv|]. split; [discriminate|]. split; [exact Em | reflexivity].
Qed.

Lemma generateForAllFormats_Ok_inv (number_to_string : float -> jsstring)
  (W : FlyerGenerator.World) (config : PromoConfig) (quantity : Z)
  (flyers : list GeneratedFlyer) :
  FlyerGenerator.generateForAllFormats number_to_string W config quantity
  = Ok flyers ->
  exists vars rows,
    TextGenerator.generateVariations config quantity (js "English")
      (FlyerGenerator.completion W) = Ok vars
    /\ vars <> []
    /\ mapM (fun i => mapM (FlyerGenerator.plan number_to_string config vars i)
                        [Facebook; Instagram; Story])
         (seq 0 (Z.to_nat quantity)) = Ok rows
    /\ flyers
       = flat_map
           (fun ir =>
              flat_map (fun c => option_list (outcome W (fst ir) c)) (snd ir))
           (combine (seq 0 (Z.to_nat quantity)) rows).
Proof.
  destruct (generateForAllFormats_run number_to_string W config quantity)
    as (vars & Hv & ->).
  destruct (FlyerGenerator.ensureOutputDirectory W); [|discriminate].
  destruct vars; [discriminate|].
  destruct (mapM _ (seq 0 (Z.to_nat quantity))) as [rows|] eqn:Em;
    cbn [bind]; [|discriminate].
  intros [= <-]. exists (v :: vars), rows.
  split; [exact Hv|]. split; [discriminate|]. split; [exact Em | reflexivity].
Qed.

(** Every record of a resolved batch is the outcome of the cell planned
    for some index below the quantity. *)
Lemma In_batch (number_to_string : float -> jsstring)
  (W : FlyerGenerator.World) (config : PromoConfig) (quantity : Z)
  (flyers : list GeneratedFlyer) (f : GeneratedFlyer) :
  FlyerGenerator.generateVariations number_to_string W config quantity
  = Ok flyers ->
  In f flyers ->
  exists vars i cell,
    TextGenerator.generateVariations config quantity (js "English")
      (FlyerGenerator.completion W) = Ok vars
    /\ vars <> []
    /\ (i < Z.to_nat quantity)%nat
    /\ FlyerGenerator.plan number_to_string config vars i Facebook = Ok cell
    /\ outcome W i cell = Some f.
Proof.
  intros H Hin. apply generateVariations_Ok_inv in H.
  destruct H as (vars & cells & Hv & Hne & Hm & ->).
  apply (In_cells W _ _ _ _ _ Hm) in Hin. destruct Hin as (i & c & Hi & Hp & Ho).
  exists vars, i, c. auto.
Qed.

Lemma In_batch_formats (number_to_string : float -> jsstring)
  (W : FlyerGenerator.World) (config : PromoConfig) (quantity : Z)
  (flyers : list GeneratedFlyer) (f : GeneratedFlyer) :
  FlyerGenerator.generateForAllFormats number_to_string W config quantity
  = Ok flyers ->
  In f flyers ->
  exists vars i format cell,
    TextGenerator.generateVariations config quantity (js "English")
      (FlyerGenerator.completion W) = Ok vars
    /\ vars <> []
    /\ (i < Z.to_nat quantity)%nat
    /\ FlyerGenerator.plan number_to_string config vars i format = Ok cell
    /\ outcome W i cell = Some f.
Proof.
  intros H Hin. apply generateForAllFormats_Ok_inv in H.
  destruct H as (vars & rows & Hv & Hne & Hm & ->).
  apply (In_rows W (FlyerGenerator.plan number_to_string config vars)
           (outcome W) _ _ _ _ Hm) in Hin.
  destruct Hin as (i & format & c & Hi & _ & Hp & Ho).
  exists vars, i, format, c. auto.
Qed.

(** C3 (as amended): in every batch a cell whose render fails is skipped
    and the others are still processed, so that the call returns the
    records of exactly the cells that rendered, in order.  When the tone
    of every cell can be written into its file name, the call throws only
    when the output directory cannot be created (with a code other than
    EEXIST) or when the acquired list of text variations is empty.  The
    one other throw is the TypeError of a file name whose tone has no
    string form, raised outside the [try] of the loop. *)
Theorem batch_partial_success (number_to_string : float -> jsstring)
  (W : FlyerGenerator.World) (config : PromoConfig) (quantity : Z) :
  exists vars,
    TextGenerator.generateVariations config quantity (js "English")
      (FlyerGenerator.completion W) = Ok vars
    /\ (forall cells,
          FlyerGenerator.ensureOutputDirectory W = Ok tt -> vars <> [] ->
          mapM (fun i => FlyerGenerator.plan number_to_string config vars i
                           Facebook)
            (seq 0 (Z.to_nat quantity)) = Ok cells ->
          FlyerGenerator.generateVariations number_to_string W config quantity
          = Ok (flat_map
                  (fun ic => option_list (outcome W (fst ic) (snd ic)))
                  (combine (seq 0 (Z.to_nat quantity)) cells)))
    /\ (forall i c,
          FlyerGenerator.raster W i (FlyerGenerator.cell_format c) = false ->
          outcome W i c = None)
    /\ (FlyerGenerator.ensureOutputDirectory W = Ok tt /\ vars = [] ->
        FlyerGenerator.generateVariations number_to_string W config quantity
        = Throw NoTextVariations)
    /\ (forall e,
          (forall i,
             (i < Z.to_nat quantity)%nat ->
             exists tone,
               FlyerGenerator.tone_label number_to_string
                 (FlyerGenerator.cycle vars i) = Ok tone) ->
          FlyerGenerator.generateVariations number_to_string W config quantity
          = Throw e ->
          (e = NoTextVariations /\ vars = [])
          \/ (exists code,
                e = MkdirFailed code
                /\ FlyerGenerator.mkdir W = FlyerGenerator.MkdirError code
                /\ code <> Some (js "EEXIST")))
    /\ (forall e,
          FlyerGenerator.generateVariations number_to_string W config quantity
          = Throw e ->
          (e = NoTextVariations /\ vars = [])
          \/ (exists code,
                e = MkdirFailed code
                /\ FlyerGenerator.mkdir W = FlyerGenerator.MkdirError code
                /\ code <> Some (js "EEXIST"))
          \/ (e = TypeError /\ vars <> []
              /\ exists i,
                   (i < Z.to_nat quantity)%nat
                   /\ FlyerGenerator.tone_label number_to_string
                        (FlyerGenerator.cycle vars i) = Throw TypeError)).
Proof.
  destruct (generateVariations_run number_to_string W config quantity)
    as (vars & Hv & Hrun).
  exists vars. split; [exact Hv|]. rewrite Hrun.
  assert (Hthrow : forall e,
            match FlyerGenerator.ensureOutputDirectory W with
            | Throw e0 => Throw e0
            | Ok _ =>
              match vars with
              | [] => Throw NoTextVariations
              | _ :: _ =>
                cells <- mapM (fun i => FlyerGenerator.plan number_to_string
                                          config vars i Facebook)
                           (seq 0 (Z.to_nat quantity)) ;;
                Ok (flat_map
                      (fun ic => option_list (outcome W (fst ic) (snd ic)))
                      (combine (seq 0 (Z.to_nat quantity)) cells))
              end
            end = Throw e ->
            (e = NoTextVariations /\ vars = [])
            \/ (exists code,
                  e = MkdirFailed code
                  /\ FlyerGenerator.mkdir W = FlyerGenerator.MkdirError code
                  /\ code <> Some (js "EEXIST"))
            \/ (e = TypeError /\ vars <> []
                /\ exists i,
                     (i < Z.to_nat quantity)%nat
                     /\ FlyerGenerator.tone_label number_to_string
                          (FlyerGenerator.cycle vars i) = Throw TypeError)).
  { intros e.
    destruct (ensureOutputDirectory_cases W) as [-> | (code & Hm & Hc & ->)].
    + destruct vars as [|v vars']; [intros [= <-]; left; auto|].
      destruct (mapM _ (seq 0 (Z.to_nat quantity))) as [cells|e'] eqn:Em;
        cbn [bind]; [discriminate|].
      intros [= <-]. right. right.
      apply mapM_throws in Em. destruct Em as (i & Hi & Hp).
      apply in_seq in Hi. apply plan_Throw_inv in Hp.
      pose proof (tone_label_throws _ _ _ Hp) as ->.
      split; [reflexivity|]. split; [discriminate|].
      exists i. split; [lia | exact Hp].
    + intros [= <-]. right. left. exists code. auto. }
  split; [|split; [|split; [|split]]].
  - intros cells -> Hne Hm. destruct vars; [congruence|].
    rewrite Hm. reflexivity.
  - intros i c. apply outcome_raster_fails.
  - intros [-> ->]. reflexivity.
  - intros e Hall He.
    destruct (Hthrow e He) as [H | [H | (_ & _ & i & Hi & Ht)]]; auto.
    destruct (Hall i Hi) as (tone & Hl). congruence.
  - exact Hthrow.
Qed.

Lemma batch_partial_success_witness :
  exists flyers,
    FlyerGenerator.generateVariations Sample.no_numbers Sample.offline
      Sample.pizza 4 = Ok flyers
    /\ map filename flyers
       = [js "flyer_1_urgent_facebook.png"; js "flyer_3_casual_facebook.png";
          js "flyer_4_fun_facebook.png"].
Proof.
  destruct (batch_partial_success Sample.no_numbers Sample.offline
              Sample.pizza 4) as (vars & Hv & H & _).
  vm_compute in Hv. injection Hv as <-.
  match type of H with
  | forall cells, _ -> _ -> mapM ?P ?l = _ -> _ =>
    destruct (mapM P l) as [cells|] eqn:Em; [|vm_compute in Em; discriminate]
  end.
  eexists. split.
  - apply (H cells); [reflexivity | discriminate | reflexivity].
  - vm_compute in Em. injection Em as <-. vm_compute. reflexivity.
Defined.

(** C3, as stated, fails: the batch also throws when the output directory
    cannot be created, although the text variations are there. *)
Lemma batch_throws_on_mkdir :
  FlyerGenerator.generateVariations Sample.no_numbers Sample.read_only_disk
    Sample.pizza 3 = Throw (MkdirFailed (Some (js "EACCES")))
  /\ exists vars,
       TextGenerator.generateVariations Sample.pizza 3 (js "English")
         (FlyerGenerator.completion Sample.read_only_disk) = Ok vars
       /\ length vars = 3%nat.
Proof.
  split; [vm_compute; reflexivity|].
  eexists. split; [vm_compute; reflexivity | reflexivity].
Qed.

(** The third way for a batch to throw: the reply holds a variation whose
    tone is an object with a key [toString] of its own. *)
Lemma batch_throws_on_tone :
  TextGenerator.generateVariations Sample.pizza 3 (js "English")
    (FlyerGenerator.completion Sample.stubborn_world)
  = Ok [Sample.stubborn_tone]
  /\ FlyerGenerator.ensureOutputDirectory Sample.stubborn_world = Ok tt
  /\ FlyerGenerator.generateVariations Sample.no_numbers Sample.stubborn_world
       Sample.pizza 3 = Throw TypeError
  /\ FlyerGenerator.generateForAllFormats Sample.no_numbers
       Sample.stubborn_world Sample.pizza 3 = Throw TypeError.
Proof. repeat split; vm_compute; reflexivity. Qed.
(** *** Which cell a record comes from *)

Lemma cells_nth {C} (P : nat -> result C) (n s k i : nat) (cells : list C)
  (c : C) :
  mapM P (seq s n) = Ok cells ->
  nth_error (combine (seq s n) cells) k = Some (i, c) ->
  i = (s + k)%nat /\ nth_error cells k = Some c /\ P i = Ok c.
Proof.
  revert s k cells. induction n as [|n IH]; intros s k cells; cbn [seq mapM].
  - intros [= <-]. destruct k; discriminate.
  - destruct (P s) as [c0|] eqn:E; [|discriminate]. cbn [bind].
    destruct (mapM P (seq (S s) n)) as [cs|] eqn:Em; [|discriminate].
    cbn [bind]. intros [= <-]. destruct k as [|k]; cbn [combine nth_error].
    + intros [= <- <-]. rewrite Nat.add_0_r. auto.
    + intros H. destruct (IH (S s) k cs Em H) as (-> & Hc & Hp).
      split; [lia | auto].
Qed.

(** A list made of blocks of at most [m] elements that has [m] elements
    for each block has every block full, each at its place. *)
Lemma flat_map_blocks {A B} (g : A -> list B) (m : nat) (l : list A) :
  (forall a, In a l -> length (g a) <= m)%nat ->
  length (flat_map g l) = (m * length l)%nat ->
  forall i a k,
    nth_error l i = Some a -> (k < m)%nat ->
    nth_error (flat_map g l) (m * i + k) = nth_error (g a) k
    /\ length (g a) = m.
Proof.
  induction l as [|x l IH]; intros Hle Hlen i a k Hi Hk.
  - destruct i; discriminate.
  - cbn [flat_map length] in Hlen. rewrite length_app in Hlen.
    assert (Hx : (length (g x) <= m)%nat) by (apply Hle; now left).
    assert (Hrest : (length (flat_map g l) <= m * length l)%nat).
    { clear - Hle. induction l as [|y l IHl]; simpl; [lia|].
      rewrite length_app.
      assert (length (g y) <= m)%nat by (apply Hle; right; now left).
      assert (length (flat_map g l) <= m * length l)%nat.
      { apply IHl. intros b [Hb | Hb]; apply Hle; [now left | right; now right]. }
      lia. }
    assert (Ex : length (g x) = m) by lia.
    assert (El : length (flat_map g l) = (m * length l)%nat) by lia.
    cbn [flat_map]. destruct i as [|i]; cbn [nth_error] in Hi.
    + injection Hi as <-. rewrite Nat.mul_0_r, Nat.add_0_l.
      rewrite nth_error_app1 by lia. auto.
    + rewrite nth_error_app2 by lia.
      replace (m * S i + k - length (g x))%nat with (m * i + k)%nat by lia.
      apply IH; auto. intros b Hb. apply Hle. now right.
Qed.

Lemma nth_error_option_list {B} (o : option B) (b : B) :
  nth_error (option_list o) 0 = Some b -> o = Some b.
Proof. destruct o; simpl; congruence. Qed.

Lemma length_option_list {A} (o : option A) : (length (option_list o) <= 1)%nat.
Proof. destruct o; simpl; lia. Qed.

Lemma length_row_outcomes (W : FlyerGenerator.World) (i : nat)
  (row : list FlyerGenerator.Cell) :
  (length (flat_map (fun c => option_list (outcome W i c)) row)
   <= length row)%nat.
Proof.
  induction row as [|c row IH]; simpl; [lia|].
  rewrite length_app. pose proof (length_option_list (outcome W i c)). lia.
Qed.

(** The variation and the colour a record carries are those of the index
    its cell was planned for. *)
Lemma record_of_cell (number_to_string : float -> jsstring)
  (W : FlyerGenerator.World) (config : PromoConfig) (vars : list value)
  (i : nat) (fmt : Format) (c : FlyerGenerator.Cell) (f : GeneratedFlyer) :
  vars <> [] ->
  FlyerGenerator.plan number_to_string config vars i fmt = Ok c ->
  outcome W i c = Some f ->
  nth_error vars (i mod length vars) = Some (textVariation f)
  /\ color f = Offline.color_at config i
  /\ format f = fmt.
Proof.
  intros Hne Hp Ho.
  apply plan_Ok_inv in Hp. destruct Hp as (Hv & Hc & Hf & _).
  apply outcome_fields in Ho. destruct Ho as (Hv' & Hc' & Hf' & _).
  rewrite <- cycle_nonempty by exact Hne.
  rewrite <- Hv, Hv', Hc', Hc, Hf', Hf. auto.
Qed.

(** C5 (as amended): cell [i] of a batch uses the variation at
    [i mod variations.length] and the colour at [i mod colors.length], a
    missing or empty colour entry being replaced by [#3498DB]; with three
    colours the fourth and fifth cells take the first and the second
    colour again.  The result of either batch method is, cell by cell in
    the order of the indices, the outcome of the cell planned for that
    index, so that in a batch whose cells all rendered the record at
    position [i] (at position [3 i + k] for all formats) carries the
    variation and the colour of index [i]. *)
Theorem cells_cycle (number_to_string : float -> jsstring)
  (config : PromoConfig) :
  (forall vars i fmt cell,
     FlyerGenerator.plan number_to_string config vars i fmt = Ok cell ->
     (vars <> [] ->
      FlyerGenerator.cell_variation cell = nth_error vars (i mod length vars))
     /\ FlyerGenerator.cell_color cell = Offline.color_at config i
     /\ backgroundColor (FlyerGenerator.cell_canvas cell)
        = Offline.color_at config i)
  /\ (forall i c,
        nth_error (colors config) (i mod length (colors config)) = Some c ->
        Offline.color_at config i = if truthy c then c else js "#3498DB")
  /\ (forall c0 c1 c2,
        colors config = [c0; c1; c2] ->
        Offline.color_at config 3 = (if truthy c0 then c0 else js "#3498DB")
        /\ Offline.color_at config 4
           = (if truthy c1 then c1 else js "#3498DB"))
  /\ (forall W quantity flyers,
        FlyerGenerator.generateVariations number_to_string W config quantity
        = Ok flyers ->
        exists vars cells,
          TextGenerator.generateVariations config quantity (js "English")
            (FlyerGenerator.completion W) = Ok vars
          /\ vars <> []
          /\ length cells = Z.to_nat quantity
          /\ (forall i cell,
                nth_error cells i = Some cell ->
                FlyerGenerator.plan number_to_string config vars i Facebook
                = Ok cell)
          /\ flyers
             = flat_map (fun ic => option_list (outcome W (fst ic) (snd ic)))
                 (combine (seq 0 (Z.to_nat quantity)) cells)
          /\ (length flyers = Z.to_nat quantity ->
              forall i f,
                nth_error flyers i = Some f ->
                nth_error vars (i mod length vars) = Some (textVariation f)
                /\ color f = Offline.color_at config i))
  /\ (forall W quantity flyers,
        FlyerGenerator.generateForAllFormats number_to_string W config quantity
        = Ok flyers ->
        exists vars rows,
          TextGenerator.generateVariations config quantity (js "English")
            (FlyerGenerator.completion W) = Ok vars
          /\ vars <> []
          /\ length rows = Z.to_nat quantity
          /\ (forall i row,
                nth_error rows i = Some row ->
                mapM (FlyerGenerator.plan number_to_string config vars i)
                  [Facebook; Instagram; Story] = Ok row)
          /\ flyers
             = flat_map
                 (fun ir =>
                    flat_map (fun c => option_list (outcome W (fst ir) c))
                      (snd ir))
                 (combine (seq 0 (Z.to_nat quantity)) rows)
          /\ (length flyers = (3 * Z.to_nat quantity)%nat ->
              forall i k f,
                (k < 3)%nat ->
                nth_error flyers (3 * i + k) = Some f ->
                nth_error vars (i mod length vars) = Some (textVariation f)
                /\ color f = Offline.color_at config i
                /\ nth_error [Facebook; Instagram; Story] k
                   = Some (format f))).
Proof.
  assert (Hcolor : forall i c,
            nth_error (colors config) (i mod length (colors config)) = Some c ->
            Offline.color_at config i = if truthy c then c else js "#3498DB").
  { intros i c Hc. unfold Offline.color_at.
    rewrite (cycle_some _ _ _ Hc). reflexivity. }
  split; [|split; [|split; [|split]]].
  - intros vars i fmt cell Hp.
    apply plan_Ok_inv in Hp. destruct Hp as (Hv & Hc & _ & Hb & _).
    split; [|auto]. intros Hne. rewrite Hv. now apply cycle_nonempty.
  - exact Hcolor.
  - intros c0 c1 c2 E. split; apply Hcolor; rewrite E; reflexivity.
  - intros W quantity flyers Hrun.
    apply generateVariations_Ok_inv in Hrun.
    destruct Hrun as (vars & cells & Hv & Hne & Hm & ->).
    pose proof (mapM_length _ _ _ Hm) as Hlen. rewrite length_seq in Hlen.
    exists vars, cells.
    split; [exact Hv|]. split; [exact Hne|]. split; [exact Hlen|].
    split; [|split; [reflexivity|]].
    + intros i cell Hi.
      assert (Hlt : (i < Z.to_nat quantity)%nat).
      { rewrite <- Hlen. apply nth_error_Some. congruence. }
      refine (mapM_nth _ _ _ i i cell Hm _ Hi).
      rewrite nth_error_nth' with (d := 0%nat) by (rewrite length_seq; lia).
      rewrite seq_nth by lia. reflexivity.
    + intros Hfull i f Hf.
      assert (Hc : length (combine (seq 0 (Z.to_nat quantity)) cells)
                   = Z.to_nat quantity).
      { rewrite length_combine, length_seq. lia. }
      assert (Hi : (i < Z.to_nat quantity)%nat).
      { rewrite <- Hfull. apply nth_error_Some. congruence. }
      destruct (nth_error (combine (seq 0 (Z.to_nat quantity)) cells) i)
        as [[j c]|] eqn:Eic.
      2:{ apply nth_error_None in Eic. lia. }
      destruct (flat_map_blocks
                  (fun ic => option_list (outcome W (fst ic) (snd ic)))
                  1 (combine (seq 0 (Z.to_nat quantity)) cells))
        with (i := i) (a := (j, c)) (k := 0%nat) as [Hn _]; auto.
      { intros a _. apply length_option_list. }
      { rewrite Hc. lia. }
      replace (1 * i + 0)%nat with i in Hn by lia.
      rewrite Hf in Hn. symmetry in Hn. cbn [fst snd] in Hn.
      apply nth_error_option_list in Hn.
      destruct (cells_nth _ _ _ _ _ _ _ Hm Eic) as (-> & _ & Hp).
      cbn [Nat.add] in Hp, Hn.
      destruct (record_of_cell number_to_string W config vars i Facebook c f
                  Hne Hp Hn) as (H1 & H2 & _).
      auto.
  - intros W quantity flyers Hrun.
    apply generateForAllFormats_Ok_inv in Hrun.
    destruct Hrun as (vars & rows & Hv & Hne & Hm & ->).
    pose proof (mapM_length _ _ _ Hm) as Hlen. rewrite length_seq in Hlen.
    exists vars, rows.
    split; [exact Hv|]. split; [exact Hne|]. split; [exact Hlen|].
    split; [|split; [reflexivity|]].
    + intros i row Hi.
      assert (Hlt : (i < Z.to_nat quantity)%nat).
      { rewrite <- Hlen. apply nth_error_Some. congruence. }
      refine (mapM_nth _ _ _ i i row Hm _ Hi).
      rewrite nth_error_nth' with (d := 0%nat) by (rewrite length_seq; lia).
      rewrite seq_nth by lia. reflexivity.
    + intros Hfull i k f Hk Hf.
      assert (Hc : length (combine (seq 0 (Z.to_nat quantity)) rows)
                   = Z.to_nat quantity).
      { rewrite length_combine, length_seq. lia. }
      assert (Hi : (i < Z.to_nat quantity)%nat).
      { assert (3 * i + k < 3 * Z.to_nat quantity)%nat; [|lia].
        rewrite <- Hfull. apply nth_error_Some. congruence. }
      destruct (nth_error (combine (seq 0 (Z.to_nat quantity)) rows) i)
        as [[j row]|] eqn:Eir.
      2:{ apply nth_error_None in Eir. lia. }
      destruct (cells_nth _ _ _ _ _ _ _ Hm Eir) as (-> & _ & Hrow).
      cbn [Nat.add] in Hrow.
      pose proof (mapM_length _ _ _ Hrow) as Hrl. cbn [length] in Hrl.
      destruct (flat_map_blocks
                  (fun ir =>
                     flat_map (fun c => option_list (outcome W (fst ir) c))
                       (snd ir))
                  3 (combine (seq 0 (Z.to_nat quantity)) rows))
        with (i := i) (a := (i, row)) (k := k) as [Hn Hb]; auto.
      { intros [j r] Hin. cbn [fst snd].
        pose proof (mapM_combine _ _ _ _ _ Hm Hin) as Hr.
        apply mapM_length in Hr. cbn [length] in Hr.
        pose proof (length_row_outcomes W j r). lia. }
      { rewrite Hc. exact Hfull. }
      cbn [fst snd Nat.add] in Hn, Hb. rewrite Hf in Hn. symmetry in Hn.
      destruct (nth_error row k) as [c|] eqn:Ec.
      2:{ apply nth_error_None in Ec. lia. }
      destruct (flat_map_blocks (fun c => option_list (outcome W i c)) 1 row)
        with (i := k) (a := c) (k := 0%nat) as [Hn' _]; auto.
      { intros a _. apply length_option_list. }
      { lia. }
      replace (1 * k + 0)%nat with k in Hn' by lia.
      rewrite Hn in Hn'. symmetry in Hn'.
      apply nth_error_option_list in Hn'.
      destruct (nth_error [Facebook; Instagram; Story] k) as [fmt|] eqn:Ef.
      2:{ apply nth_error_None in Ef. simpl in Ef. lia. }
      pose proof (mapM_nth _ _ _ _ _ _ Hrow Ef Ec) as Hp.
      destruct (record_of_cell number_to_string W config vars i fmt c f
                  Hne Hp Hn') as (H1 & H2 & H3).
      rewrite H3. auto.
Qed.

Lemma cells_cycle_witness :
  exists flyers,
    FlyerGenerator.generateVariations Sample.no_numbers Sample.all_well
      (FlyerGenerator.quickConfig (js "Pizza") (js "50% off")
         [js "#3498DB"; js "#E74C3C"; js "#2ECC71"]) 5
    = Ok flyers
    /\ length flyers = 5%nat
    /\ (forall f, nth_error flyers 3 = Some f -> color f = js "#3498DB")
    /\ (forall f, nth_error flyers 4 = Some f -> color f = js "#E74C3C").
Proof.
  destruct (FlyerGenerator.generateVariations Sample.no_numbers
              Sample.all_well
              (FlyerGenerator.quickConfig (js "Pizza") (js "50% off")
                 [js "#3498DB"; js "#E74C3C"; js "#2ECC71"]) 5)
    as [flyers|] eqn:Erun; [|vm_compute in Erun; discriminate Erun].
  assert (Hlen : length flyers = 5%nat).
  { vm_compute in Erun. injection Erun as <-. reflexivity. }
  exists flyers. split; [reflexivity|]. split; [exact Hlen|].
  destruct (cells_cycle Sample.no_numbers
              (FlyerGenerator.quickConfig (js "Pizza") (js "50% off")
                 [js "#3498DB"; js "#E74C3C"; js "#2ECC71"]))
    as (_ & _ & _ & H & _).
  destruct (H Sample.all_well 5%Z flyers Erun)
    as (vars & cells & _ & _ & _ & _ & _ & Hpos).
  split; intros f Hf; apply (proj2 (Hpos Hlen _ f Hf)).
Defined.

(** C5, as stated, fails on an empty colour entry: with the colours
    ['', '#00FF00', '#0000FF'] and a quantity of 5 the fourth cell does
    not reuse [colors[0]], the empty string, but takes [#3498DB]. *)
Lemma cycle_skips_empty_colour :
  nth_error [[]; js "#00FF00"; js "#0000FF"] (3 mod 3) = Some []
  /\ exists flyers,
       FlyerGenerator.generateVariations Sample.no_numbers Sample.all_well
         (FlyerGenerator.quickConfig (js "Pizza") (js "50% off")
            [[]; js "#00FF00"; js "#0000FF"]) 5
       = Ok flyers
       /\ map color flyers
          = [js "#3498DB"; js "#00FF00"; js "#0000FF"; js "#3498DB";
             js "#00FF00"]
       /\ nth_error (map color flyers) 3 <> Some [].
Proof.
  split; [reflexivity|].
  eexists. split; [vm_compute; reflexivity|].
  split; [reflexivity | discriminate].
Qed.

(** C10: every record returned by [generateVariations] has the format
    [facebook] and was rendered on a canvas of the dimensions of
    [config.sizes.facebook]; so has every record returned by
    [generateCustomVariations], whose canvas is 1200 by 630. *)
Theorem facebook_only (number_to_string : float -> jsstring)
  (W : FlyerGenerator.World) :
  (forall config quantity flyers f,
     FlyerGenerator.generateVariations number_to_string W config quantity
     = Ok flyers ->
     In f flyers ->
     format f = Facebook
     /\ exists vars i cell,
          FlyerGenerator.plan number_to_string config vars i Facebook
          = Ok cell
          /\ (i < Z.to_nat quantity)%nat
          /\ outcome W i cell = Some f
          /\ width (FlyerGenerator.cell_canvas cell)
             = Size.width (facebook (sizes config))
          /\ height (FlyerGenerator.cell_canvas cell)
             = Size.height (facebook (sizes config)))
  /\ (forall product offer colors quantity flyers f,
        FlyerGenerator.generateCustomVariations number_to_string W product
          offer colors quantity = Ok flyers ->
        In f flyers ->
        format f = Facebook
        /\ exists vars i cell,
             FlyerGenerator.plan number_to_string
               (FlyerGenerator.quickConfig product offer colors) vars i
               Facebook
             = Ok cell
             /\ (i < Z.to_nat quantity)%nat
             /\ outcome W i cell = Some f
             /\ width (FlyerGenerator.cell_canvas cell) = 1200%float
             /\ height (FlyerGenerator.cell_canvas cell) = 630%float).
Proof.
  assert (Hmain : forall config quantity flyers f,
     FlyerGenerator.generateVariations number_to_string W config quantity
     = Ok flyers ->
     In f flyers ->
     format f = Facebook
     /\ exists vars i cell,
          FlyerGenerator.plan number_to_string config vars i Facebook
          = Ok cell
          /\ (i < Z.to_nat quantity)%nat
          /\ outcome W i cell = Some f
          /\ width (FlyerGenerator.cell_canvas cell)
             = Size.width (facebook (sizes config))
          /\ height (FlyerGenerator.cell_canvas cell)
             = Size.height (facebook (sizes config))).
  { intros config quantity flyers f Hrun Hin.
    destruct (In_batch _ _ _ _ _ _ Hrun Hin)
      as (vars & i & cell & _ & _ & Hi & Hp & Ho).
    pose proof (outcome_fields _ _ _ _ Ho) as (_ & _ & Hf & _).
    pose proof (plan_Ok_inv _ _ _ _ _ _ Hp) as (_ & _ & Hfmt & _ & Hw & Hh & _).
    split; [congruence|]. exists vars, i, cell. auto. }
  split.
  - exact Hmain.
  - intros product offer colors quantity flyers f Hrun Hin.
    unfold FlyerGenerator.generateCustomVariations in Hrun.
    exact (Hmain _ _ _ _ Hrun Hin).
Qed.

Lemma facebook_only_witness :
  exists flyers,
    FlyerGenerator.generateVariations Sample.no_numbers Sample.offline
      Sample.pizza 4 = Ok flyers
    /\ map format flyers = [Facebook; Facebook; Facebook]
    /\ forall f, In f flyers -> format f = Facebook.
Proof.
  eexists. split; [vm_compute; reflexivity|].
  split; [reflexivity|].
  intros f Hin.
  destruct (facebook_only Sample.no_numbers Sample.offline) as [H _].
  refine (proj1 (H Sample.pizza 4%Z _ f _ Hin)).
  vm_compute. reflexivity.
Defined.

(* ================================================================== *)
(** ** The compositor: word wrap *)
(* ================================================================== *)

Lemma len_le_mono (m n : nat) (x : intnum) :
  (m <= n)%nat -> len_le n x = true -> len_le m x = true.
Proof.
  destruct x as [|s|z]; simpl; auto.
  intros H E. apply Z.leb_le in E. apply Z.leb_le. lia.
Qed.

Section Wrap.

Variable charsPerLine : intnum.
Variable words : list jsstring.

Local Abbreviation line_ok := (WrapSpec.line_ok charsPerLine words).
Local Abbreviation overlong := (WrapSpec.overlong charsPerLine).

Lemma wrap_step_ok (lines : list jsstring) (cur w : jsstring) :
  Forall line_ok lines -> (cur = [] \/ line_ok cur) -> In w words ->
  Forall line_ok (fst (ImageGenerator.wrap_step charsPerLine (lines, cur) w))
  /\ line_ok (snd (ImageGenerator.wrap_step charsPerLine (lines, cur) w)).
Proof.
  intros Hl Hc Hw. unfold ImageGenerator.wrap_step.
  destruct (len_le (length (cur ++ w)) charsPerLine) eqn:E; cbn [fst snd].
  - split; [exact Hl|].
    destruct cur as [|x cur]; [left; exact Hw|].
    right. cbn [truthy]. change (js " ") with [32%N].
    rewrite <- E. f_equal.
    rewrite !length_app. cbn [length]. lia.
  - split; [|left; exact Hw].
    destruct cur as [|x cur]; [exact Hl|]. cbn [truthy].
    apply Forall_app. split; [exact Hl|].
    constructor; [|constructor].
    destruct Hc as [Hc | Hc]; [discriminate | exact Hc].
Qed.

Lemma wrap_fold_ok (ws : list jsstring) (st : list jsstring * jsstring) :
  incl ws words ->
  Forall line_ok (fst st) -> (snd st = [] \/ line_ok (snd st)) ->
  Forall line_ok
    (fst (fold_left (ImageGenerator.wrap_step charsPerLine) ws st))
  /\ (snd (fold_left (ImageGenerator.wrap_step charsPerLine) ws st) = []
      \/ line_ok (snd (fold_left (ImageGenerator.wrap_step charsPerLine) ws st))).
Proof.
  revert st; induction ws as [|w ws IH]; intros [lines cur] Hi Hl Hc.
  - simpl. auto.
  - cbn [fold_left]. cbn [fst snd] in Hl, Hc.
    destruct (wrap_step_ok lines cur w Hl Hc) as [H1 H2].
    { apply Hi. now left. }
    apply IH; auto.
    intros x Hx. apply Hi. now right.
Qed.

Lemma wrap_fold_keeps (ws : list jsstring) (st : list jsstring * jsstring) :
  let st' := fold_left (ImageGenerator.wrap_step charsPerLine) ws st in
  (forall l, In l (fst st) -> In l (fst st'))
  /\ (overlong (snd st) -> In (snd st) (fst st') \/ snd st' = snd st)
  /\ (forall w, In w ws -> overlong w -> In w (fst st') \/ snd st' = w).
Proof.
  revert st; induction ws as [|w ws IH]; intros [lines cur].
  - simpl. repeat split; auto. intros w [].
  - cbn [fold_left fst snd].
    assert (Hstep :
      (forall l, In l lines ->
         In l (fst (ImageGenerator.wrap_step charsPerLine (lines, cur) w)))
      /\ (overlong cur ->
          In cur (fst (ImageGenerator.wrap_step charsPerLine (lines, cur) w)))
      /\ (overlong w ->
          snd (ImageGenerator.wrap_step charsPerLine (lines, cur) w) = w)).
    { unfold ImageGenerator.wrap_step.
      destruct (len_le (length (cur ++ w)) charsPerLine) eqn:E; cbn [fst snd].
      - split; [auto|]. split.
        + intros [Hc _]. exfalso.
          rewrite (len_le_mono (length cur) (length (cur ++ w))) in Hc;
            [discriminate | rewrite length_app; lia | exact E].
        + intros [Hw _]. exfalso.
          rewrite (len_le_mono (length w) (length (cur ++ w))) in Hw;
            [discriminate | rewrite length_app; lia | exact E].
      - split; [|split].
        + intros l Hl. destruct (truthy cur); [apply in_or_app|]; auto.
        + intros [_ Hne]. apply truthy_nonempty in Hne. rewrite Hne.
          apply in_or_app. right. now left.
        + reflexivity. }
    destruct Hstep as (S1 & S2 & S3).
    destruct (IH (ImageGenerator.wrap_step charsPerLine (lines, cur) w))
      as (I1 & I2 & I3).
    cbv zeta. split; [|split].
    + intros l Hl. apply I1, S1, Hl.
    + intros Hc. left. apply I1, S2, Hc.
    + intros x [<- | Hx] Hlong.
      * specialize (S3 Hlong). rewrite S3 in I2. apply I2, Hlong.
      * apply I3; assumption.
Qed.

Lemma wrap_lines_unfold :
  exists st,
    st = fold_left (ImageGenerator.wrap_step charsPerLine) words ([], [])
    /\ ImageGenerator.wrap_lines charsPerLine words
       = if truthy (snd st) then fst st ++ [snd st] else fst st.
Proof.
  unfold ImageGenerator.wrap_lines. eexists. split; [reflexivity|].
  destruct (fold_left _ _ _). reflexivity.
Qed.

(** Every line [wrap_lines] emits is one of the words or at most one code
    unit over the threshold. *)
Lemma wrap_lines_bound (l : jsstring) :
  In l (ImageGenerator.wrap_lines charsPerLine words) -> line_ok l.
Proof.
  destruct wrap_lines_unfold as (st & Est & ->).
  destruct (wrap_fold_ok words ([], [])) as [H1 H2];
    auto using incl_refl.
  rewrite <- Est in H1, H2. rewrite Forall_forall in H1.
  destruct (truthy (snd st)) eqn:T; [|apply H1].
  intros H. apply in_app_or in H as [H | [<- | []]]; [now apply H1|].
  destruct H2 as [H2 | H2]; [rewrite H2 in T; discriminate | exact H2].
Qed.

(** A word over the threshold is not dropped: it is one of the lines. *)
Lemma wrap_lines_keeps_overlong (w : jsstring) :
  In w words -> overlong w ->
  In w (ImageGenerator.wrap_lines charsPerLine words).
Proof.
  intros Hw Hlong.
  destruct wrap_lines_unfold as (st & Est & ->).
  destruct (wrap_fold_keeps words ([], [])) as (_ & _ & H).
  specialize (H w Hw Hlong). rewrite <- Est in H.
  destruct H as [H | H].
  - destruct (truthy (snd st)); [apply in_or_app|]; auto.
  - rewrite H. destruct Hlong as [_ Hne].
    apply truthy_nonempty in Hne. rewrite Hne.
    apply in_or_app. right. now left.
Qed.

End Wrap.

(** C2: greedy word wrap against the threshold [charsPerLine].  The test
    that admits a word to the current line leaves the separating space out
    of the count, so a line can come out one code unit over the threshold
    although none of its words is.  On the 1200-pixel canvas the threshold
    is 53, and the description the fallback bank writes for the product
    Coffee in the tone fun, none of whose words is longer than 53, is
    emitted as a single line of 54.  With a font size of 10 and a width of
    30 the threshold is 5 and [ab cde] is emitted as one line of 6. *)
Theorem wrap_exceeds_threshold :
  (exists bank tv svg,
     TextGenerator.generateFallbackVariations Sample.coffee 4 (js "English")
     = Ok bank
     /\ nth_error bank 3 = Some tv
     /\ description tv
        = js "Get ready for fun with Coffee. Ideal for any occasion!"
     /\ ImageGenerator.createSVG (object_of tv) Sample.facebook_canvas = Ok svg
     /\ ImageGenerator.charsPerLine
          (ImageGenerator.descriptionSize
             (ImageGenerator.layout Sample.facebook_canvas))
          (width Sample.facebook_canvas * 0.8)%float
        = IInt 53
     /\ forallb (fun w => (length w <=? 53)%nat) (split 32 (description tv))
        = true
     /\ map ImageGenerator.run_text (ImageGenerator.description_runs svg)
        = [description tv]
     /\ length (description tv) = 54%nat)
  /\ ImageGenerator.charsPerLine 10 30 = IInt 5
  /\ split 32 (js "ab cde") = [js "ab"; js "cde"]
  /\ ImageGenerator.wrap_lines (IInt 5) [js "ab"; js "cde"] = [js "ab cde"]
  /\ map ImageGenerator.run_text
       (ImageGenerator.createMultilineText (js "ab cde") 0 0 10 (js "#000000") 30)
     = [js "ab cde"]
  /\ length (js "ab cde") = 6%nat.
Proof.
  split.
  - do 3 eexists.
    split; [vm_compute; reflexivity|].
    split; [reflexivity|].
    repeat split; vm_compute; reflexivity.
  - repeat split; vm_compute; reflexivity.
Qed.

(* ================================================================== *)
(** ** escapeXML *)
(* ================================================================== *)

Lemma replace_all_flat_map (c : code_unit) (rep s : jsstring) :
  replace_all c rep s
  = flat_map (fun x => if (x =? c)%N then rep else [x]) s.
Proof.
  induction s as [|x r IH]; simpl; [reflexivity|].
  destruct (x =? c)%N; rewrite IH; reflexivity.
Qed.

Lemma replace_all_app (c : code_unit) (rep a b : jsstring) :
  replace_all c rep (a ++ b) = replace_all c rep a ++ replace_all c rep b.
Proof.
  rewrite !replace_all_flat_map. apply flat_map_app.
Qed.

Lemma replace_all_over_flat_map (c : code_unit) (rep : jsstring)
  (f : code_unit -> jsstring) (s : jsstring) :
  replace_all c rep (flat_map f s)
  = flat_map (fun x => replace_all c rep (f x)) s.
Proof.
  induction s as [|x r IH]; simpl; [reflexivity|].
  rewrite replace_all_app, IH. reflexivity.
Qed.

Lemma escapeXML_unit (c : code_unit) :
  ImageGenerator.escapeXML [c] = XmlSpec.escape_unit c.
Proof.
  unfold ImageGenerator.escapeXML, XmlSpec.escape_unit.
  destruct (c =? 38)%N eqn:E38.
  { apply N.eqb_eq in E38. subst c. reflexivity. }
  destruct (c =? 60)%N eqn:E60.
  { apply N.eqb_eq in E60. subst c. reflexivity. }
  destruct (c =? 62)%N eqn:E62.
  { apply N.eqb_eq in E62. subst c. reflexivity. }
  destruct (c =? 34)%N eqn:E34.
  { apply N.eqb_eq in E34. subst c. reflexivity. }
  destruct (c =? 39)%N eqn:E39.
  { apply N.eqb_eq in E39. subst c. reflexivity. }
  simpl. rewrite E38. simpl. rewrite E60. simpl. rewrite E62. simpl.
  rewrite E34. simpl. rewrite E39. reflexivity.
Qed.

Lemma escapeXML_app (a b : jsstring) :
  ImageGenerator.escapeXML (a ++ b)
  = ImageGenerator.escapeXML a ++ ImageGenerator.escapeXML b.
Proof.
  unfold ImageGenerator.escapeXML. rewrite !replace_all_app. reflexivity.
Qed.

Lemma escapeXML_flat_map (text : jsstring) :
  ImageGenerator.escapeXML text = flat_map XmlSpec.escape_unit text.
Proof.
  induction text as [|c r IH]; [reflexivity|].
  change (c :: r) with ([c] ++ r).
  rewrite escapeXML_app, escapeXML_unit, IH. reflexivity.
Qed.

(** X1: the five chained replacements of [escapeXML] amount to one pass
    that writes each code unit once: an ampersand, angle bracket or quote
    as its entity, any other unit as it is.  In particular the ampersands
    the later replacements introduce are not escaped again. *)
Theorem escapeXML_one_pass (text : jsstring) :
  ImageGenerator.escapeXML text = flat_map XmlSpec.escape_unit text.
Proof.
  induction text as [|c r IH]; [reflexivity|].
  change (c :: r) with ([c] ++ r).
  rewrite escapeXML_app, escapeXML_unit, IH. reflexivity.
Qed.

Lemma escape_unit_clean (c x : code_unit) :
  In x (XmlSpec.escape_unit c) ->
  x <> 60%N /\ x <> 62%N /\ x <> 34%N /\ x <> 39%N.
Proof.
  unfold XmlSpec.escape_unit.
  destruct (c =? 38)%N eqn:E38;
    [ simpl; intros H; repeat (destruct H as [<- | H]; [repeat split; discriminate|]); destruct H |].
  destruct (c =? 60)%N eqn:E60;
    [ simpl; intros H; repeat (destruct H as [<- | H]; [repeat split; discriminate|]); destruct H |].
  destruct (c =? 62)%N eqn:E62;
    [ simpl; intros H; repeat (destruct H as [<- | H]; [repeat split; discriminate|]); destruct H |].
  destruct (c =? 34)%N eqn:E34;
    [ simpl; intros H; repeat (destruct H as [<- | H]; [repeat split; discriminate|]); destruct H |].
  destruct (c =? 39)%N eqn:E39;
    [ simpl; intros H; repeat (destruct H as [<- | H]; [repeat split; discriminate|]); destruct H |].
  intros [<- | []].
  apply N.eqb_neq in E60, E62, E34, E39. auto.
Qed.

(** X2: the text [escapeXML] returns holds no angle bracket and no quote,
    single or double, whatever the input: it cannot close or open a tag or
    an attribute of the SVG it is written into. *)
Theorem escapeXML_no_markup (text : jsstring) (x : code_unit) :
  In x (ImageGenerator.escapeXML text) ->
  x <> 60%N /\ x <> 62%N /\ x <> 34%N /\ x <> 39%N.
Proof.
  rewrite escapeXML_flat_map. intros H.
  apply in_flat_map in H. destruct H as [c [_ H]].
  exact (escape_unit_clean c x H).
Qed.

Lemma escapeXML_no_markup_witness :
  In 38%N (ImageGenerator.escapeXML (js "<b>"))
  /\ 38%N <> 60%N /\ 38%N <> 62%N /\ 38%N <> 34%N /\ 38%N <> 39%N.
Proof.
  split; [vm_compute; auto|].
  apply (escapeXML_no_markup (js "<b>") 38%N). vm_compute. auto.
Defined.

Lemma escape_unit_head (c : code_unit) :
  (XmlSpec.special c = true
   /\ exists e, XmlSpec.escape_unit c = 38%N :: e :: tl (tl (XmlSpec.escape_unit c)))
  \/ (XmlSpec.special c = false /\ XmlSpec.escape_unit c = [c] /\ c <> 38%N).
Proof.
  unfold XmlSpec.escape_unit, XmlSpec.special. simpl.
  destruct (c =? 38)%N eqn:E38; [left; split; [reflexivity|eexists; reflexivity]|].
  destruct (c =? 60)%N eqn:E60; [left; split; [reflexivity|eexists; reflexivity]|].
  destruct (c =? 62)%N eqn:E62; [left; split; [reflexivity|eexists; reflexivity]|].
  destruct (c =? 34)%N eqn:E34; [left; split; [reflexivity|eexists; reflexivity]|].
  destruct (c =? 39)%N eqn:E39; [left; split; [reflexivity|eexists; reflexivity]|].
  right. apply N.eqb_neq in E38. auto.
Qed.

Lemma escape_unit_prefix (c d : code_unit) (r s : jsstring) :
  XmlSpec.escape_unit c ++ r = XmlSpec.escape_unit d ++ s -> c = d /\ r = s.
Proof.
  unfold XmlSpec.escape_unit.
  destruct (c =? 38)%N eqn:C38; [apply N.eqb_eq in C38|apply N.eqb_neq in C38];
  (destruct (c =? 60)%N eqn:C60; [apply N.eqb_eq in C60|apply N.eqb_neq in C60]);
  (destruct (c =? 62)%N eqn:C62; [apply N.eqb_eq in C62|apply N.eqb_neq in C62]);
  (destruct (c =? 34)%N eqn:C34; [apply N.eqb_eq in C34|apply N.eqb_neq in C34]);
  (destruct (c =? 39)%N eqn:C39; [apply N.eqb_eq in C39|apply N.eqb_neq in C39]);
  try (subst c; discriminate);
  (destruct (d =? 38)%N eqn:D38; [apply N.eqb_eq in D38|apply N.eqb_neq in D38]);
  (destruct (d =? 60)%N eqn:D60; [apply N.eqb_eq in D60|apply N.eqb_neq in D60]);
  (destruct (d =? 62)%N eqn:D62; [apply N.eqb_eq in D62|apply N.eqb_neq in D62]);
  (destruct (d =? 34)%N eqn:D34; [apply N.eqb_eq in D34|apply N.eqb_neq in D34]);
  (destruct (d =? 39)%N eqn:D39; [apply N.eqb_eq in D39|apply N.eqb_neq in D39]);
  try (subst d; discriminate);
  vm_compute; intros H; try discriminate H;
  try (injection H; intros; subst; try congruence; split; congruence).
Qed.

(** X3: [escapeXML] loses nothing: two texts with the same escaped form
    are the same text. *)
Theorem escapeXML_injective (a b : jsstring) :
  ImageGenerator.escapeXML a = ImageGenerator.escapeXML b -> a = b.
Proof.
  rewrite !escapeXML_flat_map. revert b.
  induction a as [|c r IH]; intros [|d s] H; simpl in H.
  - reflexivity.
  - exfalso. destruct (escape_unit_head d) as [[_ [e E]] | [_ [E _]]];
      rewrite E in H; discriminate.
  - exfalso. destruct (escape_unit_head c) as [[_ [e E]] | [_ [E _]]];
      rewrite E in H; discriminate.
  - apply escape_unit_prefix in H. destruct H as [-> H].
    f_equal. apply IH. exact H.
Qed.

Lemma escapeXML_injective_witness :
  ImageGenerator.escapeXML (js "a&b") = js "a&amp;b" /\ js "a&b" = js "a&b".
Proof.
  split; [reflexivity|].
  apply (escapeXML_injective (js "a&b") (js "a&b")). reflexivity.
Defined.

Lemma escape_unit_plain (c : code_unit) :
  XmlSpec.special c = false -> XmlSpec.escape_unit c = [c].
Proof.
  intros H. destruct (escape_unit_head c) as [[E _] | [_ [E _]]];
    [congruence|exact E].
Qed.

(** X4: [escapeXML] returns a text without ampersand, angle bracket or
    quote as it is, and makes any other text strictly longer. *)
Theorem escapeXML_identity (text : jsstring) :
  (forallb (fun c => negb (XmlSpec.special c)) text = true ->
   ImageGenerator.escapeXML text = text)
  /\ (forallb (fun c => negb (XmlSpec.special c)) text = false ->
      (length text < length (ImageGenerator.escapeXML text))%nat)
  /\ (length text <= length (ImageGenerator.escapeXML text))%nat.
Proof.
  rewrite escapeXML_flat_map.
  induction text as [|c r [IH1 [IH2 IH3]]]; simpl.
  - repeat split; auto; discriminate.
  - rewrite length_app.
    assert (Hc : (1 <= length (XmlSpec.escape_unit c))%nat
                 /\ (XmlSpec.special c = true ->
                     (2 <= length (XmlSpec.escape_unit c))%nat)).
    { destruct (escape_unit_head c) as [[E [e ->]] | [E [-> _]]]; simpl.
      - split; intros; lia.
      - split; [lia|congruence]. }
    destruct Hc as [Hc1 Hc2].
    destruct (XmlSpec.special c) eqn:S; simpl.
    + split; [discriminate|]. specialize (Hc2 eq_refl). split; intros; lia.
    + rewrite (escape_unit_plain c S). simpl.
      split; [intros H; f_equal; auto|].
      split; [intros H; specialize (IH2 H); lia|lia].
Qed.

Lemma escapeXML_identity_witness :
  ImageGenerator.escapeXML (js "50% off") = js "50% off"
  /\ (length (js "R&D") < length (ImageGenerator.escapeXML (js "R&D")))%nat.
Proof.
  split.
  - apply (proj1 (escapeXML_identity (js "50% off"))). reflexivity.
  - apply (proj1 (proj2 (escapeXML_identity (js "R&D")))). reflexivity.
Defined.

(* ================================================================== *)
(** ** createMultilineText: what the wrap keeps *)
(* ================================================================== *)

Lemma map_mapi_from {A B C} (g : B -> C) (h : A -> C) (f : A -> nat -> B)
  (l : list A) :
  (forall a k, g (f a k) = h a) ->
  forall k, map g (ImageGenerator.mapi_from k f l) = map h l.
Proof.
  intros H. induction l as [|a r IH]; intros k; simpl; [reflexivity|].
  rewrite H, IH. reflexivity.
Qed.

Lemma createMultilineText_lines (text : jsstring) (x y fontSize : float)
  (color : jsstring) (maxWidth : float) :
  map ImageGenerator.run_text
    (ImageGenerator.createMultilineText text x y fontSize color maxWidth)
  = map ImageGenerator.escapeXML
      (ImageGenerator.wrap_lines
         (ImageGenerator.charsPerLine fontSize maxWidth) (split 32 text)).
Proof.
  unfold ImageGenerator.createMultilineText.
  apply map_mapi_from. reflexivity.
Qed.

(** X5: every line of the description block is either a single word of
    the text or at most one code unit longer than the threshold
    [charsPerLine]: the test leaves out the joining space, nothing more. *)
Theorem description_lines_bound (text : jsstring) (x y fontSize : float)
  (color : jsstring) (maxWidth : float) :
  exists lines,
    map ImageGenerator.run_text
      (ImageGenerator.createMultilineText text x y fontSize color maxWidth)
    = map ImageGenerator.escapeXML lines
    /\ Forall
         (WrapSpec.line_ok (ImageGenerator.charsPerLine fontSize maxWidth)
            (split 32 text))
         lines.
Proof.
  eexists. split; [apply createMultilineText_lines|].
  apply Forall_forall. intros l Hl.
  exact (wrap_lines_bound _ _ l Hl).
Qed.

Lemma split_aux_no_sep (c : code_unit) (s cur w : jsstring) :
  In w (split_aux c cur s) -> ~ In c cur -> ~ In c w.
Proof.
  revert cur. induction s as [|x r IH]; intros cur; simpl.
  - intros [<- | []] H Hin. apply H. apply in_rev. exact Hin.
  - destruct (x =? c)%N eqn:E.
    + intros [<- | Hw] H.
      * intros Hin. apply H. apply in_rev. exact Hin.
      * apply (IH [] Hw). intros [].
    + intros Hw H. apply (IH _ Hw).
      intros [-> | Hin]; [rewrite N.eqb_refl in E; discriminate | auto].
Qed.

Lemma split_no_sep (c : code_unit) (s w : jsstring) :
  In w (split c s) -> ~ In c w.
Proof.
  intros H. apply (split_aux_no_sep c s [] w H). intros [].
Qed.

Lemma wrap_fold_heads (cpl : intnum) (P : jsstring -> Prop)
  (ws : list jsstring) (st : list jsstring * jsstring) :
  (forall a b, P a -> P (a ++ b)) ->
  Forall (fun w => w = [] \/ P w) ws ->
  Forall P (fst st) -> (snd st = [] \/ P (snd st)) ->
  Forall P (fst (fold_left (ImageGenerator.wrap_step cpl) ws st))
  /\ (snd (fold_left (ImageGenerator.wrap_step cpl) ws st) = []
      \/ P (snd (fold_left (ImageGenerator.wrap_step cpl) ws st))).
Proof.
  intros Happ. revert st.
  induction ws as [|w ws IH]; intros [lines cur] Hw Hl Hc; [simpl; auto|].
  cbn [fold_left]. cbn [fst snd] in Hl, Hc.
  inversion Hw as [|? ? Hw1 Hw2]; subst.
  apply IH; [exact Hw2 | |]; unfold ImageGenerator.wrap_step;
    destruct (len_le (length (cur ++ w)) cpl); cbn [fst snd].
  - exact Hl.
  - destruct cur as [|u cur]; [exact Hl|]. cbn [truthy].
    apply Forall_app. split; [exact Hl|].
    constructor; [|constructor].
    destruct Hc as [Hc | Hc]; [discriminate | exact Hc].
  - destruct cur as [|u cur]; [exact Hw1|].
    right. destruct Hc as [Hc | Hc]; [discriminate|]. apply Happ. exact Hc.
  - exact Hw1.
Qed.

(** X6: no line of the description block is empty, and none starts with
    a space. *)
Theorem description_lines_start (text : jsstring) (x y fontSize : float)
  (color : jsstring) (maxWidth : float) :
  exists lines,
    map ImageGenerator.run_text
      (ImageGenerator.createMultilineText text x y fontSize color maxWidth)
    = map ImageGenerator.escapeXML lines
    /\ Forall (fun l => exists c r, l = c :: r /\ c <> 32%N) lines.
Proof.
  eexists. split; [apply createMultilineText_lines|].
  set (cpl := ImageGenerator.charsPerLine fontSize maxWidth).
  set (P := fun l : jsstring => exists c r, l = c :: r /\ c <> 32%N).
  destruct (wrap_lines_unfold cpl (split 32 text)) as [st [Est ->]].
  destruct (wrap_fold_heads cpl P (split 32 text) ([], [])) as [H1 H2].
  - intros a b [c [r [-> Hc]]]. exists c, (r ++ b). auto.
  - apply Forall_forall. intros w Hw.
    destruct w as [|c r]; [left; reflexivity|right].
    exists c, r. split; [reflexivity|].
    intros ->. apply (split_no_sep 32%N text _ Hw). now left.
  - constructor.
  - left; reflexivity.
  - rewrite <- Est in H1, H2.
    destruct (snd st) as [|c r] eqn:E; cbn [truthy]; [exact H1|].
    apply Forall_app. split; [exact H1|].
    constructor; [|constructor].
    destruct H2 as [H2 | H2]; [discriminate | exact H2].
Qed.

Lemma unspaced_app (a b : jsstring) :
  WrapText.unspaced (a ++ b) = WrapText.unspaced a ++ WrapText.unspaced b.
Proof. apply filter_app. Qed.

Lemma unspaced_split_aux (s cur : jsstring) :
  WrapText.unspaced (concat (split_aux 32%N cur s))
  = WrapText.unspaced (rev cur ++ s).
Proof.
  revert cur. induction s as [|x r IH]; intros cur; simpl.
  - rewrite app_nil_r. reflexivity.
  - destruct (x =? 32)%N eqn:E.
    + simpl. rewrite !unspaced_app, IH. simpl.
      unfold WrapText.unspaced at 4. simpl. rewrite E. reflexivity.
    + rewrite IH. simpl. rewrite <- app_assoc. reflexivity.
Qed.

Lemma unspaced_nil : WrapText.unspaced [] = [].
Proof. reflexivity. Qed.

Lemma unspaced_space : WrapText.unspaced [32%N] = [].
Proof. reflexivity. Qed.

Ltac unspaced_tac :=
  cbn [concat];
  rewrite ?concat_app; cbn [concat];
  rewrite ?unspaced_app, ?unspaced_nil, ?unspaced_space;
  rewrite ?app_nil_r, ?app_nil_l, <- ?app_assoc;
  rewrite ?app_nil_r, ?app_nil_l;
  try reflexivity.

Lemma unspaced_wrap_step (cpl : intnum) (lines : list jsstring)
  (cur w : jsstring) :
  let st := ImageGenerator.wrap_step cpl (lines, cur) w in
  WrapText.unspaced (concat (fst st) ++ snd st)
  = WrapText.unspaced (concat lines ++ cur) ++ WrapText.unspaced w.
Proof.
  unfold ImageGenerator.wrap_step.
  destruct (len_le (length (cur ++ w)) cpl); cbn [fst snd];
    destruct (truthy cur) eqn:T; try change (js " ") with [32%N];
    unspaced_tac.
  destruct cur; [reflexivity | discriminate].
Qed.

Lemma unspaced_wrap_fold (cpl : intnum) (ws : list jsstring)
  (st : list jsstring * jsstring) :
  let st' := fold_left (ImageGenerator.wrap_step cpl) ws st in
  WrapText.unspaced (concat (fst st') ++ snd st')
  = WrapText.unspaced (concat (fst st) ++ snd st)
    ++ WrapText.unspaced (concat ws).
Proof.
  revert st. induction ws as [|w ws IH]; intros [lines cur]; cbn [fold_left].
  - simpl. rewrite app_nil_r. reflexivity.
  - cbv zeta in IH |- *. rewrite IH.
    destruct (ImageGenerator.wrap_step cpl (lines, cur) w) as [l' c'] eqn:E.
    pose proof (unspaced_wrap_step cpl lines cur w) as H.
    cbv zeta in H. rewrite E in H. rewrite H.
    cbn [fst snd concat]. rewrite (unspaced_app w).
    rewrite <- !app_assoc. reflexivity.
Qed.

(** X7: the wrap loses and reorders nothing but spaces: the lines of the
    description block, put end to end and stripped of their spaces, are
    the text stripped of its spaces. *)
Theorem description_lines_keep_text (text : jsstring) (x y fontSize : float)
  (color : jsstring) (maxWidth : float) :
  exists lines,
    map ImageGenerator.run_text
      (ImageGenerator.createMultilineText text x y fontSize color maxWidth)
    = map ImageGenerator.escapeXML lines
    /\ WrapText.unspaced (concat lines) = WrapText.unspaced text.
Proof.
  eexists. split; [apply createMultilineText_lines|].
  set (cpl := ImageGenerator.charsPerLine fontSize maxWidth).
  destruct (wrap_lines_unfold cpl (split 32 text)) as [st [Est ->]].
  pose proof (unspaced_wrap_fold cpl (split 32 text) ([], [])) as H.
  cbv zeta in H. rewrite <- Est in H. cbn [fst snd concat app] in H.
  unfold split in H. rewrite unspaced_split_aux in H. simpl in H.
  rewrite <- H.
  destruct (snd st) as [|c r]; cbn [truthy].
  - rewrite app_nil_r. reflexivity.
  - rewrite concat_app. simpl. rewrite app_nil_r. reflexivity.
Qed.




Lemma narrow_fits (cpl : intnum) (s : jsstring) :
  len_le 1 cpl = false -> len_le (length s) cpl = true -> s = [].
Proof.
  intros Hn H. destruct s as [|c r]; [reflexivity|].
  rewrite (len_le_mono 1 (length (c :: r)) cpl) in Hn;
    [discriminate | simpl; lia | exact H].
Qed.

Lemma wrap_fold_narrow (cpl : intnum) (ws : list jsstring)
  (st : list jsstring * jsstring) :
  len_le 1 cpl = false ->
  let st' := fold_left (ImageGenerator.wrap_step cpl) ws st in
  (if truthy (snd st') then fst st' ++ [snd st'] else fst st')
  = (if truthy (snd st) then fst st ++ [snd st] else fst st)
    ++ filter truthy ws.
Proof.
  intros Hn. revert st.
  induction ws as [|w ws IH]; intros [lines cur]; cbn [fold_left].
  - simpl. rewrite app_nil_r. reflexivity.
  - cbv zeta in IH |- *. rewrite IH. unfold ImageGenerator.wrap_step.
    destruct (len_le (length (cur ++ w)) cpl) eqn:E; cbn [fst snd filter].
    + apply (narrow_fits cpl _ Hn) in E.
      apply app_eq_nil in E. destruct E as [-> ->]. reflexivity.
    + destruct cur as [|u cur]; destruct w as [|v w]; cbn [truthy];
        rewrite <- ?app_assoc; reflexivity.
Qed.

(** X9: when the threshold is below one (a canvas a few pixels wide, or a
    width that is not a number), the description is set one word per line:
    the lines are the non-empty words, in order. *)
Theorem narrow_description_word_per_line (text : jsstring)
  (x y fontSize : float) (color : jsstring) (maxWidth : float) :
  len_le 1 (ImageGenerator.charsPerLine fontSize maxWidth) = false ->
  map ImageGenerator.run_text
    (ImageGenerator.createMultilineText text x y fontSize color maxWidth)
  = map ImageGenerator.escapeXML (filter truthy (split 32 text)).
Proof.
  intros Hn. rewrite createMultilineText_lines. f_equal.
  destruct (wrap_lines_unfold (ImageGenerator.charsPerLine fontSize maxWidth)
              (split 32 text)) as [st [Est ->]].
  pose proof (wrap_fold_narrow _ (split 32 text) ([], []) Hn) as H.
  cbv zeta in H. rewrite <- Est in H. exact H.
Qed.

Lemma narrow_description_word_per_line_witness :
  map ImageGenerator.run_text
    (ImageGenerator.createMultilineText (js "a  bc d") 4 4 14 (js "#000000")
       4)
  = [js "a"; js "bc"; js "d"].
Proof.
  apply (narrow_description_word_per_line (js "a  bc d") 4 4 14
           (js "#000000") 4).
  vm_compute. reflexivity.
Defined.

(* ================================================================== *)
(** ** Colours written and read back *)
(* ================================================================== *)

Lemma darken_pair_gradient (a b : code_unit) :
  is_hex_digit a = true -> is_hex_digit b = true ->
  Math_floor (float_of_intnum (parseInt16 [a; b]) * (1 - 0.2))
  = IInt (4 * (16 * digit_value a + digit_value b) / 5).
Proof.
  intros Ha Hb. apply intnum_eqb_eq.
  revert a b Ha Hb. apply hex_pairs. vm_compute. reflexivity.
Qed.

(** X10: the end colour of the background gradient, [darkenColor(c, 0.2)],
    is for every valid colour a valid colour again, each channel [v]
    replaced by the integer part of [4 v / 5]: the rounding of the doubles
    never shows, and no channel gets brighter. *)
Theorem gradient_end_colour (c : jsstring) (r g b : Z) :
  valid_color c = true -> rgb c = (r, g, b) ->
  ImageGenerator.darkenColor c 0.2
  = encode (IInt (4 * r / 5)) (IInt (4 * g / 5)) (IInt (4 * b / 5))
  /\ valid_color (ImageGenerator.darkenColor c 0.2) = true
  /\ rgb (ImageGenerator.darkenColor c 0.2)
     = (4 * r / 5, 4 * g / 5, 4 * b / 5)%Z
  /\ (4 * r / 5 <= r)%Z /\ (4 * g / 5 <= g)%Z /\ (4 * b / 5 <= b)%Z.
Proof.
  intros H E.
  destruct (valid_color_inv c H)
    as (a1 & a2 & g1 & g2 & b1 & b2 & -> & Ha1 & Ha2 & Hg1 & Hg2 & Hb1 & Hb2).
  pose proof (pair_range a1 a2 Ha1 Ha2) as Rr.
  pose proof (pair_range g1 g2 Hg1 Hg2) as Rg.
  pose proof (pair_range b1 b2 Hb1 Hb2) as Rb.
  cbn [rgb] in E.
  replace r with (16 * digit_value a1 + digit_value a2)%Z in * by congruence.
  replace g with (16 * digit_value g1 + digit_value g2)%Z in * by congruence.
  replace b with (16 * digit_value b1 + digit_value b2)%Z in * by congruence.
  clear E.
  assert (Ed : ImageGenerator.darkenColor [35%N; a1; a2; g1; g2; b1; b2] 0.2
               = encode
                   (IInt (4 * (16 * digit_value a1 + digit_value a2) / 5))
                   (IInt (4 * (16 * digit_value g1 + digit_value g2) / 5))
                   (IInt (4 * (16 * digit_value b1 + digit_value b2) / 5))).
  { rewrite darkenColor_valid, !darken_pair_gradient by assumption.
    reflexivity. }
  rewrite Ed.
  destruct (encode_bytes
              (4 * (16 * digit_value a1 + digit_value a2) / 5)
              (4 * (16 * digit_value g1 + digit_value g2) / 5)
              (4 * (16 * digit_value b1 + digit_value b2) / 5))
    as (V & R & _).
  1-3: split; [apply Z.div_pos; lia | apply Z.div_le_upper_bound; lia].
  repeat split; auto; apply Z.div_le_upper_bound; lia.
Qed.

Lemma gradient_end_colour_witness :
  ImageGenerator.darkenColor (js "#FF6B6B") 0.2 = js "#cc5555"
  /\ valid_color (js "#cc5555") = true.
Proof.
  destruct (gradient_end_colour (js "#FF6B6B") 255 107 107)
    as (E & V & _); [reflexivity | reflexivity |].
  split; [rewrite E; reflexivity | rewrite <- V; rewrite E; reflexivity].
Defined.

Lemma accent_value_differs (v : Z) :
  (0 <= v <= 255)%Z -> accent_value v <> v.
Proof.
  intros Hv. unfold accent_value.
  assert (H : (0 <= (255 - v + 100) mod 256 < 256)%Z)
    by (apply Z.mod_pos_bound; lia).
  rewrite Z.max_r, Z.min_r by lia.
  intros E.
  pose proof (Z.div_mod (255 - v + 100) 256 ltac:(lia)) as D.
  rewrite E in D. lia.
Qed.

(** X11: for every valid colour the accent colour is a valid colour too,
    and it is never the base colour: off the grey axis every channel
    differs from the base's, on it the accent is sky blue. *)
Theorem accent_differs_from_base (c : jsstring) (r g b : Z) :
  valid_color c = true -> rgb c = (r, g, b) ->
  valid_color (FlyerGenerator.getAccentColor c) = true
  /\ rgb (FlyerGenerator.getAccentColor c) <> rgb c
  /\ (~ (r = g /\ g = b) ->
      exists r' g' b',
        rgb (FlyerGenerator.getAccentColor c) = (r', g', b')
        /\ r' <> r /\ g' <> g /\ b' <> b).
Proof.
  intros H E.
  destruct (rgb_valid c H) as (r0 & g0 & b0 & E0 & Ec & Hr & Hg & Hb).
  rewrite E in E0. injection E0 as <- <- <-.
  rewrite getAccentColor_cases.
  assert (M : malformed c = false).
  { destruct (valid_color_inv c H) as (? & ? & ? & ? & ? & ? & -> & _).
    reflexivity. }
  rewrite M, Ec. cbn [achromatic accent_of].
  pose proof (accent_value_range r) as Ar.
  pose proof (accent_value_range g) as Ag.
  pose proof (accent_value_range b) as Ab.
  destruct (encode_bytes (accent_value r) (accent_value g) (accent_value b)
              Ar Ag Ab) as (V & R & _).
  destruct ((r =? g)%Z && (g =? b)%Z) eqn:A.
  - apply andb_prop in A as [A1 A2].
    apply Z.eqb_eq in A1, A2. subst g b.
    split; [reflexivity|]. split.
    + rewrite E. vm_compute. intros [= <-]. discriminate.
    + intros N. exfalso. apply N. auto.
  - split; [exact V|]. rewrite R, E. split.
    + intros [= Er _ _]. exact (accent_value_differs r Hr Er).
    + intros _. exists (accent_value r), (accent_value g), (accent_value b).
      auto using accent_value_differs.
Qed.

Lemma accent_differs_from_base_witness :
  valid_color (FlyerGenerator.getAccentColor (js "#FF6B6B")) = true
  /\ FlyerGenerator.getAccentColor (js "#FF6B6B") = js "#64f8f8".
Proof.
  split; [|reflexivity].
  apply (accent_differs_from_base (js "#FF6B6B") 255 107 107); reflexivity.
Defined.

(** X12: the text colour [getContrastColor] picks for a valid background
    is never the background colour itself. *)
Theorem contrast_differs_from_background (c : jsstring) :
  valid_color c = true ->
  rgb (ImageGenerator.getContrastColor c) <> rgb c.
Proof.
  intros H. destruct (rgb c) as [[r g] b] eqn:Ec.
  rewrite (getContrastColor_computed c r g b H Ec).
  destruct (0.5 <? luminance64 r g b)%float eqn:E.
  - intros [= <- <- <-]. vm_compute in E. discriminate.
  - intros [= <- <- <-]. vm_compute in E. discriminate.
Qed.

Lemma contrast_differs_from_background_witness :
  rgb (ImageGenerator.getContrastColor (js "#FFFFFF")) <> rgb (js "#FFFFFF").
Proof.
  apply (contrast_differs_from_background (js "#FFFFFF")). reflexivity.
Defined.

(** *** Channels that do not parse *)

Lemma nan_mul_r (x y : float) :
  Prim2SF y = S754_nan -> Prim2SF (x * y) = S754_nan.
Proof.
  intros H. rewrite FloatAxioms.mul_spec, H. destruct (Prim2SF x); reflexivity.
Qed.

Lemma nan_mul_l (x y : float) :
  Prim2SF x = S754_nan -> Prim2SF (x * y) = S754_nan.
Proof.
  intros H. rewrite FloatAxioms.mul_spec, H. reflexivity.
Qed.

Lemma nan_add_r (x y : float) :
  Prim2SF y = S754_nan -> Prim2SF (x + y) = S754_nan.
Proof.
  intros H. rewrite FloatAxioms.add_spec, H. destruct (Prim2SF x); reflexivity.
Qed.

Lemma nan_add_l (x y : float) :
  Prim2SF x = S754_nan -> Prim2SF (x + y) = S754_nan.
Proof.
  intros H. rewrite FloatAxioms.add_spec, H. reflexivity.
Qed.

Lemma nan_div_l (x y : float) :
  Prim2SF x = S754_nan -> Prim2SF (x / y) = S754_nan.
Proof.
  intros H. rewrite FloatAxioms.div_spec, H. reflexivity.
Qed.

Lemma nan_not_above (x y : float) :
  Prim2SF y = S754_nan -> (x <? y)%float = false.
Proof.
  intros H. rewrite FloatAxioms.ltb_spec, H.
  unfold SFltb. destruct (Prim2SF x); reflexivity.
Qed.

Lemma luminance_nan (r g b : intnum) :
  r = INaN \/ g = INaN \/ b = INaN ->
  Prim2SF (ImageGenerator.luminance r g b) = S754_nan.
Proof.
  unfold ImageGenerator.luminance.
  intros [-> | [-> | ->]]; apply nan_div_l.
  - apply nan_add_l, nan_add_l, nan_mul_r. reflexivity.
  - apply nan_add_l, nan_add_r, nan_mul_r. reflexivity.
  - apply nan_add_r, nan_mul_r. reflexivity.
Qed.

Lemma two_hex_length (n : intnum) : (2 <= length (two_hex n))%nat.
Proof.
  unfold two_hex, padStart0. rewrite length_app, repeat_length.
  unfold jsstring, code_unit. lia.
Qed.

(** X13: when a channel of the colour does not parse (a colour name, a
    short form such as [#FFF], an empty string), the text colour is white
    whatever the background, and the end colour of the gradient is not a
    valid colour for any darkening factor. *)
Theorem unparsed_colour (c : jsstring) (r g b : intnum) :
  channels c = (r, g, b) -> r = INaN \/ g = INaN \/ b = INaN ->
  ImageGenerator.getContrastColor c = white
  /\ forall factor,
       valid_color (ImageGenerator.darkenColor c factor) = false.
Proof.
  intros E N. unfold channels in E. injection E as Er Eg Eb. split.
  - unfold ImageGenerator.getContrastColor. cbv zeta.
    rewrite Er, Eg, Eb.
    rewrite (nan_not_above 0.5 _ (luminance_nan r g b N)). reflexivity.
  - intros factor. unfold ImageGenerator.darkenColor. cbv zeta.
    rewrite Er, Eg, Eb.
    fold (two_hex (Math_floor (float_of_intnum r * (1 - factor)))).
    fold (two_hex (Math_floor (float_of_intnum g * (1 - factor)))).
    fold (two_hex (Math_floor (float_of_intnum b * (1 - factor)))).
    pose proof (two_hex_length (Math_floor (float_of_intnum r * (1 - factor)))) as Lr.
    pose proof (two_hex_length (Math_floor (float_of_intnum g * (1 - factor)))) as Lg.
    pose proof (two_hex_length (Math_floor (float_of_intnum b * (1 - factor)))) as Lb.
    assert (Hn : forall x, x = INaN ->
                   length (two_hex (Math_floor (float_of_intnum x * (1 - factor))))
                   = 3%nat).
    { intros x ->. unfold Math_floor.
      rewrite (nan_mul_l (float_of_intnum INaN) (1 - factor)) by reflexivity.
      reflexivity. }
    assert (Hlen : (8 <= length
              (35%N :: two_hex (Math_floor (float_of_intnum r * (1 - factor)))
               ++ two_hex (Math_floor (float_of_intnum g * (1 - factor)))
               ++ two_hex (Math_floor (float_of_intnum b * (1 - factor)))))%nat).
    { cbn [length]. rewrite !length_app.
      destruct N as [N | [N | N]]; rewrite (Hn _ N); lia. }
    revert Hlen.
    generalize (two_hex (Math_floor (float_of_intnum r * (1 - factor)))
               ++ two_hex (Math_floor (float_of_intnum g * (1 - factor)))
               ++ two_hex (Math_floor (float_of_intnum b * (1 - factor)))).
    intros l Hl.
    destruct l as [|x1 [|x2 [|x3 [|x4 [|x5 [|x6 [|x7 l]]]]]]];
      simpl in Hl; try lia; reflexivity.
Qed.

Lemma unparsed_colour_witness :
  ImageGenerator.getContrastColor (js "#FFF") = js "#FFFFFF"
  /\ ImageGenerator.darkenColor (js "#FFF") 0.2 = js "#cc0cNaN".
Proof.
  split; [|reflexivity].
  apply (unparsed_colour (js "#FFF") (IInt 255) (IInt 15) INaN).
  - reflexivity.
  - right; right; reflexivity.
Defined.

(* ================================================================== *)
(** ** Rendering: which variations can be set *)
(* ================================================================== *)

Lemma createSVG_renderable (text : value) (config : CanvasConfig) :
  Render.renderable text = true ->
  exists svg, ImageGenerator.createSVG text config = Ok svg.
Proof.
  destruct text as [| | | | |fields]; try discriminate.
  unfold Render.renderable, ImageGenerator.createSVG, string_prop.
  destruct (get_field (js "title") fields) as [[| | |t| |]|]; try discriminate.
  destruct (get_field (js "subtitle") fields) as [[| | |s| |]|];
    try discriminate.
  destruct (get_field (js "description") fields) as [[| | |d| |]|];
    try discriminate.
  destruct (get_field (js "callToAction") fields) as [[| | |c| |]|];
    try discriminate.
  intros _. eexists. reflexivity.
Qed.

Lemma createSVG_not_renderable (text : value) (config : CanvasConfig) :
  Render.renderable text = false ->
  ImageGenerator.createSVG text config = Throw TypeError.
Proof.
  destruct text as [| | | | |fields]; try reflexivity.
  unfold Render.renderable, ImageGenerator.createSVG, string_prop.
  destruct (get_field (js "title") fields) as [[| | |t| |]|];
    try reflexivity.
  destruct (get_field (js "subtitle") fields) as [[| | |s| |]|];
    try reflexivity.
  destruct (get_field (js "description") fields) as [[| | |d| |]|];
    try reflexivity.
  destruct (get_field (js "callToAction") fields) as [[| | |c| |]|];
    try reflexivity.
  discriminate.
Qed.

Lemma generateFlyer_cases (raster : bool) (text : value)
  (config : CanvasConfig) :
  ImageGenerator.generateFlyer raster text config
  = if Render.renderable text
    then if raster then Ok tt else Throw RasterFailed
    else Throw TypeError.
Proof.
  unfold ImageGenerator.generateFlyer.
  destruct (Render.renderable text) eqn:R.
  - destruct (createSVG_renderable text config R) as [svg ->].
    destruct raster; reflexivity.
  - rewrite (createSVG_not_renderable text config R). reflexivity.
Qed.

(** X14: [generateFlyer] has three outcomes.  A variation that is not an
    object with string title, subtitle, description and call to action
    fails with a TypeError while the SVG is composed, before the
    rasteriser is asked; any other variation succeeds exactly when the
    rasteriser does.  The tone plays no part. *)
Theorem generateFlyer_outcomes (raster : bool) (text : value)
  (config : CanvasConfig) :
  (Render.renderable text = false ->
   ImageGenerator.createSVG text config = Throw TypeError
   /\ ImageGenerator.generateFlyer raster text config = Throw TypeError)
  /\ (Render.renderable text = true ->
      (exists svg, ImageGenerator.createSVG text config = Ok svg)
      /\ (raster = true ->
          ImageGenerator.generateFlyer raster text config = Ok tt)
      /\ (raster = false ->
          ImageGenerator.generateFlyer raster text config
          = Throw RasterFailed)).
Proof.
  split; intros R.
  - split; [exact (createSVG_not_renderable text config R)|].
    rewrite generateFlyer_cases, R. reflexivity.
  - split; [exact (createSVG_renderable text config R)|].
    rewrite generateFlyer_cases, R. split; intros ->; reflexivity.
Qed.

Lemma generateFlyer_outcomes_witness :
  ImageGenerator.generateFlyer true
    (VObj [(js "title", VNum 1); (js "subtitle", VStr (js "s"));
           (js "callToAction", VStr (js "c"));
           (js "description", VStr (js "d")); (js "tone", VStr (js "t"))])
    Sample.facebook_canvas = Throw TypeError
  /\ ImageGenerator.generateFlyer false Sample.urgent_text
       Sample.facebook_canvas = Throw RasterFailed.
Proof.
  split.
  - apply (proj1 (generateFlyer_outcomes true _ Sample.facebook_canvas)).
    reflexivity.
  - apply (proj2 (generateFlyer_outcomes false Sample.urgent_text
                    Sample.facebook_canvas)); reflexivity.
Defined.

(* ================================================================== *)
(** ** The batch without the generative source *)
(* ================================================================== *)

Lemma object_of_renderable (tv : TextVariation) :
  Render.renderable (object_of tv) = true.
Proof. reflexivity. Qed.

Lemma planned_combine_seq {A C B} (P : nat -> result C)
  (g : nat * C -> list B) (h : nat * A -> list B) (l : list A) (k : nat) :
  (forall i a, nth_error l i = Some a ->
     exists c, P (k + i)%nat = Ok c /\ g ((k + i)%nat, c) = h ((k + i)%nat, a)) ->
  exists cells,
    mapM P (seq k (length l)) = Ok cells
    /\ flat_map g (combine (seq k (length l)) cells)
       = flat_map h (combine (seq k (length l)) l).
Proof.
  revert k. induction l as [|a r IH]; intros k H.
  - exists []. split; reflexivity.
  - destruct (H 0%nat a eq_refl) as (c & Hc & Hg).
    rewrite Nat.add_0_r in Hc, Hg.
    destruct (IH (S k)) as (cells & Hm & Hf).
    { intros i x Hx.
      replace (S k + i)%nat with (k + S i)%nat by lia.
      apply H. exact Hx. }
    exists (c :: cells). cbn [length seq mapM]. rewrite Hc. cbn [bind].
    rewrite Hm. cbn [bind]. split; [reflexivity|].
    cbn [combine flat_map]. rewrite Hg, Hf. reflexivity.
Qed.

Section Offline.

Variable number_to_string : float -> jsstring.

(** The label of a variation of the fallback bank is its tone. *)
Lemma tone_label_object_of (tv : TextVariation) :
  tone tv <> [] ->
  FlyerGenerator.tone_label number_to_string (Some (object_of tv))
  = Ok (tone tv).
Proof.
  intros Ht. unfold FlyerGenerator.tone_label, object_of.
  change (get_field (js "tone") _) with (Some (VStr (tone tv))).
  cbn [FlyerGenerator.value_truthy FlyerGenerator.to_string].
  destruct (tone tv); [congruence | reflexivity].
Qed.

Lemma offline_cell (W : FlyerGenerator.World) (config : PromoConfig)
  (bank : list TextVariation) (i : nat) (tv : TextVariation)
  (format : Format) :
  nth_error bank i = Some tv -> tone tv <> [] ->
  exists cell,
    FlyerGenerator.plan number_to_string config (map object_of bank) i format
    = Ok cell
    /\ outcome W i cell
       = if FlyerGenerator.raster W i format
         then Some (Offline.flyer config i tv format) else None.
Proof.
  intros Hn Ht.
  assert (Hi : (i < length bank)%nat).
  { apply nth_error_Some. congruence. }
  assert (Hv : FlyerGenerator.cycle (map object_of bank) i
               = Some (object_of tv)).
  { apply cycle_some. rewrite length_map, Nat.mod_small by exact Hi.
    rewrite nth_error_map, Hn. reflexivity. }
  pose proof (tone_label_object_of tv Ht) as Hl.
  unfold FlyerGenerator.plan. rewrite Hv, Hl. cbn [bind].
  eexists. split; [reflexivity|].
  unfold outcome.
  cbn [FlyerGenerator.cell_variation FlyerGenerator.cell_format
       FlyerGenerator.cell_canvas FlyerGenerator.cell_filename
       FlyerGenerator.cell_color].
  cbn [FlyerGenerator.value_truthy object_of].
  rewrite generateFlyer_cases.
  change (Render.renderable (VObj _)) with (Render.renderable (object_of tv)).
  rewrite object_of_renderable.
  destruct (FlyerGenerator.raster W i format); reflexivity.
Qed.

Lemma offline_variations (W : FlyerGenerator.World) (config : PromoConfig)
  (quantity : Z) :
  parsed_array (FlyerGenerator.completion W) = None ->
  exists bank,
    TextGenerator.generateFallbackVariations config quantity (js "English")
    = Ok bank
    /\ length bank = Z.to_nat quantity
    /\ (forall i tv, nth_error bank i = Some tv -> tone tv <> [])
    /\ TextGenerator.generateVariations config quantity (js "English")
         (FlyerGenerator.completion W) = Ok (map object_of bank).
Proof.
  intros Hp.
  destruct (generateFallbackVariations_total config quantity (js "English"))
    as (bank & Eb & Lb & Pb).
  exists bank. split; [exact Eb|]. split; [exact Lb|]. split.
  - intros i tv Hn. destruct (Pb i tv Hn) as (_ & P & _). apply P.
  - rewrite generateVariations_paths, Hp, Eb. reflexivity.
Qed.

End Offline.

(** X15: with the output directory in place, a quantity of at least one,
    and a generative source whose request fails, returns no content or
    returns a reply that does not parse to a JSON array,
    [generateVariations] resolves, and its result runs through the
    fallback bank in order: the variation [i] gives the flyer
    [flyer_<i+1>_<tone>_facebook.png] in the colour of its turn exactly
    when its rasterisation succeeds, and nothing otherwise. *)
Theorem offline_batch (number_to_string : float -> jsstring)
  (W : FlyerGenerator.World) (config : PromoConfig) (quantity : Z) :
  FlyerGenerator.ensureOutputDirectory W = Ok tt ->
  parsed_array (FlyerGenerator.completion W) = None ->
  (1 <= quantity)%Z ->
  exists bank,
    TextGenerator.generateFallbackVariations config quantity (js "English")
    = Ok bank
    /\ Z.of_nat (length bank) = quantity
    /\ FlyerGenerator.generateVariations number_to_string W config quantity
       = Ok (flat_map
               (fun '(i, tv) =>
                  if FlyerGenerator.raster W i Facebook
                  then [Offline.flyer config i tv Facebook] else [])
               (combine (seq 0 (length bank)) bank)).
Proof.
  intros Hd Hp Hq.
  destruct (offline_variations W config quantity Hp)
    as (bank & Eb & Lb & Tb & Ev).
  exists bank. split; [exact Eb|]. split; [lia|].
  destruct (generateVariations_run number_to_string W config quantity)
    as (vars & Ev' & ->).
  rewrite Ev in Ev'. injection Ev' as <-. rewrite Hd.
  destruct (planned_combine_seq
              (fun i => FlyerGenerator.plan number_to_string config
                          (map object_of bank) i Facebook)
              (fun ic => option_list (outcome W (fst ic) (snd ic)))
              (fun p : nat * TextVariation =>
                 let '(i, tv) := p in
                 if FlyerGenerator.raster W i Facebook
                 then [Offline.flyer config i tv Facebook] else [])
              bank 0) as (cells & Hm & Hf).
  { intros i tv Hn. cbn [Nat.add fst snd].
    destruct (offline_cell number_to_string W config bank i tv Facebook Hn
                (Tb i tv Hn)) as (cell & Hc & Ho).
    exists cell. split; [exact Hc|]. rewrite Ho.
    destruct (FlyerGenerator.raster W i Facebook); reflexivity. }
  rewrite <- Lb.
  destruct bank as [|tv0 bank']; [simpl in Lb; lia|].
  cbn [map] in Hm |- *. rewrite Hm. cbn [bind]. f_equal. exact Hf.
Qed.

Lemma offline_batch_witness :
  exists bank,
    TextGenerator.generateFallbackVariations Sample.pizza 4 (js "English")
    = Ok bank
    /\ Z.of_nat (length bank) = 4%Z
    /\ FlyerGenerator.generateVariations Sample.no_numbers Sample.offline
         Sample.pizza 4
       = Ok (flat_map
               (fun '(i, tv) =>
                  if FlyerGenerator.raster Sample.offline i Facebook
                  then [Offline.flyer Sample.pizza i tv Facebook] else [])
               (combine (seq 0 (length bank)) bank)).
Proof.
  apply (offline_batch Sample.no_numbers Sample.offline Sample.pizza 4).
  - reflexivity.
  - reflexivity.
  - lia.
Defined.

(** X16: under the same conditions (the directory in place, a quantity
    of at least one, and a request that fails, returns no content or
    returns a reply that does not parse to a JSON array)
    [generateForAllFormats] resolves with, for each variation of the
    fallback bank in order, its flyers in the order facebook, instagram,
    story, each present exactly when its own rasterisation succeeds. *)
Theorem offline_all_formats (number_to_string : float -> jsstring)
  (W : FlyerGenerator.World) (config : PromoConfig) (quantity : Z) :
  FlyerGenerator.ensureOutputDirectory W = Ok tt ->
  parsed_array (FlyerGenerator.completion W) = None ->
  (1 <= quantity)%Z ->
  exists bank,
    TextGenerator.generateFallbackVariations config quantity (js "English")
    = Ok bank
    /\ Z.of_nat (length bank) = quantity
    /\ FlyerGenerator.generateForAllFormats number_to_string W config quantity
       = Ok (flat_map
               (fun '(i, tv) =>
                  flat_map
                    (fun format =>
                       if FlyerGenerator.raster W i format
                       then [Offline.flyer config i tv format] else [])
                    [Facebook; Instagram; Story])
               (combine (seq 0 (length bank)) bank)).
Proof.
  intros Hd Hp Hq.
  destruct (offline_variations W config quantity Hp)
    as (bank & Eb & Lb & Tb & Ev).
  exists bank. split; [exact Eb|]. split; [lia|].
  destruct (generateForAllFormats_run number_to_string W config quantity)
    as (vars & Ev' & ->).
  rewrite Ev in Ev'. injection Ev' as <-. rewrite Hd.
  destruct (planned_combine_seq
              (fun i => mapM (FlyerGenerator.plan number_to_string config
                                (map object_of bank) i)
                          [Facebook; Instagram; Story])
              (fun ir =>
                 flat_map (fun c => option_list (outcome W (fst ir) c))
                   (snd ir))
              (fun p : nat * TextVariation =>
                 let '(i, tv) := p in
                 flat_map
                   (fun format =>
                      if FlyerGenerator.raster W i format
                      then [Offline.flyer config i tv format] else [])
                   [Facebook; Instagram; Story])
              bank 0) as (rows & Hm & Hf).
  { intros i tv Hn. cbn [Nat.add fst snd].
    destruct (offline_cell number_to_string W config bank i tv Facebook Hn
                (Tb i tv Hn)) as (c1 & Hc1 & Ho1).
    destruct (offline_cell number_to_string W config bank i tv Instagram Hn
                (Tb i tv Hn)) as (c2 & Hc2 & Ho2).
    destruct (offline_cell number_to_string W config bank i tv Story Hn
                (Tb i tv Hn)) as (c3 & Hc3 & Ho3).
    exists [c1; c2; c3]. cbn [mapM]. rewrite Hc1, Hc2, Hc3. cbn [bind].
    split; [reflexivity|].
    cbn [flat_map]. rewrite Ho1, Ho2, Ho3.
    destruct (FlyerGenerator.raster W i Facebook),
             (FlyerGenerator.raster W i Instagram),
             (FlyerGenerator.raster W i Story); reflexivity. }
  rewrite <- Lb.
  destruct bank as [|tv0 bank']; [simpl in Lb; lia|].
  cbn [map] in Hm |- *. rewrite Hm. cbn [bind]. f_equal. exact Hf.
Qed.

Lemma offline_all_formats_witness :
  exists flyers,
    FlyerGenerator.generateForAllFormats Sample.no_numbers Sample.offline
      Sample.pizza 2 = Ok flyers
    /\ map filename flyers
       = [js "flyer_1_urgent_facebook.png"; js "flyer_1_urgent_instagram.png";
          js "flyer_1_urgent_story.png"].
Proof.
  destruct (offline_all_formats Sample.no_numbers Sample.offline Sample.pizza 2)
    as (bank & Eb & Lb & E); [reflexivity | reflexivity | lia |].
  eexists. split; [exact E|].
  vm_compute in Eb. injection Eb as <-. reflexivity.
Defined.

(* ================================================================== *)
(** ** The batch: size, directory errors, empty requests *)
(* ================================================================== *)

Lemma length_flat_map_le {A B} (g : A -> list B) (k : nat) (l : list A) :
  (forall a, In a l -> length (g a) <= k)%nat ->
  (length (flat_map g l) <= k * length l)%nat.
Proof.
  induction l as [|a r IH]; intros H; simpl; [lia|].
  rewrite length_app.
  assert (length (g a) <= k)%nat by (apply H; now left).
  assert (length (flat_map g r) <= k * length r)%nat.
  { apply IH. intros b Hb. apply H. now right. }
  lia.
Qed.

(** X17: a batch never holds more flyers than it was asked for: at most
    [quantity] from [generateVariations], at most three times [quantity]
    from [generateForAllFormats]. *)
Theorem batch_size (number_to_string : float -> jsstring)
  (W : FlyerGenerator.World) (config : PromoConfig) (quantity : Z) :
  (forall flyers,
     FlyerGenerator.generateVariations number_to_string W config quantity
     = Ok flyers ->
     (Z.of_nat (length flyers) <= Z.max 0 quantity)%Z)
  /\ (forall flyers,
        FlyerGenerator.generateForAllFormats number_to_string W config quantity
        = Ok flyers ->
        (Z.of_nat (length flyers) <= 3 * Z.max 0 quantity)%Z).
Proof.
  split; intros flyers H.
  - apply generateVariations_Ok_inv in H.
    destruct H as (vars & cells & _ & _ & Hm & ->).
    pose proof (mapM_length _ _ _ Hm) as Hlen. rewrite length_seq in Hlen.
    pose proof (length_flat_map_le
                  (fun ic : nat * FlyerGenerator.Cell =>
                     option_list (outcome W (fst ic) (snd ic)))
                  1 (combine (seq 0 (Z.to_nat quantity)) cells)
                  (fun ic _ => length_option_list _)) as L.
    rewrite length_combine, length_seq in L. lia.
  - apply generateForAllFormats_Ok_inv in H.
    destruct H as (vars & rows & _ & _ & Hm & ->).
    pose proof (mapM_length _ _ _ Hm) as Hlen. rewrite length_seq in Hlen.
    pose proof (length_flat_map_le
                  (fun ir : nat * list FlyerGenerator.Cell =>
                     flat_map (fun c => option_list (outcome W (fst ir) c))
                       (snd ir))
                  3 (combine (seq 0 (Z.to_nat quantity)) rows)) as L.
    rewrite length_combine, length_seq in L.
    assert (L' : (length
                    (flat_map
                       (fun ir : nat * list FlyerGenerator.Cell =>
                          flat_map
                            (fun c => option_list (outcome W (fst ir) c))
                            (snd ir))
                       (combine (seq 0 (Z.to_nat quantity)) rows))
                  <= 3 * Init.Nat.min (Z.to_nat quantity) (length rows))%nat).
    { apply L. intros [i row] Hin. cbn [fst snd].
      pose proof (mapM_combine _ _ _ _ _ Hm Hin) as Hr.
      apply mapM_length in Hr. cbn [length] in Hr.
      pose proof (length_row_outcomes W i row). lia. }
    lia.
Qed.

Lemma batch_size_witness :
  exists flyers,
    FlyerGenerator.generateVariations Sample.no_numbers Sample.offline
      Sample.pizza 4 = Ok flyers
    /\ (Z.of_nat (length flyers) <= Z.max 0 4)%Z.
Proof.
  eexists. split; [vm_compute; reflexivity|].
  apply (proj1 (batch_size Sample.no_numbers Sample.offline Sample.pizza 4)).
  vm_compute. reflexivity.
Defined.

(** The world with the output directory in place. *)
Lemma ensureOutputDirectory_EEXIST (W : FlyerGenerator.World) :
  FlyerGenerator.mkdir W = FlyerGenerator.MkdirError (Some (js "EEXIST")) ->
  FlyerGenerator.ensureOutputDirectory W = Ok tt.
Proof.
  intros H. unfold FlyerGenerator.ensureOutputDirectory. rewrite H.
  reflexivity.
Qed.

Lemma ensureOutputDirectory_fails (W : FlyerGenerator.World)
  (code : option jsstring) :
  FlyerGenerator.mkdir W = FlyerGenerator.MkdirError code ->
  code <> Some (js "EEXIST") ->
  FlyerGenerator.ensureOutputDirectory W = Throw (MkdirFailed code).
Proof.
  intros H N. unfold FlyerGenerator.ensureOutputDirectory. rewrite H.
  destruct code as [c|]; [|reflexivity].
  destruct (jseqb c (js "EEXIST")) eqn:E; [|reflexivity].
  apply jseqb_eq in E. congruence.
Qed.

(** X18: the three generation methods treat the output directory alike.
    When creating it fails with the code EEXIST they go on exactly as if
    it had succeeded; when it fails in any other way (another code, or no
    code at all) each of them throws that very error and produces
    nothing, whatever the texts and the rasteriser would have done. *)
Theorem directory_errors (number_to_string : float -> jsstring)
  (W : FlyerGenerator.World) (code : option jsstring) :
  FlyerGenerator.mkdir W = FlyerGenerator.MkdirError code ->
  let W' := {| FlyerGenerator.mkdir := FlyerGenerator.MkdirOk;
               FlyerGenerator.completion := FlyerGenerator.completion W;
               FlyerGenerator.raster := FlyerGenerator.raster W |} in
  (code = Some (js "EEXIST") ->
   (forall config quantity,
      FlyerGenerator.generateVariations number_to_string W config quantity
      = FlyerGenerator.generateVariations number_to_string W' config quantity
      /\ FlyerGenerator.generateForAllFormats number_to_string W config
           quantity
         = FlyerGenerator.generateForAllFormats number_to_string W' config
             quantity)
   /\ (forall timestamp rasterised config tv color format,
         FlyerGenerator.generateSingleFlyer number_to_string W timestamp
           rasterised config tv color format
         = FlyerGenerator.generateSingleFlyer number_to_string W' timestamp
             rasterised config tv color format))
  /\ (code <> Some (js "EEXIST") ->
      (forall config quantity,
         FlyerGenerator.generateVariations number_to_string W config quantity
         = Throw (MkdirFailed code)
         /\ FlyerGenerator.generateForAllFormats number_to_string W config
              quantity
            = Throw (MkdirFailed code))
      /\ (forall timestamp rasterised config tv color format,
            FlyerGenerator.generateSingleFlyer number_to_string W timestamp
              rasterised config tv color format
            = Throw (MkdirFailed code))).
Proof.
  intros H W'. split.
  - intros ->. pose proof (ensureOutputDirectory_EEXIST W H) as E.
    split; [intros config quantity; split|intros].
    + unfold FlyerGenerator.generateVariations. rewrite E. reflexivity.
    + unfold FlyerGenerator.generateForAllFormats. rewrite E. reflexivity.
    + unfold FlyerGenerator.generateSingleFlyer. rewrite E. reflexivity.
  - intros N. pose proof (ensureOutputDirectory_fails W code H N) as E.
    split; [intros config quantity; split|intros].
    + unfold FlyerGenerator.generateVariations. rewrite E. reflexivity.
    + unfold FlyerGenerator.generateForAllFormats. rewrite E. reflexivity.
    + unfold FlyerGenerator.generateSingleFlyer. rewrite E. reflexivity.
Qed.

Lemma directory_errors_witness :
  FlyerGenerator.generateForAllFormats Sample.no_numbers Sample.read_only_disk
    Sample.pizza 3 = Throw (MkdirFailed (Some (js "EACCES")))
  /\ FlyerGenerator.generateSingleFlyer Sample.no_numbers
       Sample.read_only_disk 1700000000000 true Sample.pizza
       Sample.urgent_text (js "#FF0000") Story
     = Throw (MkdirFailed (Some (js "EACCES"))).
Proof.
  destruct (directory_errors Sample.no_numbers Sample.read_only_disk
              (Some (js "EACCES")) eq_refl) as [_ H].
  destruct H as [H1 H2]; [discriminate|].
  split; [apply H1 | apply H2].
Defined.

(** X19: a quantity of zero or less never yields a flyer.  When the texts
    come from the fallback bank there are none, and both batch methods
    throw the 'could not generate text variations' error. *)
Theorem empty_request (number_to_string : float -> jsstring)
  (W : FlyerGenerator.World) (config : PromoConfig) (quantity : Z) :
  (quantity <= 0)%Z ->
  (forall flyers,
     FlyerGenerator.generateVariations number_to_string W config quantity
     = Ok flyers
     \/ FlyerGenerator.generateForAllFormats number_to_string W config
          quantity
        = Ok flyers ->
     flyers = [])
  /\ (FlyerGenerator.ensureOutputDirectory W = Ok tt ->
      parsed_array (FlyerGenerator.completion W) = None ->
      TextGenerator.generateVariations config quantity (js "English")
        (FlyerGenerator.completion W) = Ok []
      /\ FlyerGenerator.generateVariations number_to_string W config quantity
         = Throw NoTextVariations
      /\ FlyerGenerator.generateForAllFormats number_to_string W config
           quantity
         = Throw NoTextVariations).
Proof.
  intros Hq. assert (Hn : Z.to_nat quantity = 0%nat) by lia. split.
  - intros flyers [H | H].
    + apply generateVariations_Ok_inv in H.
      destruct H as (vars & cells & _ & _ & _ & ->). rewrite Hn. reflexivity.
    + apply generateForAllFormats_Ok_inv in H.
      destruct H as (vars & rows & _ & _ & _ & ->). rewrite Hn. reflexivity.
  - intros Hd Hp.
    destruct (offline_variations W config quantity Hp)
      as (bank & Eb & Lb & _ & Ev).
    rewrite Hn in Lb. destruct bank; [|discriminate]. simpl in Ev.
    split; [exact Ev|].
    unfold FlyerGenerator.generateVariations,
      FlyerGenerator.generateForAllFormats.
    rewrite Hd, Ev. split; reflexivity.
Qed.

Lemma empty_request_witness :
  FlyerGenerator.generateVariations Sample.no_numbers Sample.offline
    Sample.pizza 0 = Throw NoTextVariations.
Proof.
  apply (proj2 (empty_request Sample.no_numbers Sample.offline Sample.pizza 0
                  ltac:(lia))); reflexivity.
Defined.

(* ================================================================== *)
(** ** generateSingleFlyer *)
(* ================================================================== *)

Lemma custom_tone_cases (number_to_string : float -> jsstring) (tv : value) :
  (exists tone, FlyerGenerator.custom_tone number_to_string tv = Ok tone)
  \/ FlyerGenerator.custom_tone number_to_string tv = Throw TypeError.
Proof.
  destruct tv as [| | | | |fields]; try (left; eexists; reflexivity);
    [right; reflexivity|].
  unfold FlyerGenerator.custom_tone.
  destruct (get_field (js "tone") fields) as [t|];
    [|left; eexists; reflexivity].
  destruct (FlyerGenerator.value_truthy t); [|left; eexists; reflexivity].
  destruct (FlyerGenerator.to_string number_to_string t) as [s|e] eqn:E.
  - left. exists s. reflexivity.
  - right. rewrite (to_string_throws _ _ _ E). reflexivity.
Qed.

(** An object that has a key [toString] of its own has no string form. *)
Lemma custom_tone_stubborn (number_to_string : float -> jsstring)
  (fields tone_fields : list (jsstring * value)) (v : value) :
  get_field (js "tone") fields = Some (VObj tone_fields) ->
  get_field (js "toString") tone_fields = Some v ->
  FlyerGenerator.custom_tone number_to_string (VObj fields) = Throw TypeError.
Proof.
  intros Ht Hs. unfold FlyerGenerator.custom_tone. rewrite Ht.
  cbn [FlyerGenerator.value_truthy FlyerGenerator.to_string]. rewrite Hs.
  reflexivity.
Qed.

(** X20: with the output directory in place, [generateSingleFlyer] has
    three outcomes.  The file name is written first, outside the try: when
    the tone of the variation has no string form (an object with a key
    [toString] of its own, or a variation that is null) a TypeError is
    thrown whatever the rasteriser would do.  Otherwise a variation that
    cannot be set gives a TypeError, and one that can be set gives the
    rasteriser's error when it fails and, when it succeeds, one record
    holding the variation, colour and format given and the file name
    [flyer_custom_<tone>_<format>_<timestamp>.png].  Unlike the batch
    methods it passes a failed render on. *)
Theorem single_flyer (number_to_string : float -> jsstring)
  (W : FlyerGenerator.World) (timestamp : N) (rasterised : bool)
  (config : PromoConfig) (tv : value) (color : jsstring) (format : Format) :
  FlyerGenerator.ensureOutputDirectory W = Ok tt ->
  ((exists tone, FlyerGenerator.custom_tone number_to_string tv = Ok tone)
   \/ FlyerGenerator.custom_tone number_to_string tv = Throw TypeError)
  /\ (FlyerGenerator.custom_tone number_to_string tv = Throw TypeError ->
      FlyerGenerator.generateSingleFlyer number_to_string W timestamp
        rasterised config tv color format
      = Throw TypeError)
  /\ (forall fields tone_fields v,
        tv = VObj fields ->
        get_field (js "tone") fields = Some (VObj tone_fields) ->
        get_field (js "toString") tone_fields = Some v ->
        FlyerGenerator.generateSingleFlyer number_to_string W timestamp
          rasterised config tv color format
        = Throw TypeError)
  /\ (Render.renderable tv = false ->
      FlyerGenerator.generateSingleFlyer number_to_string W timestamp
        rasterised config tv color format
      = Throw TypeError)
  /\ (forall tone,
        FlyerGenerator.custom_tone number_to_string tv = Ok tone ->
        Render.renderable tv = true ->
        FlyerGenerator.generateSingleFlyer number_to_string W timestamp
          rasterised config tv color format
        = if rasterised
          then Ok {| filename :=
                       js "flyer_custom_" ++ tone ++ js "_"
                       ++ format_name format ++ js "_"
                       ++ decimal_N timestamp ++ js ".png";
                     textVariation := tv;
                     color := color;
                     format := format |}
          else Throw RasterFailed).
Proof.
  intros Hd.
  assert (Hthrow : FlyerGenerator.custom_tone number_to_string tv
                   = Throw TypeError ->
                   FlyerGenerator.generateSingleFlyer number_to_string W
                     timestamp rasterised config tv color format
                   = Throw TypeError).
  { intros Et. unfold FlyerGenerator.generateSingleFlyer.
    rewrite Hd, Et. reflexivity. }
  split; [apply custom_tone_cases|]. split; [exact Hthrow|].
  split; [|split].
  - intros fields tone_fields v -> Ht Hs. apply Hthrow.
    exact (custom_tone_stubborn number_to_string fields tone_fields v Ht Hs).
  - intros R.
    destruct (custom_tone_cases number_to_string tv) as [[tone Et] | Et];
      [|exact (Hthrow Et)].
    unfold FlyerGenerator.generateSingleFlyer. rewrite Hd, Et. cbn [bind].
    rewrite generateFlyer_cases, R. reflexivity.
  - intros tone Et R.
    unfold FlyerGenerator.generateSingleFlyer. rewrite Hd, Et. cbn [bind].
    rewrite generateFlyer_cases, R. destruct rasterised; reflexivity.
Qed.

Lemma single_flyer_witness :
  FlyerGenerator.generateSingleFlyer Sample.no_numbers Sample.offline
    1700000000000 true Sample.pizza Sample.urgent_text (js "#FF0000") Story
  = Ok {| filename := js "flyer_custom_urgent_story_1700000000000.png";
          textVariation := Sample.urgent_text;
          color := js "#FF0000";
          format := Story |}
  /\ FlyerGenerator.generateSingleFlyer Sample.no_numbers Sample.offline
       1700000000000 false Sample.pizza Sample.urgent_text (js "#FF0000")
       Story
     = Throw RasterFailed
  /\ FlyerGenerator.generateSingleFlyer Sample.no_numbers Sample.offline
       1700000000000 true Sample.pizza Sample.stubborn_tone (js "#FF0000")
       Story
     = Throw TypeError.
Proof.
  split; [|split].
  - destruct (single_flyer Sample.no_numbers Sample.offline
                1700000000000 true Sample.pizza Sample.urgent_text
                (js "#FF0000") Story eq_refl) as (_ & _ & _ & _ & H).
    rewrite (H (js "urgent")); [vm_compute; reflexivity | | ];
      vm_compute; reflexivity.
  - destruct (single_flyer Sample.no_numbers Sample.offline
                1700000000000 false Sample.pizza Sample.urgent_text
                (js "#FF0000") Story eq_refl) as (_ & _ & _ & _ & H).
    apply (H (js "urgent")); vm_compute; reflexivity.
  - destruct (single_flyer Sample.no_numbers Sample.offline
                1700000000000 true Sample.pizza Sample.stubborn_tone
                (js "#FF0000") Story eq_refl) as (_ & H & _).
    apply H. vm_compute. reflexivity.
Defined.
From Stdlib Require DecimalNat DecimalN.


(* ================================================================== *)
(** ** File names *)
(* ================================================================== *)

Lemma js_digits (d : Decimal.uint) :
  js (NilEmpty.string_of_uint d)
  = match d with
    | Decimal.Nil => []
    | Decimal.D0 d => 48%N :: js (NilEmpty.string_of_uint d)
    | Decimal.D1 d => 49%N :: js (NilEmpty.string_of_uint d)
    | Decimal.D2 d => 50%N :: js (NilEmpty.string_of_uint d)
    | Decimal.D3 d => 51%N :: js (NilEmpty.string_of_uint d)
    | Decimal.D4 d => 52%N :: js (NilEmpty.string_of_uint d)
    | Decimal.D5 d => 53%N :: js (NilEmpty.string_of_uint d)
    | Decimal.D6 d => 54%N :: js (NilEmpty.string_of_uint d)
    | Decimal.D7 d => 55%N :: js (NilEmpty.string_of_uint d)
    | Decimal.D8 d => 56%N :: js (NilEmpty.string_of_uint d)
    | Decimal.D9 d => 57%N :: js (NilEmpty.string_of_uint d)
    end.
Proof. destruct d; reflexivity. Qed.

(** Decimal digits followed by a unit that is no digit: the digits can be
    read off. *)
Lemma digits_then_other (d d' : Decimal.uint) (x x' : code_unit)
  (r r' : jsstring) :
  (x < 48 \/ 57 < x)%N -> (x' < 48 \/ 57 < x')%N ->
  js (NilEmpty.string_of_uint d) ++ x :: r
  = js (NilEmpty.string_of_uint d') ++ x' :: r' ->
  d = d' /\ x :: r = x' :: r'.
Proof.
  intros Hx Hx'. revert d'.
  induction d as [|d IH|d IH|d IH|d IH|d IH|d IH|d IH|d IH|d IH|d IH];
    intros d'; destruct d';
    repeat match goal with
    | |- context [js (NilEmpty.string_of_uint (?c ?u))] =>
      rewrite (js_digits (c u)); cbv beta iota
    | |- context [js (NilEmpty.string_of_uint Decimal.Nil)] =>
      rewrite (js_digits Decimal.Nil); cbv beta iota
    end;
    cbn [app]; intros H;
    try (split; [reflexivity | exact H]);
    try (exfalso; injection H as H _; lia);
    try discriminate H;
    injection H as H; apply IH in H; destruct H as [-> H];
    (split; [reflexivity | exact H]).
Qed.

Lemma decimal_then_other (d d' : Decimal.uint) (x x' : code_unit)
  (r r' : jsstring) :
  (x < 48 \/ 57 < x)%N -> (x' < 48 \/ 57 < x')%N ->
  js (NilZero.string_of_uint d) ++ x :: r
  = js (NilZero.string_of_uint d') ++ x' :: r' ->
  (d = d' \/ (d = Decimal.Nil /\ d' = Decimal.D0 Decimal.Nil)
   \/ (d = Decimal.D0 Decimal.Nil /\ d' = Decimal.Nil))
  /\ x :: r = x' :: r'.
Proof.
  intros Hx Hx' H.
  assert (E : forall u, NilZero.string_of_uint u
                        = NilEmpty.string_of_uint
                            (match u with
                             | Decimal.Nil => Decimal.D0 Decimal.Nil
                             | _ => u
                             end)).
  { intros u. destruct u; reflexivity. }
  rewrite (E d), (E d') in H.
  apply digits_then_other in H; [|assumption|assumption].
  destruct H as [H T]. split; [|exact T].
  destruct d, d'; try discriminate H; auto; injection H as <-; auto.
Qed.

Lemma decimal_inj (i j : nat) (x x' : code_unit) (r r' : jsstring) :
  (x < 48 \/ 57 < x)%N -> (x' < 48 \/ 57 < x')%N ->
  decimal i ++ x :: r = decimal j ++ x' :: r' ->
  i = j /\ x :: r = x' :: r'.
Proof.
  intros Hx Hx' H. unfold decimal in H.
  apply decimal_then_other in H; [|assumption|assumption].
  destruct H as [H T]. split; [|exact T].
  rewrite <- (DecimalNat.Unsigned.of_to i), <- (DecimalNat.Unsigned.of_to j).
  destruct H as [-> | [[-> ->] | [-> ->]]]; reflexivity.
Qed.

Lemma decimal_N_inj (i j : N) (x x' : code_unit) (r r' : jsstring) :
  (x < 48 \/ 57 < x)%N -> (x' < 48 \/ 57 < x')%N ->
  decimal_N i ++ x :: r = decimal_N j ++ x' :: r' ->
  i = j /\ x :: r = x' :: r'.
Proof.
  intros Hx Hx' H. unfold decimal_N in H.
  apply decimal_then_other in H; [|assumption|assumption].
  destruct H as [H T]. split; [|exact T].
  rewrite <- (DecimalN.Unsigned.of_to i), <- (DecimalN.Unsigned.of_to j).
  destruct H as [-> | [[-> ->] | [-> ->]]]; reflexivity.
Qed.

Lemma format_name_inj (f f' : Format) (r : jsstring) :
  format_name f ++ r = format_name f' ++ r -> f = f'.
Proof.
  intros H. apply app_inv_tail in H.
  destruct f, f'; try reflexivity; vm_compute in H; discriminate H.
Qed.

Lemma plan_filename_inj (number_to_string : float -> jsstring)
  (config : PromoConfig) (vars : list value) (i j : nat) (f f' : Format)
  (c c' : FlyerGenerator.Cell) :
  FlyerGenerator.plan number_to_string config vars i f = Ok c ->
  FlyerGenerator.plan number_to_string config vars j f' = Ok c' ->
  FlyerGenerator.cell_filename c = FlyerGenerator.cell_filename c' ->
  i = j /\ f = f'.
Proof.
  intros Hc Hc'.
  apply plan_Ok_inv in Hc, Hc'.
  destruct Hc as (_ & _ & _ & _ & _ & _ & tone & Ht & ->).
  destruct Hc' as (_ & _ & _ & _ & _ & _ & tone' & Ht' & ->).
  intros H. apply app_inv_head in H.
  change (js "_") with [95%N] in H. cbn [app] in H.
  apply decimal_inj in H; [|right; lia|right; lia].
  destruct H as [Hi H]. assert (i = j) by lia. subst j.
  split; [reflexivity|].
  rewrite Ht in Ht'. injection Ht' as <-.
  injection H as H. apply app_inv_head in H. injection H as H.
  exact (format_name_inj f f' _ H).
Qed.

Lemma NoDup_combine_l {A B} (l : list A) (l' : list B) :
  NoDup l -> NoDup (combine l l').
Proof.
  intros H. revert l'. induction H as [|a l Ha Hl IH]; intros [|b l'];
    simpl; try constructor.
  - intros Hin. apply in_combine_l in Hin. exact (Ha Hin).
  - apply IH.
Qed.

Lemma mapM_In {A B} (f : A -> result B) (l : list A) (bs : list B) (b : B) :
  mapM f l = Ok bs -> In b bs -> exists a, In a l /\ f a = Ok b.
Proof.
  revert bs. induction l as [|x l IH]; intros bs; cbn [mapM].
  - intros [= <-] [].
  - destruct (f x) as [y|] eqn:E; [|discriminate]. cbn [bind].
    destruct (mapM f l) as [bs'|]; [|discriminate]. cbn [bind].
    intros [= <-] [<- | H].
    + exists x. split; [now left | exact E].
    + destruct (IH bs' eq_refl H) as (a & Ha & Ea).
      exists a. split; [now right | exact Ea].
Qed.

Lemma map_flat_map {A B C} (h : B -> C) (g : A -> list B) (l : list A) :
  map h (flat_map g l) = flat_map (fun a => map h (g a)) l.
Proof.
  induction l as [|a r IH]; simpl; [reflexivity|].
  rewrite map_app, IH. reflexivity.
Qed.

Lemma NoDup_flat_map {A B} (g : A -> list B) (l : list A) :
  NoDup l ->
  (forall a, In a l -> NoDup (g a)) ->
  (forall a a' x, In a l -> In a' l -> In x (g a) -> In x (g a') -> a = a') ->
  NoDup (flat_map g l).
Proof.
  induction l as [|a r IH]; intros Hl Hg Hd; simpl; [constructor|].
  inversion Hl as [|? ? Ha Hr]; subst.
  assert (Hrest : NoDup (flat_map g r)).
  { apply IH; [exact Hr | |].
    - intros b Hb. apply Hg. now right.
    - intros b b' x Hb Hb'. apply Hd; now right. }
  assert (Hhere : NoDup (g a)) by (apply Hg; now left).
  revert Hhere.
  assert (Hsep : forall x, In x (g a) -> ~ In x (flat_map g r)).
  { intros x Hx Hin. apply in_flat_map in Hin. destruct Hin as [b [Hb Hxb]].
    apply Ha. rewrite (Hd a b x); auto; [now left | now right]. }
  revert Hsep. generalize (g a). intros l0.
  induction l0 as [|y l0 IH0]; intros Hsep Hhere; simpl; [exact Hrest|].
  inversion Hhere as [|? ? Hy Hl0]; subst. constructor.
  - rewrite in_app_iff. intros [H | H]; [exact (Hy H)|].
    apply (Hsep y); [now left | exact H].
  - apply IH0; [|exact Hl0]. intros x Hx. apply Hsep. now right.
Qed.

Lemma outcome_filenames (W : FlyerGenerator.World) (i : nat)
  (c : FlyerGenerator.Cell) (x : jsstring) :
  In x (map filename (option_list (outcome W i c))) ->
  x = FlyerGenerator.cell_filename c.
Proof.
  destruct (outcome W i c) as [f|] eqn:E; simpl; [|intros []].
  intros [<- | []]. apply (outcome_fields W i c f E).
Qed.

Lemma NoDup_option_names (W : FlyerGenerator.World) (i : nat)
  (c : FlyerGenerator.Cell) :
  NoDup (map filename (option_list (outcome W i c))).
Proof.
  destruct (outcome W i c); simpl; repeat constructor. intros [].
Qed.

Lemma NoDup_formats : NoDup [Facebook; Instagram; Story].
Proof.
  repeat constructor; simpl; intuition discriminate.
Qed.

(** X21: no two flyers of one batch share a file name, whatever the tones
    of the variations are: no cell of [generateVariations] or of
    [generateForAllFormats] overwrites the file of another. *)
Theorem batch_files_distinct (number_to_string : float -> jsstring)
  (W : FlyerGenerator.World) (config : PromoConfig) (quantity : Z)
  (flyers : list GeneratedFlyer) :
  FlyerGenerator.generateVariations number_to_string W config quantity
  = Ok flyers
  \/ FlyerGenerator.generateForAllFormats number_to_string W config quantity
     = Ok flyers ->
  NoDup (map filename flyers).
Proof.
  intros [H | H].
  - apply generateVariations_Ok_inv in H.
    destruct H as (vars & cells & _ & _ & Hm & ->).
    rewrite map_flat_map. apply NoDup_flat_map.
    + apply NoDup_combine_l, seq_NoDup.
    + intros [i c] _. apply NoDup_option_names.
    + intros [i c] [j c'] x Hic Hjc Hi Hj. cbn [fst snd] in Hi, Hj.
      apply outcome_filenames in Hi, Hj. rewrite Hi in Hj.
      pose proof (mapM_combine _ _ _ _ _ Hm Hic) as Hp.
      pose proof (mapM_combine _ _ _ _ _ Hm Hjc) as Hp'.
      cbn beta in Hp, Hp'.
      destruct (plan_filename_inj _ _ _ _ _ _ _ _ _ Hp Hp' Hj) as [<- _].
      congruence.
  - apply generateForAllFormats_Ok_inv in H.
    destruct H as (vars & rows & _ & _ & Hm & ->).
    rewrite map_flat_map. apply NoDup_flat_map.
    + apply NoDup_combine_l, seq_NoDup.
    + intros [i row] Hin. cbn [fst snd].
      pose proof (mapM_combine _ _ _ _ _ Hm Hin) as Hrow. cbn beta in Hrow.
      rewrite <- (flat_map_combine_snd
                    (fun c => option_list (outcome W i c))
                    [Facebook; Instagram; Story] row)
        by exact (mapM_length _ _ _ Hrow).
      rewrite map_flat_map. apply NoDup_flat_map.
      * apply NoDup_combine_l, NoDup_formats.
      * intros [f c] _. apply NoDup_option_names.
      * intros [f c] [f' c'] x Hfc Hfc' Hf Hf'. cbn [fst snd] in Hf, Hf'.
        apply outcome_filenames in Hf, Hf'. rewrite Hf in Hf'.
        pose proof (mapM_combine _ _ _ _ _ Hrow Hfc) as Hp.
        pose proof (mapM_combine _ _ _ _ _ Hrow Hfc') as Hp'.
        destruct (plan_filename_inj _ _ _ _ _ _ _ _ _ Hp Hp' Hf') as [_ <-].
        congruence.
    + intros [i row] [j row'] x Hin Hin' Hi Hj. cbn [fst snd] in Hi, Hj.
      pose proof (mapM_combine _ _ _ _ _ Hm Hin) as Hrow.
      pose proof (mapM_combine _ _ _ _ _ Hm Hin') as Hrow'.
      cbn beta in Hrow, Hrow'.
      rewrite map_flat_map in Hi, Hj.
      apply in_flat_map in Hi, Hj.
      destruct Hi as (c & Hc & Hi). destruct Hj as (c' & Hc' & Hj).
      apply outcome_filenames in Hi, Hj. rewrite Hi in Hj.
      destruct (mapM_In _ _ _ _ Hrow Hc) as (f & _ & Hp).
      destruct (mapM_In _ _ _ _ Hrow' Hc') as (f' & _ & Hp').
      destruct (plan_filename_inj _ _ _ _ _ _ _ _ _ Hp Hp' Hj) as [<- _].
      congruence.
Qed.

Lemma batch_files_distinct_witness :
  exists flyers,
    FlyerGenerator.generateForAllFormats Sample.no_numbers Sample.offline
      Sample.pizza 10 = Ok flyers
    /\ length flyers = 27%nat
    /\ NoDup (map filename flyers).
Proof.
  eexists. split; [vm_compute; reflexivity|]. split; [reflexivity|].
  apply (batch_files_distinct Sample.no_numbers Sample.offline Sample.pizza 10).
  right. vm_compute. reflexivity.
Defined.

(** X22: the time stamp keeps the files of [generateSingleFlyer] apart:
    two calls for the same variation and format that return the same
    file name were made at the same millisecond. *)
Theorem single_flyer_names (number_to_string : float -> jsstring)
  (W W' : FlyerGenerator.World) (t t' : N) (rasterised rasterised' : bool)
  (config config' : PromoConfig) (tv : value) (color color' : jsstring)
  (format : Format) (f f' : GeneratedFlyer) :
  FlyerGenerator.generateSingleFlyer number_to_string W t rasterised config
    tv color format = Ok f ->
  FlyerGenerator.generateSingleFlyer number_to_string W' t' rasterised'
    config' tv color' format = Ok f' ->
  filename f = filename f' -> t = t'.
Proof.
  unfold FlyerGenerator.generateSingleFlyer.
  destruct (FlyerGenerator.ensureOutputDirectory W); [|discriminate].
  destruct (FlyerGenerator.ensureOutputDirectory W'); [|discriminate].
  cbn [bind].
  destruct (FlyerGenerator.custom_tone number_to_string tv) as [tone|];
    [|discriminate].
  cbn [bind].
  destruct (try_catch (ImageGenerator.generateFlyer rasterised tv _) _);
    [|discriminate].
  destruct (try_catch (ImageGenerator.generateFlyer rasterised' tv _) _);
    [|discriminate].
  cbn [bind]. intros [= <-] [= <-]. cbn [filename]. intros H.
  repeat match type of H with _ :: _ = _ :: _ => injection H as H end.
  apply app_inv_head in H. injection H as H.
  apply app_inv_head in H. injection H as H.
  change (js ".png") with (46%N :: js "png") in H.
  apply decimal_N_inj in H; [apply H | left; lia | left; lia].
Qed.

Lemma single_flyer_names_witness :
  (1700000000000 = 1700000000000)%N.
Proof.
  apply (single_flyer_names Sample.no_numbers Sample.offline Sample.offline
           1700000000000 1700000000000 true true Sample.pizza Sample.coffee
           Sample.urgent_text (js "#FF0000") (js "#00FF00") Story
           {| filename := js "flyer_custom_urgent_story_1700000000000.png";
              textVariation := Sample.urgent_text;
              color := js "#FF0000";
              format := Story |}
           {| filename := js "flyer_custom_urgent_story_1700000000000.png";
              textVariation := Sample.urgent_text;
              color := js "#00FF00";
              format := Story |}); vm_compute; reflexivity.
Defined.

(* ================================================================== *)
(** ** parseResponse and the fallback bank *)
(* ================================================================== *)

(** X23: [parseResponse] either returns the elements of the parsed array
    that are objects with the five keys, in their order, or throws the
    'invalid JSON response format' error: whatever goes wrong inside
    (text that is not JSON, JSON that is not an array) surfaces as that
    one error. *)
Theorem parseResponse_outcomes (response : TextGenerator.Response) :
  (forall items,
     TextGenerator.parsed response = Some (VArr items) ->
     TextGenerator.parseResponse response
     = Ok (filter TextGenerator.has_required_fields items))
  /\ ((forall items, TextGenerator.parsed response <> Some (VArr items)) ->
      TextGenerator.parseResponse response = Throw InvalidJson)
  /\ (forall variations v,
        TextGenerator.parseResponse response = Ok variations ->
        In v variations ->
        TextGenerator.is_object v = true
        /\ has_key (js "title") v = true
        /\ has_key (js "subtitle") v = true
        /\ has_key (js "callToAction") v = true
        /\ has_key (js "description") v = true
        /\ has_key (js "tone") v = true)
  /\ (forall e, TextGenerator.parseResponse response = Throw e ->
                e = InvalidJson).
Proof.
  unfold TextGenerator.parseResponse.
  split; [|split; [|split]].
  - intros items ->. reflexivity.
  - intros H.
    destruct (TextGenerator.parsed response) as [[| | | |items|]|];
      try reflexivity.
    exfalso. exact (H items eq_refl).
  - intros variations v H Hin.
    destruct (TextGenerator.parsed response) as [[| | | |items|]|];
      try discriminate.
    cbn [bind try_catch] in H. injection H as <-.
    apply filter_In in Hin. destruct Hin as [_ Hin].
    unfold TextGenerator.has_required_fields in Hin.
    repeat (apply andb_prop in Hin; destruct Hin as [Hin ?]).
    auto 10.
  - intros e.
    destruct (TextGenerator.parsed response) as [[| | | |items|]|];
      cbn [bind try_catch]; congruence.
Qed.

Lemma parseResponse_outcomes_witness :
  TextGenerator.parseResponse
    {| TextGenerator.raw := js "[1]";
       TextGenerator.parsed := Some (VArr [VNum 1]) |} = Ok []
  /\ TextGenerator.parseResponse
       {| TextGenerator.raw := js "{}";
          TextGenerator.parsed := Some (VObj []) |} = Throw InvalidJson.
Proof.
  split.
  - apply (proj1 (parseResponse_outcomes
                    {| TextGenerator.raw := js "[1]";
                       TextGenerator.parsed := Some (VArr [VNum 1]) |})
             [VNum 1]).
    reflexivity.
  - apply (proj1 (proj2 (parseResponse_outcomes
                           {| TextGenerator.raw := js "{}";
                              TextGenerator.parsed := Some (VObj []) |}))).
    intros items. discriminate.
Defined.

Lemma bank_slots (config : PromoConfig) (quantity : Z) (language : jsstring) :
  exists bank,
    mapM (TextGenerator.fallback_slot config language)
      (seq 0 (Z.to_nat quantity)) = Ok bank
    /\ TextGenerator.generateFallbackVariations config quantity language
       = Ok bank
    /\ length bank = Z.to_nat quantity
    /\ forall i tv, nth_error bank i = Some tv ->
         TextGenerator.fallback_slot config language i = Ok tv.
Proof.
  destruct (mapM_ok (TextGenerator.fallback_slot config language)
              (fun i tv => TextGenerator.fallback_slot config language i = Ok tv)
              (seq 0 (Z.to_nat quantity)))
    as (bank & Eb & Lb & Nb).
  { intros i _. destruct (fallback_slot_ok config language i) as (tv & E & _).
    exists tv. auto. }
  rewrite length_seq in Lb.
  exists bank. split; [exact Eb|]. split; [|split; [exact Lb|]].
  - unfold TextGenerator.generateFallbackVariations. rewrite Eb. cbn [bind].
    assert (E : ((length bank =? 0)%nat && (0 <? quantity)%Z) = false).
    { rewrite Lb. destruct (Z.ltb_spec 0 quantity).
      - replace (Z.to_nat quantity =? 0)%nat with false; [reflexivity|].
        symmetry. apply Nat.eqb_neq. lia.
      - apply andb_false_r. }
    rewrite E. reflexivity.
  - intros i tv Hn. apply (Nb i i tv); [|exact Hn].
    assert (i < Z.to_nat quantity)%nat.
    { rewrite <- Lb. apply nth_error_Some. congruence. }
    rewrite nth_error_nth' with (d := 0%nat) by (rewrite length_seq; lia).
    rewrite seq_nth by lia. reflexivity.
Qed.

(** X24: the last resort of [generateFallbackVariations], the single
    variation of tone 'general' built from [getFallbackTexts], is never
    taken: for every quantity the result is the list the loop built, and
    every tone in it is one of the eight base tones. *)
Theorem fallback_last_resort_unused (config : PromoConfig) (quantity : Z)
  (language : jsstring) :
  TextGenerator.generateFallbackVariations config quantity language
  = mapM (TextGenerator.fallback_slot config language)
      (seq 0 (Z.to_nat quantity))
  /\ forall bank tv,
       TextGenerator.generateFallbackVariations config quantity language
       = Ok bank ->
       In tv bank ->
       In (tone tv) TextGenerator.baseTones /\ tone tv <> js "general".
Proof.
  destruct (bank_slots config quantity language) as (bank & Em & Eb & Lb & Nb).
  split; [congruence|].
  intros bank' tv E Hin. rewrite Eb in E. injection E as <-.
  apply In_nth_error in Hin. destruct Hin as [i Hi].
  destruct (generateFallbackVariations_total config quantity language)
    as (l & El & _ & Pl).
  rewrite Eb in El. injection El as <-.
  destruct (Pl i tv Hi) as (Ht & _).
  apply nth_error_In in Ht. split; [exact Ht|].
  intros G. rewrite G in Ht. vm_compute in Ht.
  repeat (destruct Ht as [Ht | Ht]; [discriminate Ht|]). exact Ht.
Qed.

Lemma fallback_last_resort_unused_witness :
  TextGenerator.generateFallbackVariations Sample.pizza 1 (js "English")
  = Ok [ {| title := js "Last Chance: 50% off!";
            subtitle := js "Sunday. Act fast!";
            callToAction := js "Book Now!";
            description :=
              js "Don't miss this special offer on Pizza. Valid only until Sunday. Visit us at Main St!";
            tone := js "urgent" |} ]
  /\ In (js "urgent") TextGenerator.baseTones
  /\ js "urgent" <> js "general".
Proof.
  split; [reflexivity|].
  apply (proj2 (fallback_last_resort_unused Sample.pizza 1 (js "English"))
           [ {| title := js "Last Chance: 50% off!";
                subtitle := js "Sunday. Act fast!";
                callToAction := js "Book Now!";
                description :=
                  js "Don't miss this special offer on Pizza. Valid only until Sunday. Visit us at Main St!";
                tone := js "urgent" |} ]
           {| title := js "Last Chance: 50% off!";
              subtitle := js "Sunday. Act fast!";
              callToAction := js "Book Now!";
              description :=
                js "Don't miss this special offer on Pizza. Valid only until Sunday. Visit us at Main St!";
              tone := js "urgent" |}).
  - reflexivity.
  - left. reflexivity.
Defined.

Lemma fallback_slot_period (config : PromoConfig) (language : jsstring)
  (i : nat) :
  TextGenerator.fallback_slot config language (i + 8)
  = TextGenerator.fallback_slot config language i.
Proof.
  unfold TextGenerator.fallback_slot. rewrite baseTones_length.
  replace ((i + 8) mod 8)%nat with (i mod 8)%nat; [reflexivity|].
  symmetry. apply (Nat.Div0.mod_add i 1 8).
Qed.

(** X25: the fallback bank repeats after eight entries: the variation at
    position [i + 8] is the variation at position [i], so a bank of any
    size holds at most eight different variations. *)
Theorem fallback_bank_period (config : PromoConfig) (quantity : Z)
  (language : jsstring) (bank : list TextVariation) (i : nat) :
  TextGenerator.generateFallbackVariations config quantity language
  = Ok bank ->
  (i + 8 < length bank)%nat ->
  nth_error bank (i + 8) = nth_error bank i
  /\ exists tv, nth_error bank i = Some tv.
Proof.
  intros E Hi.
  destruct (bank_slots config quantity language) as (bank' & _ & Eb & _ & Nb).
  rewrite E in Eb. injection Eb as <-.
  destruct (nth_error bank (i + 8)) as [tv|] eqn:E8.
  2:{ apply nth_error_None in E8. lia. }
  destruct (nth_error bank i) as [tv'|] eqn:E0.
  2:{ apply nth_error_None in E0. lia. }
  apply Nb in E8, E0. rewrite fallback_slot_period in E8.
  split; [congruence | eexists; reflexivity].
Qed.

Lemma fallback_bank_period_witness :
  exists bank,
    TextGenerator.generateFallbackVariations Sample.pizza 10 (js "English")
    = Ok bank
    /\ nth_error bank 9 = nth_error bank 1.
Proof.
  eexists. split; [reflexivity|].
  apply (fallback_bank_period Sample.pizza 10 (js "English") _ 1).
  - reflexivity.
  - vm_compute. lia.
Defined.

(** *** Languages without a table *)

Lemma jseqb_false (a b : jsstring) : a <> b -> jseqb a b = false.
Proof.
  intros H. destruct (jseqb a b) eqn:E; [|reflexivity].
  apply jseqb_eq in E. contradiction.
Qed.

Lemma index_other {A} (e s : A) (language : jsstring) :
  language <> js "Spanish" ->
  ~ In language object_prototype_keys ->
  index [(js "English", e); (js "Spanish", s)] language
  = if jseqb language (js "English") then Own e else Undefined.
Proof.
  intros Hs Hp. unfold index. cbn [own_get].
  destruct (jseqb language (js "English")); [reflexivity|].
  rewrite (jseqb_false _ _ Hs).
  destruct (existsb (jseqb language) object_prototype_keys) eqn:E;
    [|reflexivity].
  apply existsb_exists in E. destruct E as (k & Hk & E).
  apply jseqb_eq in E. subst k. contradiction.
Qed.

Lemma select_language_other (e s : TextGenerator.table)
  (language : jsstring) :
  language <> js "Spanish" ->
  ~ In language object_prototype_keys ->
  TextGenerator.select_language [(js "English", e); (js "Spanish", s)] e
    language
  = TextGenerator.Table e.
Proof.
  intros Hs Hp. unfold TextGenerator.select_language.
  rewrite (index_other e s language Hs Hp).
  destruct (jseqb language (js "English")); reflexivity.
Qed.

Lemma fallback_slot_other (config : PromoConfig) (language : jsstring)
  (i : nat) :
  language <> js "Spanish" ->
  ~ In language object_prototype_keys ->
  TextGenerator.fallback_slot config language i
  = TextGenerator.fallback_slot config (js "English") i.
Proof.
  intros Hs Hp.
  assert (He : js "English" <> js "Spanish") by discriminate.
  assert (Hq : ~ In (js "English") object_prototype_keys).
  { vm_compute. intuition discriminate. }
  unfold TextGenerator.fallback_slot.
  generalize (match nth_error TextGenerator.baseTones
                      (i mod length TextGenerator.baseTones) with
              | Some t => or_else t []
              | None => []
              end).
  intros tone.
  assert (Et : TextGenerator.generateFallbackTitle config tone language
               = TextGenerator.generateFallbackTitle config tone (js "English")).
  { unfold TextGenerator.generateFallbackTitle. cbv zeta.
    rewrite !select_language_other by assumption. reflexivity. }
  assert (Es : TextGenerator.generateFallbackSubtitle config tone language
               = TextGenerator.generateFallbackSubtitle config tone
                   (js "English")).
  { unfold TextGenerator.generateFallbackSubtitle. cbv zeta.
    rewrite !select_language_other by assumption. reflexivity. }
  assert (Ec : TextGenerator.generateFallbackCTA tone language
               = TextGenerator.generateFallbackCTA tone (js "English")).
  { unfold TextGenerator.generateFallbackCTA. cbv zeta.
    rewrite !select_language_other by assumption. reflexivity. }
  assert (Ed : TextGenerator.generateFallbackDescription config tone i language
               = TextGenerator.generateFallbackDescription config tone i
                   (js "English")).
  { unfold TextGenerator.generateFallbackDescription. cbv zeta.
    rewrite !select_language_other by assumption. reflexivity. }
  rewrite Et, Es, Ec, Ed. reflexivity.
Qed.

(** X26: the fallback bank has tables for English and Spanish only.  For
    any other language (French, German, an empty string, ...) that is not
    the name of a member every object inherits, the bank is the English
    one. *)
Theorem fallback_other_language (config : PromoConfig) (quantity : Z)
  (language : jsstring) :
  language <> js "Spanish" ->
  ~ In language object_prototype_keys ->
  TextGenerator.generateFallbackVariations config quantity language
  = TextGenerator.generateFallbackVariations config quantity (js "English").
Proof.
  intros Hs Hp.
  destruct (bank_slots config quantity language) as (b1 & E1 & -> & _).
  destruct (bank_slots config quantity (js "English")) as (b2 & E2 & -> & _).
  rewrite <- E1, <- E2. clear E1 E2.
  generalize (seq 0 (Z.to_nat quantity)). intros l.
  induction l as [|i r IH]; [reflexivity|].
  cbn [mapM]. rewrite IH, (fallback_slot_other config language i Hs Hp).
  reflexivity.
Qed.

Lemma fallback_other_language_witness :
  TextGenerator.generateFallbackVariations Sample.pizza 2 (js "French")
  = TextGenerator.generateFallbackVariations Sample.pizza 2 (js "English").
Proof.
  apply (fallback_other_language Sample.pizza 2 (js "French")).
  - discriminate.
  - vm_compute. intuition discriminate.
Defined.

(* ================================================================== *)
(** ** The command line: quantity and format *)
(* ================================================================== *)

Lemma clamp_range (n : intnum) :
  n <> INaN ->
  exists z, Cli.clamp_1_10 n = IInt z /\ (1 <= z <= 10)%Z.
Proof.
  destruct n as [|[]|z]; simpl; [congruence|..]; intros _; eexists;
    (split; [reflexivity | lia]).
Qed.

Lemma or_3_not_nan (n : intnum) : Cli.or_3 n <> INaN.
Proof.
  destruct n as [| |z]; simpl; try discriminate.
  destruct (z =? 0)%Z; discriminate.
Qed.

(** Decimal digits read by [parseInt]. *)
Lemma dec_prefix_digits (d : Decimal.uint) (acc : nat) :
  Cli.dec_prefix (Some (Z.of_nat acc)) (js (NilEmpty.string_of_uint d))
  = Some (Z.of_nat (Nat.of_uint_acc d acc)).
Proof.
  revert acc.
  induction d as [|d IH|d IH|d IH|d IH|d IH|d IH|d IH|d IH|d IH|d IH];
    intros acc; rewrite js_digits; [reflexivity|..];
    cbn [Cli.dec_prefix Nat.of_uint_acc];
    match goal with
    | |- (if ?c then _ else _) = _ => change c with true; cbv iota
    end;
    rewrite <- IH; f_equal; f_equal; rewrite Nat.tail_mul_spec; lia.
Qed.

Lemma parseInt_digits (d : Decimal.uint) :
  d <> Decimal.Nil ->
  Cli.parseInt (js (NilEmpty.string_of_uint d))
  = IInt (Z.of_nat (Nat.of_uint d)).
Proof.
  intros Hd.
  assert (H0 : Cli.dec_prefix None (js (NilEmpty.string_of_uint d))
               = Cli.dec_prefix (Some (Z.of_nat 0))
                   (js (NilEmpty.string_of_uint d))).
  { destruct d; try congruence; rewrite js_digits; reflexivity. }
  assert (Hs : forall s0,
             s0 = js (NilEmpty.string_of_uint d) ->
             skip_space s0 = s0 /\ strip_sign s0 = (false, s0)
             /\ Cli.has_0x s0 = false).
  { intros s0 ->.
    destruct d as [|d|d|d|d|d|d|d|d|d|d]; try congruence;
      rewrite js_digits; (split; [reflexivity|]); (split; [reflexivity|]);
      try (destruct (js (NilEmpty.string_of_uint d)); reflexivity).
    destruct d; rewrite js_digits; reflexivity. }
  destruct (Hs _ eq_refl) as (S1 & S2 & S3).
  unfold Cli.parseInt. rewrite S1, S2, S3, H0, dec_prefix_digits.
  reflexivity.
Qed.

Lemma parseInt_decimal (n : nat) : Cli.parseInt (decimal n) = IInt (Z.of_nat n).
Proof.
  unfold decimal.
  assert (E : NilZero.string_of_uint (Nat.to_uint n)
              = NilEmpty.string_of_uint
                  (match Nat.to_uint n with
                   | Decimal.Nil => Decimal.D0 Decimal.Nil
                   | u => u
                   end)).
  { destruct (Nat.to_uint n); reflexivity. }
  rewrite E, parseInt_digits.
  - rewrite <- (DecimalNat.Unsigned.of_to n) at 2.
    destruct (Nat.to_uint n); reflexivity.
  - destruct (Nat.to_uint n); discriminate.
Qed.

(** X27: the quantity the command line hands to the generator,
    [Math.min(Math.max(parseInt(q) || 3, 1), 10)], always lies between 1
    and 10.  It is 3 when the option does not start with a number or
    gives zero; a number written in decimal is taken as it is from 1 to
    10 and replaced by 10 above. *)
Theorem quantity_from_option (q : jsstring) :
  (exists z, Cli.quantity_option q = IInt z /\ (1 <= z <= 10)%Z)
  /\ (Cli.parseInt q = INaN \/ Cli.parseInt q = IInt 0 ->
      Cli.quantity_option q = IInt 3)
  /\ (forall n : nat,
        q = decimal n ->
        Cli.quantity_option q
        = IInt (if (n =? 0)%nat then 3 else Z.min (Z.of_nat n) 10)).
Proof.
  unfold Cli.quantity_option. split; [|split].
  - apply clamp_range, or_3_not_nan.
  - intros [-> | ->]; reflexivity.
  - intros n ->. rewrite parseInt_decimal. unfold Cli.or_3.
    destruct (Nat.eqb_spec n 0) as [-> | Hn]; [reflexivity|].
    replace (Z.of_nat n =? 0)%Z with false
      by (symmetry; apply Z.eqb_neq; lia).
    unfold Cli.clamp_1_10. f_equal. lia.
Qed.

Lemma quantity_from_option_witness :
  Cli.quantity_option (js "many") = IInt 3
  /\ Cli.quantity_option (js "25") = IInt 10.
Proof.
  split.
  - apply (proj1 (proj2 (quantity_from_option (js "many")))).
    left. reflexivity.
  - apply (proj2 (proj2 (quantity_from_option (js "25"))) 25%nat).
    reflexivity.
Defined.

(** X28: the interactive prompt warns 'Quantity adjusted to 3' when the
    answer is outside 1..10, but the quantity it then returns is the
    nearer bound, 1 or 10, and never 3; without the warning the quantity
    is the number read, or 3 when none was. *)
Theorem prompt_warning (answer : jsstring) :
  (Interactive.warns answer = true ->
   Interactive.quantity_answer answer = IInt 1
   \/ Interactive.quantity_answer answer = IInt 10)
  /\ (Interactive.warns answer = false ->
      exists z,
        Interactive.quantityNum answer = IInt z /\ (1 <= z <= 10)%Z
        /\ Interactive.quantity_answer answer = IInt z).
Proof.
  unfold Interactive.warns, Interactive.quantity_answer.
  pose proof (or_3_not_nan (Cli.parseInt answer)) as Hn.
  fold (Interactive.quantityNum answer) in Hn.
  destruct (Interactive.quantityNum answer) as [|[]|z]; [congruence|..].
  - split; [auto | discriminate].
  - split; [auto | discriminate].
  - unfold Cli.clamp_1_10. split.
    + intros H. apply orb_prop in H. destruct H as [H | H].
      * apply Z.ltb_lt in H. left. f_equal. lia.
      * apply Z.ltb_lt in H. right. f_equal. lia.
    + intros H. apply orb_false_elim in H. destruct H as [H1 H2].
      apply Z.ltb_ge in H1, H2. exists z. split; [reflexivity|].
      split; [lia | f_equal; lia].
Qed.

Lemma prompt_warning_witness :
  Interactive.warns (js "25") = true
  /\ (Interactive.quantity_answer (js "25") = IInt 1
      \/ Interactive.quantity_answer (js "25") = IInt 10).
Proof.
  split; [reflexivity|].
  apply (proj1 (prompt_warning (js "25"))). reflexivity.
Defined.

Lemma generateVariations_formats (number_to_string : float -> jsstring)
  (W : FlyerGenerator.World) (config : PromoConfig) (quantity : Z)
  (flyers : list GeneratedFlyer) (f : GeneratedFlyer) :
  FlyerGenerator.generateVariations number_to_string W config quantity
  = Ok flyers ->
  In f flyers -> format f = Facebook.
Proof.
  intros H Hin.
  destruct (In_batch _ _ _ _ _ _ H Hin)
    as (vars & i & cell & _ & _ & _ & Hp & Ho).
  apply outcome_fields in Ho. destruct Ho as (_ & _ & Hf & _).
  apply plan_Ok_inv in Hp. destruct Hp as (_ & _ & Hc & _).
  congruence.
Qed.

(** X29: of the four format choices of the command line only 'All
    formats' changes anything: with any other choice, 'Instagram only'
    and 'Stories only' included, every flyer of a completed run is in the
    facebook format. *)
Theorem format_choice (number_to_string : float -> jsstring)
  (W : FlyerGenerator.World) (config : PromoConfig)
  (formatChoice : jsstring) (quantity : Z) (language : jsstring)
  (flyers : list GeneratedFlyer) :
  formatChoice <> js "All formats (Facebook, Instagram, Stories)" ->
  Cli.generateFlyers number_to_string W config formatChoice quantity language
  = Cli.Completed flyers ->
  forall f, In f flyers -> format f = Facebook.
Proof.
  intros Hc. unfold Cli.generateFlyers.
  rewrite (jseqb_false _ _ Hc).
  destruct (jseqb formatChoice (js "Instagram only (1080x1080)"));
    [|destruct (jseqb formatChoice (js "Stories only (1080x1920)"))];
    (destruct (FlyerGenerator.generateVariations number_to_string W config
                 quantity) as [l|e] eqn:E; [|discriminate]);
    intros [= <-] f Hin;
    exact (generateVariations_formats number_to_string W config quantity l f
             E Hin).
Qed.

Lemma format_choice_witness :
  Cli.generateFlyers Sample.no_numbers Sample.offline Sample.pizza
    (js "Instagram only (1080x1080)") 1 (js "English")
  = Cli.Completed
      [ {| filename := js "flyer_1_urgent_facebook.png";
           textVariation :=
             object_of
               {| title := js "Last Chance: 50% off!";
                  subtitle := js "Sunday. Act fast!";
                  callToAction := js "Book Now!";
                  description :=
                    js "Don't miss this special offer on Pizza. Valid only until Sunday. Visit us at Main St!";
                  tone := js "urgent" |};
           color := js "#FF0000";
           format := Facebook |} ]
  /\ format
       {| filename := js "flyer_1_urgent_facebook.png";
           textVariation :=
             object_of
               {| title := js "Last Chance: 50% off!";
                  subtitle := js "Sunday. Act fast!";
                  callToAction := js "Book Now!";
                  description :=
                    js "Don't miss this special offer on Pizza. Valid only until Sunday. Visit us at Main St!";
                  tone := js "urgent" |};
           color := js "#FF0000";
           format := Facebook |}
     = Facebook.
Proof.
  split; [vm_compute; reflexivity|].
  apply (format_choice Sample.no_numbers Sample.offline Sample.pizza
           (js "Instagram only (1080x1080)") 1 (js "English")
           [ {| filename := js "flyer_1_urgent_facebook.png";
           textVariation :=
             object_of
               {| title := js "Last Chance: 50% off!";
                  subtitle := js "Sunday. Act fast!";
                  callToAction := js "Book Now!";
                  description :=
                    js "Don't miss this special offer on Pizza. Valid only until Sunday. Visit us at Main St!";
                  tone := js "urgent" |};
           color := js "#FF0000";
           format := Facebook |} ]).
  - discriminate.
  - vm_compute. reflexivity.
  - left. reflexivity.
Defined.

(** Why a batch method throws. *)
Lemma batch_throw_cases (number_to_string : float -> jsstring)
  (W : FlyerGenerator.World) (config : PromoConfig) (quantity : Z)
  (e : exn) :
  FlyerGenerator.generateVariations number_to_string W config quantity
  = Throw e
  \/ FlyerGenerator.generateForAllFormats number_to_string W config quantity
     = Throw e ->
  exists vars,
    TextGenerator.generateVariations config quantity (js "English")
      (FlyerGenerator.completion W) = Ok vars
    /\ ((exists code,
           FlyerGenerator.mkdir W = FlyerGenerator.MkdirError code
           /\ code <> Some (js "EEXIST"))
        \/ vars = []
        \/ (vars <> []
            /\ exists i,
                 (i < Z.to_nat quantity)%nat
                 /\ FlyerGenerator.tone_label number_to_string
                      (FlyerGenerator.cycle vars i) = Throw TypeError)).
Proof.
  destruct (generateVariations_run number_to_string W config quantity)
    as (vars & Ev & E1).
  destruct (generateForAllFormats_run number_to_string W config quantity)
    as (vars' & Ev' & E2).
  rewrite Ev in Ev'. injection Ev' as <-.
  intros H. exists vars. split; [exact Ev|].
  destruct (ensureOutputDirectory_cases W) as [Hd | (code & Hm & Hc & _)].
  2:{ left. exists code. auto. }
  rewrite Hd in E1, E2.
  destruct vars as [|v vars']; [right; left; reflexivity|].
  right. right. split; [discriminate|].
  destruct H as [H | H].
  - rewrite E1 in H. clear E1 E2.
    destruct (mapM _ (seq 0 (Z.to_nat quantity))) as [cells|e'] eqn:Em;
      cbn [bind] in H; [discriminate|].
    apply mapM_throws in Em. destruct Em as (i & Hi & Hp).
    apply in_seq in Hi. apply plan_Throw_inv in Hp.
    pose proof (tone_label_throws _ _ _ Hp) as ->.
    exists i. split; [lia | exact Hp].
  - rewrite E2 in H. clear E1 E2.
    destruct (mapM _ (seq 0 (Z.to_nat quantity))) as [rows|e'] eqn:Em;
      cbn [bind] in H; [discriminate|].
    apply mapM_throws in Em. destruct Em as (i & Hi & Hrow).
    apply in_seq in Hi.
    apply mapM_throws in Hrow. destruct Hrow as (format & _ & Hp).
    apply plan_Throw_inv in Hp.
    pose proof (tone_label_throws _ _ _ Hp) as ->.
    exists i. split; [lia | exact Hp].
Qed.

(** The variations of the fallback bank all have a file name. *)
Lemma fallback_labels (number_to_string : float -> jsstring)
  (W : FlyerGenerator.World) (config : PromoConfig) (quantity : Z)
  (vars : list value) (i : nat) :
  parsed_array (FlyerGenerator.completion W) = None ->
  TextGenerator.generateVariations config quantity (js "English")
    (FlyerGenerator.completion W) = Ok vars ->
  vars <> [] ->
  exists tone,
    FlyerGenerator.tone_label number_to_string (FlyerGenerator.cycle vars i)
    = Ok tone.
Proof.
  intros Hp Hv Hne.
  destruct (offline_variations W config quantity Hp)
    as (bank & _ & _ & Tb & Ev).
  rewrite Ev in Hv. injection Hv as <-.
  rewrite cycle_nonempty by exact Hne. rewrite nth_error_map.
  destruct (nth_error bank (i mod length (map object_of bank)))
    as [tv|] eqn:En.
  - exists (tone tv). cbn [option_map].
    apply tone_label_object_of. exact (Tb _ tv En).
  - exists (js "generic"). reflexivity.
Qed.

(** X30: a run of the command line ends the process with status 1
    exactly when the generator throws, and with a quantity of at least
    one that happens in three cases only: the output directory could not
    be created; the reply of the generative source is an array none of
    whose elements has the five keys; or that reply is an array and the
    file name of some cell cannot be written, the tone of its variation
    having no string form (an object with a key [toString] of its own),
    an error raised outside the [try] of the loop. *)
Theorem exit_status (number_to_string : float -> jsstring)
  (W : FlyerGenerator.World) (config : PromoConfig)
  (formatChoice : jsstring) (quantity : Z) (language : jsstring)
  (code : Z) :
  (1 <= quantity)%Z ->
  Cli.generateFlyers number_to_string W config formatChoice quantity language
  = Cli.Exit code ->
  code = 1%Z
  /\ ((exists c, FlyerGenerator.mkdir W = FlyerGenerator.MkdirError c
                 /\ c <> Some (js "EEXIST"))
      \/ (exists items,
            parsed_array (FlyerGenerator.completion W) = Some items
            /\ filter TextGenerator.has_required_fields items = [])
      \/ (exists items i,
            parsed_array (FlyerGenerator.completion W) = Some items
            /\ filter TextGenerator.has_required_fields items <> []
            /\ (i < Z.to_nat quantity)%nat
            /\ FlyerGenerator.tone_label number_to_string
                 (FlyerGenerator.cycle
                    (filter TextGenerator.has_required_fields items) i)
               = Throw TypeError)).
Proof.
  intros Hq H.
  assert (Hthrow : code = 1%Z
            /\ exists e,
                 FlyerGenerator.generateVariations number_to_string W config
                   quantity = Throw e
                 \/ FlyerGenerator.generateForAllFormats number_to_string W
                      config quantity = Throw e).
  { unfold Cli.generateFlyers in H.
    destruct (jseqb formatChoice
                (js "All formats (Facebook, Instagram, Stories)")).
    - destruct (FlyerGenerator.generateForAllFormats number_to_string W config
                  quantity) as [l|e]; [discriminate|].
      split; [congruence|]. exists e. right. reflexivity.
    - assert (H' : match
                     FlyerGenerator.generateVariations number_to_string W
                       config quantity
                   with
                   | Ok flyers => Cli.Completed flyers
                   | Throw _ => Cli.Exit 1
                   end = Cli.Exit code).
      { destruct (jseqb formatChoice (js "Instagram only (1080x1080)"));
          [exact H|].
        destruct (jseqb formatChoice (js "Stories only (1080x1920)"));
          exact H. }
      clear H.
      destruct (FlyerGenerator.generateVariations number_to_string W config
                  quantity) as [l|e]; [discriminate|].
      split; [congruence|]. exists e. left. reflexivity. }
  destruct Hthrow as (-> & e & He). split; [reflexivity|].
  destruct (batch_throw_cases number_to_string W config quantity e He)
    as (vars & Ev & [Hd | [Hv | (Hne & i & Hi & Ht)]]).
  - left. exact Hd.
  - right. left. subst vars. rewrite generateVariations_paths in Ev.
    destruct (parsed_array (FlyerGenerator.completion W)) as [items|].
    + exists items. split; [reflexivity|]. congruence.
    + exfalso.
      destruct (generateFallbackVariations_total config quantity (js "English"))
        as (bank & Eb & Lb & _).
      rewrite Eb in Ev. cbn [bind] in Ev. injection Ev as Ev.
      destruct bank; [simpl in Lb; lia | discriminate].
  - right. right.
    destruct (parsed_array (FlyerGenerator.completion W)) as [items|] eqn:Ep.
    + exists items, i. split; [reflexivity|].
      rewrite generateVariations_paths, Ep in Ev. injection Ev as <-.
      auto.
    + exfalso.
      destruct (fallback_labels number_to_string W config quantity vars i
                  Ep Ev Hne) as (tone & Hl).
      congruence.
Qed.

Lemma exit_status_witness :
  Cli.generateFlyers Sample.no_numbers Sample.stubborn_world Sample.pizza
    (js "Facebook only (1200x630)") 3 (js "English") = Cli.Exit 1
  /\ FlyerGenerator.mkdir Sample.stubborn_world = FlyerGenerator.MkdirOk
  /\ parsed_array (FlyerGenerator.completion Sample.stubborn_world)
     = Some [Sample.stubborn_tone]
  /\ 1%Z = 1%Z.
Proof.
  split; [vm_compute; reflexivity|].
  split; [reflexivity|]. split; [reflexivity|].
  apply (exit_status Sample.no_numbers Sample.stubborn_world Sample.pizza
           (js "Facebook only (1200x630)") 3 (js "English") 1).
  - lia.
  - vm_compute. reflexivity.
Defined.
